(** * Hospitals-Access-Peru: the data preparation pipeline of [app.py]

    A shallow embedding of the tabular pipeline of [app.py]: the memoized
    load (lines 13-20), the column-label normalisation (27-29), the hospital
    filter chain and its point geometry (32-55), the preview of the first
    tab (72-75), the per-district count with its left join (84-101), the
    tables of the second tab (111-125) with the department dissolve
    (116-117), and the markers of the third tab (157-162), together with
    the properties the specification states about them.

    Python strings are lists of Unicode code points.  A data frame is a list
    of column labels and a list of rows, each row with its index label and
    its cells by position.  A statement that can raise is a computation in
    an error monad, and the script is the sequence of its statements; the
    load threads the state of the session.

    The operations of pandas, geopandas and Streamlit are written out as
    their documentation describes them.  Four things are left to the
    runtime and taken as parameters: the whitespace test and the upper-case
    table of Python strings, the number parser of [pd.to_numeric], and the
    geometric union and reprojection of shapely.  Numbers are values: a
    count is an integer whether pandas stores it as [int64] or [float64].

    A label that several columns carry makes [df[c]] a frame.  What the
    script does with it is written out where it decides the outcome:
    [pd.to_numeric] refuses it (lines 40-41), [df[[..]]] keeps every such
    column and [st.dataframe] refuses two columns of one label (lines 75,
    113, 120, 125).  The other reads take the leftmost such column. *)

From Stdlib Require Import ZArith NArith List Lia Ascii String Sorted.
From stdpp Require Import base decidable option numbers list.

Local Open Scope N_scope.

(** ** Python strings *)

(** A Python [str]: the list of its code points. *)
Definition pystr : Type := list N.

(** Source literals are written as UTF-8 text; [utf8] decodes them to code
    points (one-, two-, three- and four-byte sequences). *)
Fixpoint utf8_decode (bs : list N) : pystr :=
  match bs with
  | [] => []
  | b :: rest =>
      if b <? 128 then b :: utf8_decode rest
      else if b <? 224 then
        match rest with
        | b1 :: rest' => ((b - 192) * 64 + (b1 - 128)) :: utf8_decode rest'
        | _ => [b]
        end
      else if b <? 240 then
        match rest with
        | b1 :: b2 :: rest' =>
            ((b - 224) * 4096 + (b1 - 128) * 64 + (b2 - 128)) :: utf8_decode rest'
        | _ => [b]
        end
      else
        match rest with
        | b1 :: b2 :: b3 :: rest' =>
            ((b - 240) * 262144 + (b1 - 128) * 4096 + (b2 - 128) * 64 + (b3 - 128))
              :: utf8_decode rest'
        | _ => [b]
        end
  end.

Definition utf8 (s : string) : pystr :=
  utf8_decode (map N_of_ascii (list_ascii_of_string s)).

(** Python's [needle in s] on strings: [needle] occurs as a contiguous run. *)
Fixpoint starts_with (needle s : pystr) : bool :=
  match needle, s with
  | [], _ => true
  | _ :: _, [] => false
  | a :: needle', b :: s' => (a =? b) && starts_with needle' s'
  end.

Fixpoint contains (needle s : pystr) : bool :=
  starts_with needle s ||
  match s with
  | [] => false
  | _ :: s' => contains needle s'
  end.

(** ** The labels and values the script names *)

Definition CONDICION : pystr := Eval vm_compute in utf8 "CONDICIÓN".
Definition NORTE : pystr := Eval vm_compute in utf8 "NORTE".
Definition ESTE : pystr := Eval vm_compute in utf8 "ESTE".
Definition CLASIFICACION : pystr := Eval vm_compute in utf8 "CLASIFICACIÓN".
Definition INSTITUCION : pystr := Eval vm_compute in utf8 "INSTITUCIÓN".
Definition ESTABLECIMIENTO : pystr := Eval vm_compute in utf8 "ESTABLECIMIENTO".
Definition DISTRITO : pystr := Eval vm_compute in utf8 "DISTRITO".
Definition DEPARTAMEN : pystr := Eval vm_compute in utf8 "DEPARTAMEN".
Definition PROVINCIA : pystr := Eval vm_compute in utf8 "PROVINCIA".
Definition DEPARTAMENTO : pystr := Eval vm_compute in utf8 "DEPARTAMENTO".
Definition N_HOSPITALS : pystr := Eval vm_compute in utf8 "N_HOSPITALS".
Definition geometry_lower : pystr := Eval vm_compute in utf8 "geometry".
Definition GEOMETRY : pystr := Eval vm_compute in utf8 "GEOMETRY".

Definition EN_FUNCIONAMIENTO : pystr := Eval vm_compute in utf8 "EN FUNCIONAMIENTO".
Definition ATENCION_GENERAL : pystr :=
  Eval vm_compute in utf8 "HOSPITALES O CLINICAS DE ATENCION GENERAL".
Definition ATENCION_ESPECIALIZADA : pystr :=
  Eval vm_compute in utf8 "HOSPITALES O CLINICAS DE ATENCION ESPECIALIZADA".
Definition INSTITUTOS_ESPECIALIZADOS : pystr :=
  Eval vm_compute in utf8 "INSTITUTOS DE SALUD ESPECIALIZADOS".
Definition PRIVADO : pystr := Eval vm_compute in utf8 "PRIVADO".

Definition MINSA : pystr := Eval vm_compute in utf8 "MINSA".
Definition norte_text : pystr := Eval vm_compute in utf8 "-12.05".
Definition este_text : pystr := Eval vm_compute in utf8 "-77.03".

Definition IPRESS_csv : pystr := Eval vm_compute in utf8 "IPRESS.csv".
Definition DISTRITOS_shp : pystr := Eval vm_compute in utf8 "shape_file/DISTRITOS.shp".
Definition CCPP_shp : pystr := Eval vm_compute in utf8 "CCPP_0/CCPP_IGN100K.shp".

(** ** Values, frames and exceptions *)

(** A numeric value of an [int64] or [float64] column.  [float] stands for
    the IEEE doubles other than NaN: the script never computes with them, it
    only moves them around, so the type is left open. *)
Inductive number (float : Type) : Type :=
  | Int (n : Z)
  | Float (x : float).
Arguments Int {float} n.
Arguments Float {float} x.

(** A shapely geometry: a point built from two coordinates, or a boundary
    shape read from a shapefile (or a union of such shapes). *)
Inductive geometry (float shape : Type) : Type :=
  | Point (x y : number float)
  | Shape (s : shape).
Arguments Point {float shape} x y.
Arguments Shape {float shape} s.

(** One cell of a frame.  [NaN] is the missing value ([NaN] or [None]). *)
Inductive cell (float shape : Type) : Type :=
  | NaN
  | Str (s : pystr)
  | Num (x : number float)
  | Geo (g : geometry float shape).
Arguments NaN {float shape}.
Arguments Str {float shape} s.
Arguments Num {float shape} x.
Arguments Geo {float shape} g.

(** A data frame: the column labels, and the rows in order, each with its
    index label and its cells by column position. *)
Record DataFrame (float shape : Type) : Type := mkDataFrame {
  columns : list pystr;
  rows : list (cell float shape * list (cell float shape))
}.
Arguments mkDataFrame {float shape} columns rows.
Arguments columns {float shape} d.
Arguments rows {float shape} d.

(** The exceptions the script can die of, and [st.stop()]. *)
Inductive exn : Type :=
  | KeyError (labels : list pystr)
  | IndexError
  | FileNotFoundError (path : pystr)
  | AttributeError
  | TypeError
  | ValueError
  | StopScript.

Inductive result (A : Type) : Type :=
  | Ok (a : A)
  | Raise (e : exn).
Arguments Ok {A} a.
Arguments Raise {A} e.

(** A table as a file holds it, and whether the file gives it a coordinate
    reference system (a shapefile with its projection file does). *)
Record stored (float shape : Type) : Type := mkStored {
  table : DataFrame float shape;
  has_crs : bool
}.
Arguments mkStored {float shape} table has_crs.
Arguments table {float shape} s.
Arguments has_crs {float shape} s.

(** Local storage: what reading a path gives, the table stored there or
    the exception the reader raises (no file, or a file it cannot
    parse). *)
Definition storage (float shape : Type) : Type :=
  pystr -> result (stored float shape).

(** The state of the process: the files, the reads of storage made so far,
    and the entry [st.cache_data] keeps for [load_data]. *)
Record session (float shape : Type) : Type := mkSession {
  files : storage float shape;
  reads : list pystr;
  cache : option (DataFrame float shape * DataFrame float shape * DataFrame float shape)
}.
Arguments mkSession {float shape} files reads cache.
Arguments files {float shape} s.
Arguments reads {float shape} s.
Arguments cache {float shape} s.

(** Sequencing of statements: the first exception ends the run. *)
#[global] Instance result_bind : MBind result :=
  fun A B (k : A -> result B) (m : result A) =>
    match m with
    | Ok a => k a
    | Raise e => Raise e
    end.

#[global] Instance result_fmap : FMap result :=
  fun A B (f : A -> B) (m : result A) =>
    match m with
    | Ok a => Ok (f a)
    | Raise e => Raise e
    end.

#[global] Instance number_eq_dec {float} `{EqDecision float} : EqDecision (number float).
Proof. solve_decision. Defined.
#[global] Instance geometry_eq_dec {float shape} `{EqDecision float, EqDecision shape} :
  EqDecision (geometry float shape).
Proof. solve_decision. Defined.
#[global] Instance cell_eq_dec {float shape} `{EqDecision float, EqDecision shape} :
  EqDecision (cell float shape).
Proof. solve_decision. Defined.
#[global] Instance exn_eq_dec : EqDecision exn.
Proof. solve_decision. Defined.

(** ** Library tables used to run the model

    The script leaves number parsing, case mapping and whitespace to the
    Python runtime and to pandas.  The pipeline below takes them as
    parameters; the tables here are the ones the examples are run with. *)

(** The block U+0000..U+00FF of Python's upper-case mapping: [str.upper]
    maps a code point to one or more code points. *)
Definition latin1_upper (c : N) : list N :=
  if (97 <=? c) && (c <=? 122) then [c - 32]
  else if c =? 181 then [924]
  else if c =? 223 then [83; 83]
  else if (224 <=? c) && (c <=? 254) && negb (c =? 247) then [c - 32]
  else if c =? 255 then [376]
  else [c].

(** The code points [str.strip] removes. *)
Definition py_isspace (c : N) : bool :=
  ((9 <=? c) && (c <=? 13)) || ((28 <=? c) && (c <=? 32)) || (c =? 133) || (c =? 160)
  || (c =? 5760) || ((8192 <=? c) && (c <=? 8202)) || (c =? 8232) || (c =? 8233)
  || (c =? 8239) || (c =? 8287) || (c =? 12288).

(** Decimal numbers [mantissa / 10 ^ scale], the values of plain decimal
    literals. *)
Record decimal : Type := mkDecimal { mantissa : Z; scale : nat }.

#[global] Instance decimal_eq_dec : EqDecision decimal.
Proof. solve_decision. Defined.

Fixpoint read_digits (s : pystr) (acc : N) (n : nat) : N * nat * pystr :=
  match s with
  | c :: s' =>
      if (48 <=? c) && (c <=? 57) then read_digits s' (acc * 10 + (c - 48)) (S n)
      else (acc, n, s)
  | [] => (acc, n, [])
  end.

(** A parser for the literals [-?digits] and [-?digits.digits]. *)
Definition parse_decimal (s : pystr) : option (number decimal) :=
  let '(neg, s1) :=
    match s with
    | 45 :: t => (true, t)
    | 43 :: t => (false, t)
    | _ => (false, s)
    end in
  let signed (m : N) : Z := if neg then (- Z.of_N m)%Z else Z.of_N m in
  let '(ip, n1, s2) := read_digits s1 0 0%nat in
  match n1, s2 with
  | O, _ => None
  | _, [] => Some (Int (signed ip))
  | _, 46 :: s3 =>
      let '(m, n2, s4) := read_digits s3 ip 0%nat in
      match s4 with
      | [] => Some (Float (mkDecimal (signed m) n2))
      | _ => None
      end
  | _, _ => None
  end.


(** One pass over a code point: what the proofs about the tables need of
    it, as a test. *)
Definition latin1_tables_ok (c : N) : bool :=
  (py_isspace c
   || (negb (bool_decide (latin1_upper c = []))
       && forallb (fun d => negb (py_isspace d)) (latin1_upper c)))
  && forallb (fun d => bool_decide (latin1_upper d = [d])) (latin1_upper c).

(** ** Tables the examples are run on *)

(** Boundary shapes are named by the polygons they are made of. *)
Definition demo_union (gs : list (geometry decimal (list nat))) :
    geometry decimal (list nat) :=
  Shape (flat_map (fun g => match g with Shape s => s | Point _ _ => [] end) gs).

Definition SAN_ISIDRO : pystr := Eval vm_compute in utf8 "SAN ISIDRO".
Definition XYZ : pystr := Eval vm_compute in utf8 "XYZ".
Definition LIMA : pystr := Eval vm_compute in utf8 "LIMA".
Definition TACNA : pystr := Eval vm_compute in utf8 "TACNA".
Definition name_label : pystr := Eval vm_compute in utf8 "NOMBRE_DEL_ESTABLECIMIENTO".

(** A normalised hospital table: three qualifying hospitals in SAN ISIDRO
    (the first is the row of scenario 1), a private one, one without a
    usable NORTE and one that is closed. *)
Definition demo_hospitals : DataFrame decimal (list nat) :=
  mkDataFrame
    [name_label; CONDICION; INSTITUCION; CLASIFICACION; NORTE; ESTE; DEPARTAMEN; DISTRITO]
    [(Num (Int 0), [Str (utf8 "H0"); Str EN_FUNCIONAMIENTO; Str MINSA; Str ATENCION_GENERAL;
                    Str norte_text; Str este_text; Str LIMA; Str SAN_ISIDRO]);
     (Num (Int 1), [Str (utf8 "H1"); Str EN_FUNCIONAMIENTO; Str PRIVADO; Str ATENCION_GENERAL;
                    Str norte_text; Str este_text; Str LIMA; Str SAN_ISIDRO]);
     (Num (Int 2), [Str (utf8 "H2"); Str EN_FUNCIONAMIENTO; Str MINSA; Str ATENCION_GENERAL;
                    Str (utf8 "N/A"); Str este_text; Str LIMA; Str SAN_ISIDRO]);
     (Num (Int 3), [Str (utf8 "H3"); Str EN_FUNCIONAMIENTO; NaN; Str INSTITUTOS_ESPECIALIZADOS;
                    Num (Float (mkDecimal (-1209) 2)); Num (Int (-77)); Str LIMA;
                    Str SAN_ISIDRO]);
     (Num (Int 4), [Str (utf8 "H4"); Str (utf8 "CERRADO"); Str MINSA; Str ATENCION_GENERAL;
                    Str norte_text; Str este_text; Str LIMA; Str XYZ]);
     (Num (Int 5), [Str (utf8 "H5"); Str EN_FUNCIONAMIENTO; Str (utf8 "ESSALUD");
                    Str ATENCION_ESPECIALIZADA; Str (utf8 "-12.10"); Str (utf8 "-77.04");
                    Str LIMA; Str SAN_ISIDRO])].

(** What the filter chain leaves of it. *)
Definition demo_operational : DataFrame decimal (list nat) :=
  mkDataFrame
    [name_label; CONDICION; INSTITUCION; CLASIFICACION; NORTE; ESTE; DEPARTAMEN; DISTRITO]
    [(Num (Int 0), [Str (utf8 "H0"); Str EN_FUNCIONAMIENTO; Str MINSA; Str ATENCION_GENERAL;
                    Num (Float (mkDecimal (-1205) 2)); Num (Float (mkDecimal (-7703) 2));
                    Str LIMA; Str SAN_ISIDRO]);
     (Num (Int 3), [Str (utf8 "H3"); Str EN_FUNCIONAMIENTO; NaN; Str INSTITUTOS_ESPECIALIZADOS;
                    Num (Float (mkDecimal (-1209) 2)); Num (Int (-77)); Str LIMA;
                    Str SAN_ISIDRO]);
     (Num (Int 5), [Str (utf8 "H5"); Str EN_FUNCIONAMIENTO; Str (utf8 "ESSALUD");
                    Str ATENCION_ESPECIALIZADA; Num (Float (mkDecimal (-1210) 2));
                    Num (Float (mkDecimal (-7704) 2)); Str LIMA; Str SAN_ISIDRO])].

(** The enriched dataset: the same rows with their points. *)
Definition demo_gdf : DataFrame decimal (list nat) :=
  mkDataFrame
    [name_label; CONDICION; INSTITUCION; CLASIFICACION; NORTE; ESTE; DEPARTAMEN; DISTRITO;
     geometry_lower]
    [(Num (Int 0), [Str (utf8 "H0"); Str EN_FUNCIONAMIENTO; Str MINSA; Str ATENCION_GENERAL;
                    Num (Float (mkDecimal (-1205) 2)); Num (Float (mkDecimal (-7703) 2));
                    Str LIMA; Str SAN_ISIDRO;
                    Geo (Point (Float (mkDecimal (-7703) 2)) (Float (mkDecimal (-1205) 2)))]);
     (Num (Int 3), [Str (utf8 "H3"); Str EN_FUNCIONAMIENTO; NaN; Str INSTITUTOS_ESPECIALIZADOS;
                    Num (Float (mkDecimal (-1209) 2)); Num (Int (-77)); Str LIMA;
                    Str SAN_ISIDRO;
                    Geo (Point (Int (-77)) (Float (mkDecimal (-1209) 2)))]);
     (Num (Int 5), [Str (utf8 "H5"); Str EN_FUNCIONAMIENTO; Str (utf8 "ESSALUD");
                    Str ATENCION_ESPECIALIZADA; Num (Float (mkDecimal (-1210) 2));
                    Num (Float (mkDecimal (-7704) 2)); Str LIMA; Str SAN_ISIDRO;
                    Geo (Point (Float (mkDecimal (-7704) 2)) (Float (mkDecimal (-1210) 2)))])].

(** Column labels as a raw file has them. *)
Definition demo_raw_labels : list pystr :=
  [utf8 "Nombre del establecimiento"; utf8 " Condición"; utf8 "Institución ";
   utf8 "clasificación"; utf8 "NORTE"; utf8 "Este"; utf8 "Departamen"; utf8 "distrito"].

Definition demo_raw_hospitals : DataFrame decimal (list nat) :=
  mkDataFrame demo_raw_labels (rows demo_hospitals).

(** A hospital table that lacks the ESTE column. *)
Definition demo_no_este : DataFrame decimal (list nat) :=
  mkDataFrame [name_label; CONDICION; NORTE]
    [(Num (Int 0), [Str (utf8 "H0"); Str EN_FUNCIONAMIENTO; Str norte_text])].


(** A raw hospital table in which two labels normalise to DISTRITO. *)
Definition demo_two_distrito : DataFrame decimal (list nat) :=
  mkDataFrame
    [utf8 "Nombre del establecimiento"; utf8 "Condición"; utf8 "NORTE"; utf8 "ESTE";
     utf8 "DISTRITO"; utf8 "Distrito"]
    [(Num (Int 0), [Str (utf8 "H0"); Str EN_FUNCIONAMIENTO; Str norte_text; Str este_text;
                    Str SAN_ISIDRO; Str SAN_ISIDRO])].

(** A normalised district table: two districts of LIMA, one of them without
    hospitals, and a department without any. *)
Definition demo_districts : DataFrame decimal (list nat) :=
  mkDataFrame [DEPARTAMEN; PROVINCIA; DISTRITO; GEOMETRY]
    [(Num (Int 0), [Str LIMA; Str LIMA; Str SAN_ISIDRO; Geo (Shape [1%nat])]);
     (Num (Int 1), [Str LIMA; Str LIMA; Str XYZ; Geo (Shape [2%nat])]);
     (Num (Int 2), [Str TACNA; Str TACNA; Str TACNA; Geo (Shape [3%nat])])].

(** The same table with a count column of its own. *)
Definition demo_districts_counted : DataFrame decimal (list nat) :=
  mkDataFrame [DEPARTAMEN; PROVINCIA; DISTRITO; GEOMETRY; N_HOSPITALS]
    [(Num (Int 0), [Str LIMA; Str LIMA; Str SAN_ISIDRO; Geo (Shape [1%nat]);
                    Num (Int 7)]);
     (Num (Int 1), [Str TACNA; Str TACNA; Str TACNA; Geo (Shape [3%nat]);
                    Num (Int 0)])].

(** The same table with a district whose department name is missing. *)
Definition demo_districts_unnamed : DataFrame decimal (list nat) :=
  mkDataFrame [DEPARTAMEN; PROVINCIA; DISTRITO; GEOMETRY]
    [(Num (Int 0), [NaN; Str LIMA; Str SAN_ISIDRO; Geo (Shape [1%nat])]);
     (Num (Int 1), [Str LIMA; Str LIMA; Str XYZ; Geo (Shape [2%nat])])].

(** The three files as read, before the labels are normalised, and a
    session that has not loaded them yet. *)
Definition demo_districts_file : DataFrame decimal (list nat) :=
  mkDataFrame [utf8 "Departamen"; utf8 "Provincia"; utf8 "Distrito"; geometry_lower]
    (rows demo_districts).

Definition demo_centers_file : DataFrame decimal (list nat) :=
  mkDataFrame [utf8 "NOM_POBLAD"; geometry_lower]
    [(Num (Int 0), [Str (utf8 "LIMA"); Geo (Point (Int (-77)) (Int (-12)))])].

Definition demo_files : storage decimal (list nat) :=
  fun path =>
    if decide (path = IPRESS_csv) then Ok (mkStored demo_raw_hospitals false)
    else if decide (path = DISTRITOS_shp) then Ok (mkStored demo_districts_file true)
    else if decide (path = CCPP_shp) then Ok (mkStored demo_centers_file true)
    else Raise (FileNotFoundError path).

Definition demo_session : session decimal (list nat) := mkSession demo_files [] None.

(** The session after the first load (the example reprojects nothing). *)
Definition demo_loaded : session decimal (list nat) :=
  mkSession demo_files [IPRESS_csv; DISTRITOS_shp; CCPP_shp]
    (Some (demo_raw_hospitals, demo_districts_file, demo_centers_file)).

(** The district file with a fourth record that has no shape. *)
Definition demo_districts_gap : DataFrame decimal (list nat) :=
  mkDataFrame (columns demo_districts_file)
    (rows demo_districts_file
     ++ [(Num (Int 3), [Str TACNA; Str TACNA; Str (utf8 "ILABAYA"); NaN])]).

(** A session whose storage holds the three files, the district shapefile
    without its coordinate reference system. *)
Definition demo_files_naive : storage decimal (list nat) :=
  fun path =>
    if decide (path = DISTRITOS_shp) then Ok (mkStored demo_districts_file false)
    else demo_files path.

Definition demo_session_naive : session decimal (list nat) :=
  mkSession demo_files_naive [] None.

(** [str] on the cells of the example's name column, which holds strings. *)
Definition demo_str (c : cell decimal (list nat)) : pystr :=
  match c with
  | Str s => s
  | _ => utf8 "nan"
  end.

(** ** The pipeline *)

(** Closed decidable facts are settled by evaluation. *)
Ltac by_computation := apply (bool_decide_unpack _); vm_compute; exact I.

Section Pipeline.
Context {float shape : Type} `{EqDecision float, EqDecision shape}.

(** [str.strip]'s whitespace test and [str.upper]'s per-code-point map. *)
Variable is_space : N -> bool.
Variable to_upper : N -> list N.
(** What [pd.to_numeric] makes of a string: [None] when it is no number. *)
Variable str_to_number : pystr -> option (number float).
(** shapely's union of the geometries of a group, and the reprojection
    [to_crs(epsg=4326)] of one geometry. *)
Variable unary_union : list (geometry float shape) -> geometry float shape.
Variable to_crs_4326 : geometry float shape -> geometry float shape.

Abbreviation value := (cell float shape).
Abbreviation row := (cell float shape * list (cell float shape))%type.
Abbreviation frame := (DataFrame float shape).
Abbreviation session := (session float shape).

(** *** Normalizer (lines 27-29) *)

Fixpoint lstrip (s : pystr) : pystr :=
  match s with
  | c :: s' => if is_space c then lstrip s' else s
  | [] => []
  end.

Fixpoint rstrip (s : pystr) : pystr :=
  match s with
  | [] => []
  | c :: s' =>
      match rstrip s' with
      | [] => if is_space c then [] else [c]
      | t => c :: t
      end
  end.

Definition strip (s : pystr) : pystr := rstrip (lstrip s).

Definition upper (s : pystr) : pystr := flat_map to_upper s.

(** [.replace(" ", "_")] *)
Definition replace_space (s : pystr) : pystr :=
  map (fun c => if c =? 32 then 95 else c) s.

(** [.str.strip().str.upper().str.replace(" ", "_")] on one label. *)
Definition normalize_label (s : pystr) : pystr :=
  replace_space (upper (strip s)).

(** [df.columns = df.columns.str.strip().str.upper().str.replace(" ", "_")] *)
Definition normalize_columns (df : frame) : frame :=
  mkDataFrame (map normalize_label (columns df)) (rows df).

(** *** Frame access *)

Fixpoint index_of (c : pystr) (cols : list pystr) : option nat :=
  match cols with
  | [] => None
  | l :: cols' => if decide (l = c) then Some 0%nat else S <$> index_of c cols'
  end.

(** [df[c]] raises [KeyError] when no column is labelled [c].  For a label
    that several columns carry pandas hands back a frame; the model reads
    the leftmost of them, except where the script passes the selection to
    [pd.to_numeric] ([series_pos] below). *)
Definition col_pos (c : pystr) (df : frame) : result nat :=
  match index_of c (columns df) with
  | Some i => Ok i
  | None => Raise (KeyError [c])
  end.

Definition cell_at (i : nat) (r : list value) : value := default NaN (r !! i).

(** Several columns carry the label: [df[c]] is then a frame, not a
    column. *)
Definition repeated (c : pystr) (cols : list pystr) : Prop :=
  (2 <= length (filter (fun l => l = c) cols))%nat.

#[global] Instance repeated_dec c cols : Decision (repeated c cols).
Proof. unfold repeated. apply _. Defined.

(** [df[c]] handed to a function that takes a column, as [pd.to_numeric]
    does: [KeyError] when no column is labelled [c], and [TypeError] when
    several are, since [to_numeric] refuses a frame. *)
Definition series_pos (c : pystr) (df : frame) : result nat :=
  i ← col_pos c df;
  if decide (repeated c (columns df)) then Raise TypeError else Ok i.

(** [df[mask]] for a mask computed row by row from [df] itself. *)
Definition select (P : list value -> Prop) `{!forall r, Decision (P r)}
    (df : frame) : frame :=
  mkDataFrame (columns df) (filter (fun r : row => P r.2) (rows df)).

(** [df[c] = values], the values computed row by row from [df]: an
    existing column is overwritten in place, a new one is appended. *)
Definition assign (c : pystr) (f : list value -> value) (df : frame) : frame :=
  match index_of c (columns df) with
  | Some i =>
      mkDataFrame (columns df)
        (map (fun r : row => (r.1, <[i := f r.2]> r.2)) (rows df))
  | None =>
      mkDataFrame (columns df ++ [c])
        (map (fun r : row => (r.1, r.2 ++ [f r.2])) (rows df))
  end.

(** *** Hospital name column (line 32) *)

Definition hospital_name_col (hospitals : frame) : result pystr :=
  match filter (fun c => contains ESTABLECIMIENTO c = true) (columns hospitals) with
  | c :: _ => Ok c
  | [] => Raise IndexError
  end.

(** *** Filter/Enrich (lines 37-55) *)

(** [pd.to_numeric(.., errors='coerce')] on one cell. *)
Definition to_numeric (c : value) : value :=
  match c with
  | Num x => Num x
  | Str s =>
      match str_to_number s with
      | Some x => Num x
      | None => NaN
      end
  | _ => NaN
  end.

Definition allowed_classification (c : value) : Prop :=
  c = Str ATENCION_GENERAL \/ c = Str ATENCION_ESPECIALIZADA
  \/ c = Str INSTITUTOS_ESPECIALIZADOS.

#[global] Instance allowed_classification_dec c : Decision (allowed_classification c).
Proof. unfold allowed_classification. apply _. Defined.

Definition hospitals_operational (hospitals : frame) : result frame :=
  iC ← col_pos CONDICION hospitals;
  let df1 := select (fun r => cell_at iC r = Str EN_FUNCIONAMIENTO) hospitals in
  iN ← series_pos NORTE df1;
  let df2 := assign NORTE (fun r => to_numeric (cell_at iN r)) df1 in
  iE ← series_pos ESTE df2;
  let df3 := assign ESTE (fun r => to_numeric (cell_at iE r)) df2 in
  let df4 := select (fun r => cell_at iN r <> NaN /\ cell_at iE r <> NaN) df3 in
  if decide (CLASIFICACION ∈ columns df4 /\ INSTITUCION ∈ columns df4) then
    iK ← col_pos CLASIFICACION df4;
    iI ← col_pos INSTITUCION df4;
    Ok (select (fun r => allowed_classification (cell_at iK r)
                         /\ cell_at iI r <> Str PRIVADO) df4)
  else Ok df4.

(** [gpd.points_from_xy(x, y)] on one pair of cells. *)
Definition point_from_xy (x y : value) : value :=
  match x, y with
  | Num a, Num b => Geo (Point a b)
  | _, _ => NaN
  end.

(** Lines 54-55: the point column, attached under the label [geometry]. *)
Definition hospitals_gdf (operational : frame) : result frame :=
  iE ← col_pos ESTE operational;
  iN ← col_pos NORTE operational;
  Ok (assign geometry_lower
        (fun r => point_from_xy (cell_at iE r) (cell_at iN r)) operational).

(** Lines 32-55 on the normalised hospital table. *)
Definition enrich (hospitals : frame) : result (pystr * frame) :=
  name_col ← hospital_name_col hospitals;
  operational ← hospitals_operational hospitals;
  gdf ← hospitals_gdf operational;
  Ok (name_col, gdf).

(** *** Aggregator (lines 84-125) *)

Definition count_of (c : value) : Z :=
  match c with
  | Num (Int n) => n
  | _ => 0%Z
  end.

Definition sum_Z (l : list Z) : Z := foldr Z.add 0%Z l.

(** A fresh [RangeIndex] for the rows of a new frame. *)
Definition reindex (rs : list (list value)) : list row :=
  imap (fun j r => (Num (Int (Z.of_nat j)), r)) rs.

(** [df.groupby(by).size().reset_index(name=name)]: one row per key that is
    not missing, with the number of rows that carry the key.  pandas orders
    the groups by key; the order is not observable in this script (the
    frame is only joined onto the districts), and the model keeps the keys
    in the order [remove_dups] leaves them. *)
Definition groupby_size (by_ name : pystr) (df : frame) : result frame :=
  k ← col_pos by_ df;
  let keys := remove_dups (filter (fun c : value => c <> NaN)
                             (map (fun r : row => cell_at k r.2) (rows df))) in
  Ok (mkDataFrame [by_; name]
        (reindex (map (fun key =>
           [key; Num (Int (Z.of_nat (length
              (filter (fun r : row => cell_at k r.2 = key) (rows df)))))]) keys))).

(** The suffix pandas appends to a label that both sides of a merge carry. *)
Definition with_suffix (clash : list pystr) (suffix : pystr) (c : pystr) : pystr :=
  if decide (c ∈ clash) then c ++ suffix else c.

Definition suffix_x : pystr := Eval vm_compute in utf8 "_x".
Definition suffix_y : pystr := Eval vm_compute in utf8 "_y".

(** [left.merge(right, on=on, how="left")]: every left row, in order, once
    per right row with the same key, or once with missing values when no
    right row has the key.  The keys are compared as cells; pandas
    compares key columns of one kind only and refuses a text key against
    a numeric one, which is outside this model (the script joins names). *)
Definition merge_left (left right : frame) (on : pystr) : result frame :=
  kl ← col_pos on left;
  kr ← col_pos on right;
  let rcols := delete kr (columns right) in
  let clash := filter (fun c => c ∈ rcols) (delete kl (columns left)) in
  let join (l : row) : list (list value) :=
    match filter (fun r : row => cell_at kr r.2 = cell_at kl l.2) (rows right) with
    | [] => [l.2 ++ replicate (length rcols) NaN]
    | matches => map (fun r : row => l.2 ++ delete kr r.2) matches
    end in
  Ok (mkDataFrame
        (imap (fun j c => if decide (j = kl) then c else with_suffix clash suffix_x c)
              (columns left)
         ++ map (with_suffix clash suffix_y) rcols)
        (reindex (flat_map join (rows left)))).

(** [.fillna(0)] on one cell. *)
Definition fillna0 (c : value) : value :=
  match c with
  | NaN => Num (Int 0)
  | _ => c
  end.

(** Lines 84-101. *)
Definition districts_copy (gdf districts : frame) : result frame :=
  hosp_count ← groupby_size DISTRITO N_HOSPITALS gdf;
  geom_col ← (if decide (geometry_lower ∈ columns districts) then Ok geometry_lower
              else if decide (GEOMETRY ∈ columns districts) then Ok GEOMETRY
              else Raise StopScript);
  merged ← merge_left districts hosp_count DISTRITO;
  n ← col_pos N_HOSPITALS merged;
  Ok (assign N_HOSPITALS (fun r => fillna0 (cell_at n r)) merged).

(** The geometry column lines 90-96 pick. *)
Definition geom_col_of (districts : frame) : pystr :=
  if decide (geometry_lower ∈ columns districts) then geometry_lower else GEOMETRY.

(** The positions of the columns labelled [c], left to right, counted
    from [k]. *)
Fixpoint positions_from (k : nat) (c : pystr) (cols : list pystr) : list nat :=
  match cols with
  | [] => []
  | l :: cols' =>
      (if decide (l = c) then [k] else []) ++ positions_from (S k) c cols'
  end.

Definition positions (c : pystr) (cols : list pystr) : list nat :=
  positions_from 0 c cols.

(** [df[[c1; ..; cn]]]: for each listed label in turn, every column that
    carries it; [KeyError] naming the labels that are not there. *)
Definition project (cs : list pystr) (df : frame) : result frame :=
  match filter (fun c => c ∉ columns df) cs with
  | [] =>
      let picked := flat_map (fun c => map (pair c) (positions c (columns df))) cs in
      Ok (mkDataFrame (map fst picked)
            (map (fun r : row =>
               (r.1, map (fun p : pystr * nat => cell_at p.2 r.2) picked))
               (rows df)))
  | missing => Raise (KeyError missing)
  end.

(** [st.dataframe(df)]: the table goes to the browser as an Arrow table,
    which refuses two columns of one label with [ValueError]. *)
Definition st_dataframe (df : frame) : result unit :=
  if decide (NoDup (columns df)) then Ok tt else Raise ValueError.

(** Lines 111-113: the districts with no hospital, first ten shown. *)
Definition zero_hosp (dc : frame) : result frame :=
  n ← col_pos N_HOSPITALS dc;
  shown ← project [DEPARTAMEN; PROVINCIA; DISTRITO]
            (select (fun r => cell_at n r = Num (Int 0)) dc);
  let table := mkDataFrame (columns shown) (take 10 (rows shown)) in
  st_dataframe table;;
  Ok table.

Definition geom_of (c : value) : option (geometry float shape) :=
  match c with
  | Geo g => Some g
  | _ => None
  end.

(** [gdf.dissolve(by=by, aggfunc="sum")]: one row per key that is not
    missing ([dropna=True]), indexed by the key, with the union of the
    group's geometries and the sum of its counts.  dissolve sums the other
    attribute columns too; the script reads only [N_HOSPITALS] and the
    index, and the model keeps these.  The groups come in the order
    [remove_dups] leaves the keys. *)
Definition dissolve_sum (by_ geom_col : pystr) (df : frame) : result frame :=
  g ← col_pos geom_col df;
  k ← col_pos by_ df;
  n ← col_pos N_HOSPITALS df;
  let keys := remove_dups (filter (fun c : value => c <> NaN)
                             (map (fun r : row => cell_at k r.2) (rows df))) in
  Ok (mkDataFrame [geom_col; N_HOSPITALS]
        (map (fun key =>
           let grp := filter (fun r : row => cell_at k r.2 = key) (rows df) in
           (key, [Geo (unary_union (omap (fun r : row => geom_of (cell_at g r.2)) grp));
                  Num (Int (sum_Z (map (fun r : row => count_of (cell_at n r.2)) grp)))]))
           keys)).

(** [df.sort_values(c, ascending=False)] on a column of counts, as an
    insertion sort.  pandas' default sort leaves the order of rows with
    equal counts open; here they keep their order. *)
Fixpoint insert_desc (n : nat) (x : row) (l : list row) : list row :=
  match l with
  | [] => [x]
  | y :: l' =>
      if (count_of (cell_at n y.2) <=? count_of (cell_at n x.2))%Z then x :: y :: l'
      else y :: insert_desc n x l'
  end.

Definition sort_values_desc (c : pystr) (df : frame) : result frame :=
  n ← col_pos c df;
  Ok (mkDataFrame (columns df) (foldr (insert_desc n) [] (rows df))).

(** Lines 116-117. *)
Definition dept_summary (geom_col : pystr) (dc : frame) : result frame :=
  dissolved ← dissolve_sum DEPARTAMEN geom_col dc;
  sort_values_desc N_HOSPITALS dissolved.

(** Lines 123-125. *)
Definition top10 (dc : frame) : result frame :=
  sorted ← sort_values_desc N_HOSPITALS dc;
  table ← project [DEPARTAMEN; PROVINCIA; DISTRITO; N_HOSPITALS]
            (mkDataFrame (columns sorted) (take 10 (rows sorted)));
  st_dataframe table;;
  Ok table.

(** What the second tab computes. *)
Record Tab2 : Type := mkTab2 {
  tab_districts : frame;
  tab_zero : frame;
  tab_departments : frame;
  tab_top10 : frame
}.

(** Lines 84-125; line 120 shows the count column of the summary. *)
Definition tab2 (gdf districts : frame) : result Tab2 :=
  dc ← districts_copy gdf districts;
  zero ← zero_hosp dc;
  summary ← dept_summary (geom_col_of districts) dc;
  summary_counts ← project [N_HOSPITALS] summary;
  st_dataframe summary_counts;;
  top ← top10 dc;
  Ok (mkTab2 dc zero summary top).

(** *** Loader (lines 13-20) *)

(** [pd.read_csv(path)] and [gpd.read_file(path)]: what storage gives for
    the path; the read is recorded. *)
Definition read (path : pystr) (s : session) : result (stored float shape) * session :=
  (files s path, mkSession (files s) (reads s ++ [path]) (cache s)).

(** Every geometry of a table reprojected. *)
Definition reprojected (df : frame) : frame :=
  mkDataFrame (columns df)
    (map (fun r : row =>
       (r.1, map (fun c : value =>
                match c with
                | Geo g => Geo (to_crs_4326 g)
                | _ => c
                end) r.2)) (rows df)).

(** [.to_crs(epsg=4326)]: [ValueError] on a table without coordinate
    reference system. *)
Definition to_crs (f : stored float shape) : result frame :=
  if has_crs f then Ok (reprojected (table f)) else Raise ValueError.

(** The body of [load_data]: three reads, in order, each shapefile
    reprojected as soon as it is read. *)
Definition load_data_body (s : session) : result (frame * frame * frame) * session :=
  match read IPRESS_csv s with
  | (Raise e, s1) => (Raise e, s1)
  | (Ok hospitals, s1) =>
      match read DISTRITOS_shp s1 with
      | (Raise e, s2) => (Raise e, s2)
      | (Ok districts_file, s2) =>
          match to_crs districts_file with
          | Raise e => (Raise e, s2)
          | Ok districts =>
              match read CCPP_shp s2 with
              | (Raise e, s3) => (Raise e, s3)
              | (Ok centers_file, s3) =>
                  match to_crs centers_file with
                  | Raise e => (Raise e, s3)
                  | Ok pop_centers => (Ok (table hospitals, districts, pop_centers), s3)
                  end
              end
          end
      end
  end.

(** [@st.cache_data] on a function without arguments: a stored value is
    handed back as it is (the caller gets a copy, which for values is the
    value), otherwise the body runs and a value it returns is stored; an
    exception stores nothing. *)
Definition load_data (s : session) : result (frame * frame * frame) * session :=
  match cache s with
  | Some v => (Ok v, s)
  | None =>
      match load_data_body s with
      | (Ok v, s') => (Ok v, mkSession (files s') (reads s') (Some v))
      | (Raise e, s') => (Raise e, s')
      end
  end.

(** *** The preview of the first tab (lines 72-75) *)

(** The labels of line 74 that the enriched table has, in the order of the
    list. *)
Definition cols_to_show (name_col : pystr) (gdf : frame) : list pystr :=
  filter (fun c => c ∈ columns gdf)
    [INSTITUCION; name_col; DEPARTAMENTO; PROVINCIA; DISTRITO].

(** [len(hospitals_gdf)] and [st.dataframe(hospitals_gdf[cols_to_show].head())]. *)
Definition tab1 (name_col : pystr) (gdf : frame) : result (nat * frame) :=
  shown ← project (cols_to_show name_col gdf) gdf;
  let preview := mkDataFrame (columns shown) (take 5 (rows shown)) in
  st_dataframe preview;;
  Ok (length (rows gdf), preview).

(** *** The script, top to bottom *)

Record Dashboard : Type := mkDashboard {
  dash_name_col : pystr;
  dash_hospitals : frame;
  dash_tab2 : Tab2
}.

Definition prepare (hospitals districts pop_centers : frame) : result Dashboard :=
  g ← match index_of geometry_lower (columns districts) with
      | Some g => Ok g
      | None => Raise AttributeError
      end;
  let districts := select (fun r => cell_at g r <> NaN) districts in
  let hospitals := normalize_columns hospitals in
  let pop_centers := normalize_columns pop_centers in
  let districts := normalize_columns districts in
  named ← enrich hospitals;
  tab1 named.1 named.2;;
  t2 ← tab2 named.2 districts;
  Ok (mkDashboard named.1 named.2 t2).

Definition run_script (s : session) : result Dashboard * session :=
  match load_data s with
  | (Raise e, s') => (Raise e, s')
  | (Ok (hospitals, districts, pop_centers), s') =>
      (prepare hospitals districts pop_centers, s')
  end.

(** *** The markers of the third tab (lines 157-162) *)

(** A [folium.Marker]: its location, latitude first, and its popup text. *)
Record Marker : Type := mkMarker {
  location : number float * number float;
  popup : pystr
}.

(** One pass of the loop: [row.geometry.y] and [row.geometry.x] exist on a
    point only, [row[hospital_name_col]] needs the column.  [py_str] is
    Python's [str] on a cell. *)
Definition marker_of (py_str : value -> pystr) (name_col : pystr) (gdf : frame)
    (r : list value) : result Marker :=
  match index_of geometry_lower (columns gdf) with
  | Some g =>
      match cell_at g r with
      | Geo (Point x y) =>
          i ← col_pos name_col gdf;
          Ok (mkMarker (y, x) (py_str (cell_at i r)))
      | _ => Raise AttributeError
      end
  | None => Raise AttributeError
  end.

(** [for idx, row in hospitals_gdf.iterrows(): ...], in row order. *)
Fixpoint markers_of (py_str : value -> pystr) (name_col : pystr) (gdf : frame)
    (rs : list row) : result (list Marker) :=
  match rs with
  | [] => Ok []
  | r :: rs' =>
      m ← marker_of py_str name_col gdf r.2;
      ms ← markers_of py_str name_col gdf rs';
      Ok (m :: ms)
  end.

Definition markers (py_str : value -> pystr) (name_col : pystr) (gdf : frame) :
    result (list Marker) :=
  markers_of py_str name_col gdf (rows gdf).

(** ** Definitions used to state the properties *)

(** A label is trimmed when neither end is whitespace. *)
Definition trimmed (s : pystr) : Prop :=
  (forall c, head s = Some c -> is_space c = false)
  /\ (forall c, last s = Some c -> is_space c = false).

(** The cell of a row under a label ([NaN] when the frame has no such
    column). *)
Definition field (c : pystr) (df : frame) (r : list value) : value :=
  match index_of c (columns df) with
  | Some i => cell_at i r
  | None => NaN
  end.

(** Frames as pandas holds them: the labels are pairwise distinct and every
    row has one cell per label. *)
Definition well_formed (df : frame) : Prop :=
  NoDup (columns df)
  /\ Forall (fun r : row => length r.2 = length (columns df)) (rows df).

#[global] Instance well_formed_dec df : Decision (well_formed df).
Proof. unfold well_formed. apply _. Defined.

(** A cell coerces to a number. *)
Definition coerces (c : value) : Prop := to_numeric c <> NaN.

(** The row satisfies the chain: the status is the sentinel, both
    coordinates coerce to numbers and, when the frame has both a
    classification and an institution column, the classification is one of
    the three allowed ones and the institution is not [PRIVADO]. *)
Definition qualifies (df : frame) (r : list value) : Prop :=
  field CONDICION df r = Str EN_FUNCIONAMIENTO
  /\ coerces (field NORTE df r)
  /\ coerces (field ESTE df r)
  /\ (CLASIFICACION ∈ columns df /\ INSTITUCION ∈ columns df ->
      allowed_classification (field CLASIFICACION df r)
      /\ field INSTITUCION df r <> Str PRIVADO).

#[global] Instance qualifies_dec df r : Decision (qualifies df r).
Proof. unfold qualifies, coerces. apply _. Defined.

(** The row with its two coordinate cells coerced. *)
Definition coerce_at (i : nat) (r : list value) : list value :=
  <[i := to_numeric (cell_at i r)]> r.

Definition coerced (df : frame) (r : list value) : list value :=
  match index_of NORTE (columns df), index_of ESTE (columns df) with
  | Some iN, Some iE => coerce_at iE (coerce_at iN r)
  | _, _ => r
  end.

(** The labels the filter chain cannot do without. *)
Definition has_name_column (df : frame) : Prop :=
  exists c, c ∈ columns df /\ contains ESTABLECIMIENTO c = true.

#[global] Instance has_name_column_dec df : Decision (has_name_column df).
Proof.
  unfold has_name_column.
  destruct (decide (Exists (fun c => contains ESTABLECIMIENTO c = true) (columns df)))
    as [Hc|Hc]; [left|right].
  - by apply Exists_exists in Hc.
  - intros Hc'. by apply Hc, Exists_exists.
Defined.


(** What [assign] does to one row. *)
Definition assign_row (c : pystr) (f : list value -> value) (df : frame)
    (r : list value) : list value :=
  match index_of c (columns df) with
  | Some i => <[i := f r]> r
  | None => r ++ [f r]
  end.

(** A row on which the filter chain has nothing left to do. *)
Definition settled (df : frame) (r : list value) : Prop :=
  qualifies df r
  /\ to_numeric (field NORTE df r) = field NORTE df r
  /\ to_numeric (field ESTE df r) = field ESTE df r.

(** The number of enriched rows that carry the district name [name]. *)
Definition hospitals_in (gdf : frame) (name : value) : nat :=
  length (filter (fun r : row =>
            field DISTRITO gdf r.2 <> NaN /\ field DISTRITO gdf r.2 = name) (rows gdf)).

(** The count column of a frame, as integers. *)
Definition counts (df : frame) : list Z :=
  map (fun r : row => count_of (field N_HOSPITALS df r.2)) (rows df).

(** Two districts of different departments that share a name, and one
    hospital in a district of that name. *)
Definition homonym_hospitals : frame :=
  mkDataFrame [DISTRITO] [(Num (Int 0), [Str (utf8 "SANTA ROSA")])].

Definition homonym_districts : frame :=
  mkDataFrame [DEPARTAMEN; PROVINCIA; DISTRITO; GEOMETRY]
    [(Num (Int 0), [Str (utf8 "LIMA"); Str (utf8 "LIMA"); Str (utf8 "SANTA ROSA");
                    Geo (Point (Int (-77)) (Int (-12)))]);
     (Num (Int 1), [Str (utf8 "PUNO"); Str (utf8 "MELGAR"); Str (utf8 "SANTA ROSA");
                    Geo (Point (Int (-71)) (Int (-15)))])].

(** The department names of a district table, its total per department and
    the union of a department's shapes. *)
Definition department_keys (dc : frame) : list value :=
  remove_dups (filter (fun c : value => c <> NaN)
                 ((fun r : row => field DEPARTAMEN dc r.2) <$> rows dc)).

Definition department_total (dc : frame) (name : value) : Z :=
  sum_Z ((fun r : row => count_of (field N_HOSPITALS dc r.2))
           <$> filter (fun r : row => field DEPARTAMEN dc r.2 = name) (rows dc)).

Definition department_shape (geom_col : pystr) (dc : frame) (name : value) :
    geometry float shape :=
  unary_union (omap (fun r : row => geom_of (field geom_col dc r.2))
                 (filter (fun r : row => field DEPARTAMEN dc r.2 = name) (rows dc))).

Definition department_row (geom_col : pystr) (dc : frame) (name : value) : row :=
  (name, [Geo (department_shape geom_col dc name); Num (Int (department_total dc name))]).

(** Counts in descending order. *)
Definition descending (l : list Z) : Prop :=
  StronglySorted (fun a b => (b <= a)%Z) l.

(** The district names of a district table, row by row. *)
Definition district_names (districts : frame) : list value :=
  (fun d : row => field DISTRITO districts d.2) <$> rows districts.

(** A column of names: every cell is a string, or a string or missing. *)
Definition is_text (c : value) : Prop :=
  match c with
  | Str _ => True
  | _ => False
  end.

#[global] Instance is_text_dec c : Decision (is_text c).
Proof. destruct c; simpl; apply _. Defined.

Definition text_column (c : pystr) (df : frame) : Prop :=
  Forall (fun r : row => is_text (field c df r.2)) (rows df).

Definition text_or_missing_column (c : pystr) (df : frame) : Prop :=
  Forall (fun r : row => field c df r.2 = NaN \/ is_text (field c df r.2)) (rows df).

(** The cells of a row under the labels [cs] are those of another row of
    another frame. *)
Definition same_fields (cs : list pystr) (df df' : frame) (r r' : list value) : Prop :=
  forall c, c ∈ cs -> field c df' r' = field c df r.

(** ** Properties *)

(** [map] and stdpp's [<$>] on lists are the same function. *)
Ltac to_fmap :=
  repeat match goal with
         | |- context [map ?f ?l] => change (map f l) with (f <$> l)
         | H : context [map ?f ?l] |- _ => change (map f l) with (f <$> l) in H
         end.

(** *** Normalizer *)

Lemma lstrip_head s c : head (lstrip s) = Some c -> is_space c = false.
Proof.
  induction s as [|a s IH]; simpl; [done|].
  destruct (is_space a) eqn:Ha; [done|]. simpl. by intros [= <-].
Qed.

Lemma lstrip_fixed s :
  (forall c, head s = Some c -> is_space c = false) -> lstrip s = s.
Proof.
  destruct s as [|a s]; simpl; [done|].
  intros Hs. by rewrite (Hs a eq_refl).
Qed.

Lemma rstrip_head s c : head (rstrip s) = Some c -> head s = Some c.
Proof.
  destruct s as [|a s]; simpl; [done|].
  destruct (rstrip s); [destruct (is_space a)|]; simpl; done.
Qed.

Lemma rstrip_last s c : last (rstrip s) = Some c -> is_space c = false.
Proof.
  induction s as [|a s IH]; simpl; [done|].
  destruct (rstrip s) as [|b t] eqn:Ht.
  - destruct (is_space a) eqn:Ha; simpl; [done|]. by intros [= <-].
  - rewrite last_cons_cons. done.
Qed.

Lemma rstrip_fixed s :
  (forall c, last s = Some c -> is_space c = false) -> rstrip s = s.
Proof.
  induction s as [|a s IH]; simpl; [done|].
  intros Hs. destruct s as [|b s].
  - simpl. by rewrite (Hs a eq_refl).
  - rewrite IH; [done|]. intros c Hc. apply Hs. by rewrite last_cons_cons.
Qed.

Lemma strip_trimmed s : trimmed (strip s).
Proof.
  split; intros c Hc.
  - by apply (lstrip_head s), rstrip_head.
  - by apply (rstrip_last (lstrip s)).
Qed.

Lemma strip_fixed s : trimmed s -> strip s = s.
Proof.
  intros [Hh Hl]. unfold strip. rewrite (lstrip_fixed s Hh). by apply rstrip_fixed.
Qed.

Lemma upper_app s t : upper (s ++ t) = upper s ++ upper t.
Proof. apply flat_map_app. Qed.

Lemma upper_fixed s : Forall (fun d => to_upper d = [d]) s -> upper s = s.
Proof.
  induction 1 as [|d s Hd _ IH]; [done|].
  unfold upper in *. simpl. by rewrite Hd, IH.
Qed.

Lemma replace_space_twice s : replace_space (replace_space s) = replace_space s.
Proof.
  unfold replace_space. rewrite map_map. apply map_ext. intros c.
  destruct (c =? 32) eqn:Hc; [done|]. by rewrite Hc.
Qed.

Section CaseTable.
(** What the proofs use of Python's tables: the space is whitespace; the
    upper-case form of a code point that is not whitespace is not empty and
    holds no whitespace; upper-case forms are made of code points that
    upper-casing leaves alone; so is the underscore. *)
Hypothesis space_is_space : is_space 32 = true.
Hypothesis upper_of_nonspace : forall c,
  is_space c = false ->
  to_upper c <> [] /\ Forall (fun d => is_space d = false) (to_upper c).
Hypothesis upper_stable : forall c d, d ∈ to_upper c -> to_upper d = [d].
Hypothesis upper_underscore : to_upper 95 = [95].

Lemma upper_trimmed s : trimmed s -> trimmed (upper s).
Proof.
  intros [Hh Hl]. split; intros d Hd.
  - destruct s as [|c s]; [done|].
    destruct (upper_of_nonspace c (Hh c eq_refl)) as [Hne Hall].
    unfold upper in Hd. simpl in Hd.
    destruct (to_upper c) as [|e u]; [done|]. simpl in Hd. injection Hd as <-.
    by apply Forall_cons in Hall as [? _].
  - destruct (last s) as [c|] eqn:Hc.
    + apply last_Some in Hc as [s0 ->].
      destruct (upper_of_nonspace c) as [Hne Hall].
      { by apply Hl. }
      rewrite upper_app in Hd. unfold upper at 2 in Hd. simpl in Hd.
      rewrite app_nil_r in Hd.
      rewrite last_app in Hd.
      destruct (last (to_upper c)) as [e|] eqn:He.
      * injection Hd as <-. apply last_Some_elem_of in He.
        by apply (proj1 (Forall_forall _ _) Hall).
      * by apply last_None in He.
    + apply last_None in Hc as ->. done.
Qed.

Lemma replace_space_trimmed s : trimmed s -> trimmed (replace_space s).
Proof.
  assert (Hkeep : forall c, is_space c = false -> (if c =? 32 then 95 else c) = c).
  { intros c Hc. destruct (N.eqb_spec c 32) as [->|]; [congruence|done]. }
  intros [Hh Hl]. unfold replace_space. to_fmap. split; intros d Hd.
  - destruct s as [|c s]; [done|]. simpl in Hd. injection Hd as <-.
    rewrite Hkeep; by apply Hh.
  - rewrite fmap_last in Hd. destruct (last s) as [c|] eqn:Hc; [|done].
    simpl in Hd. injection Hd as <-. rewrite Hkeep; by apply Hl.
Qed.

Lemma upper_all_stable s : Forall (fun d => to_upper d = [d]) (upper s).
Proof.
  apply Forall_forall. intros d Hd. apply list_elem_of_In in Hd.
  apply in_flat_map in Hd as (c & _ & Hd).
  apply (upper_stable c). by apply list_elem_of_In.
Qed.

Lemma replace_space_stable s :
  Forall (fun d => to_upper d = [d]) s ->
  Forall (fun d => to_upper d = [d]) (replace_space s).
Proof.
  unfold replace_space. to_fmap. intros Hs. apply Forall_fmap.
  eapply Forall_impl; [exact Hs|]. intros c Hc. simpl.
  by destruct (c =? 32).
Qed.

Lemma normalize_label_idempotent s :
  normalize_label (normalize_label s) = normalize_label s.
Proof.
  unfold normalize_label at 1.
  rewrite strip_fixed.
  - rewrite upper_fixed.
    + apply replace_space_twice.
    + apply replace_space_stable, upper_all_stable.
  - apply replace_space_trimmed, upper_trimmed, strip_trimmed.
Qed.

(** C5. Normalising the column labels (trim, upper-case, spaces to
    underscores) is idempotent on any list of labels and on any frame, and
    it leaves the rows of the frame as they are. *)
Theorem normalize_columns_idempotent :
  (forall labels : list pystr,
     map normalize_label (map normalize_label labels) = map normalize_label labels)
  /\ (forall df : frame,
        normalize_columns (normalize_columns df) = normalize_columns df
        /\ rows (normalize_columns df) = rows df
        /\ length (columns (normalize_columns df)) = length (columns df)).
Proof.
  assert (Hl : forall labels : list pystr,
    map normalize_label (map normalize_label labels) = map normalize_label labels).
  { intros labels. rewrite map_map. apply map_ext. intros s.
    apply normalize_label_idempotent. }
  split; [exact Hl|]. intros df. unfold normalize_columns. simpl.
  rewrite Hl. by rewrite length_map.
Qed.

End CaseTable.

(** *** Frames *)

Lemma index_of_None c cols : index_of c cols = None <-> c ∉ cols.
Proof.
  induction cols as [|l cols IH]; simpl.
  - split; [intros _; apply not_elem_of_nil|done].
  - rewrite not_elem_of_cons. case_decide as Hl.
    + split; [done|]. intros [Hne _]. by destruct Hne.
    + destruct (index_of c cols); simpl.
      * split; [done|]. intros [_ Hn]. by apply IH in Hn.
      * split; [|done]. intros _. split; [done|]. by apply IH.
Qed.

Lemma index_of_Some c cols i :
  index_of c cols = Some i -> cols !! i = Some c.
Proof.
  revert i. induction cols as [|l cols IH]; simpl; intros i; [done|].
  case_decide as Hl.
  - by intros [= <-]; subst.
  - destruct (index_of c cols) as [j|]; simpl; [|done].
    intros [= <-]. simpl. by apply IH.
Qed.

Lemma index_of_elem c cols : c ∈ cols -> exists i, index_of c cols = Some i.
Proof.
  intros Hc. destruct (index_of c cols) as [i|] eqn:Hi; [by exists i|].
  by apply index_of_None in Hi.
Qed.

Lemma index_of_lt c cols i : index_of c cols = Some i -> (i < length cols)%nat.
Proof. intros Hi. apply index_of_Some in Hi. by apply lookup_lt_Some in Hi. Qed.

Lemma index_of_inj c c' cols i :
  index_of c cols = Some i -> index_of c' cols = Some i -> c = c'.
Proof. intros Hc%index_of_Some Hc'%index_of_Some. congruence. Qed.

Lemma index_of_app_l c cols more i :
  index_of c cols = Some i -> index_of c (cols ++ more) = Some i.
Proof.
  revert i. induction cols as [|l cols IH]; simpl; intros i; [done|].
  case_decide; [done|].
  destruct (index_of c cols) as [j|]; simpl; [|done].
  intros [= <-]. by rewrite (IH j eq_refl).
Qed.

Lemma index_of_app_new c cols :
  c ∉ cols -> index_of c (cols ++ [c]) = Some (length cols).
Proof.
  induction cols as [|l cols IH]; simpl; intros Hc.
  - by rewrite decide_True.
  - apply not_elem_of_cons in Hc as [Hne Hc].
    rewrite decide_False by done. by rewrite IH.
Qed.

Lemma cell_at_insert_ne i j v (r : list value) :
  i <> j -> cell_at j (<[i := v]> r) = cell_at j r.
Proof. intros Hij. unfold cell_at. by rewrite list_lookup_insert_ne. Qed.

Lemma cell_at_insert_eq i v (r : list value) :
  (i < length r)%nat -> cell_at i (<[i := v]> r) = v.
Proof. intros Hi. unfold cell_at. by rewrite list_lookup_insert_eq. Qed.

Lemma cell_at_ge i (r : list value) : (length r <= i)%nat -> cell_at i r = NaN.
Proof. intros Hi. unfold cell_at. by rewrite lookup_ge_None_2. Qed.

Lemma cell_at_app_l i (r more : list value) :
  (i < length r)%nat -> cell_at i (r ++ more) = cell_at i r.
Proof. intros Hi. unfold cell_at. by rewrite lookup_app_l. Qed.

Lemma cell_at_app_new (r : list value) v : cell_at (length r) (r ++ [v]) = v.
Proof. unfold cell_at. by rewrite list_lookup_middle. Qed.

Lemma cell_at_coerce_at_eq i r : cell_at i (coerce_at i r) = to_numeric (cell_at i r).
Proof.
  unfold coerce_at. destruct (decide (i < length r)%nat) as [Hi|Hi].
  - by apply cell_at_insert_eq.
  - rewrite list_insert_ge by lia. rewrite cell_at_ge by lia. done.
Qed.

Lemma cell_at_coerce_at_ne i j r : i <> j -> cell_at j (coerce_at i r) = cell_at j r.
Proof. apply cell_at_insert_ne. Qed.

Lemma length_coerce_at i r : length (coerce_at i r) = length r.
Proof. apply length_insert. Qed.

Lemma to_numeric_twice c : to_numeric (to_numeric c) = to_numeric c.
Proof.
  destruct c as [|s|x|g]; simpl; try done. by destruct (str_to_number s).
Qed.

Lemma coerce_at_fixed i r : to_numeric (cell_at i r) = cell_at i r -> coerce_at i r = r.
Proof.
  intros Hn. unfold coerce_at. rewrite Hn.
  destruct (decide (i < length r)%nat) as [Hi|Hi].
  - apply list_insert_id. unfold cell_at.
    destruct (lookup_lt_is_Some_2 r i Hi) as [v Hv]. by rewrite Hv.
  - apply list_insert_ge. lia.
Qed.

(** *** Filter/Enrich *)

Lemma filter_fmap {A B} (f : A -> B) (P : B -> Prop) `{!forall x, Decision (P x)}
    (l : list A) :
  filter P (f <$> l) = f <$> filter (fun x => P (f x)) l.
Proof.
  induction l as [|x l IH]; [done|].
  rewrite fmap_cons, !filter_cons. case_decide; by rewrite IH.
Qed.

Lemma filter_all {A} (P : A -> Prop) `{!forall x, Decision (P x)} (l : list A) :
  Forall P l -> filter P l = l.
Proof.
  induction 1 as [|x l Hx _ IH]; [done|].
  rewrite filter_cons, decide_True by done. by rewrite IH.
Qed.

Lemma filter_none {A} (P : A -> Prop) `{!forall x, Decision (P x)} (l : list A) :
  (forall x, x ∈ l -> ~ P x) -> filter P l = [].
Proof.
  induction l as [|x l IH]; intros Hl; [done|].
  rewrite filter_cons, decide_False by (apply Hl; left).
  apply IH. intros y Hy. apply Hl. by right.
Qed.

Lemma col_pos_Ok c (df : frame) i :
  index_of c (columns df) = Some i -> col_pos c df = Ok i.
Proof. intros Hi. unfold col_pos. by rewrite Hi. Qed.

Lemma col_pos_Raise c (df : frame) :
  c ∉ columns df -> col_pos c df = Raise (KeyError [c]).
Proof. intros Hc%index_of_None. unfold col_pos. by rewrite Hc. Qed.

Lemma NoDup_not_repeated c (cols : list pystr) : NoDup cols -> ~ repeated c cols.
Proof.
  unfold repeated. induction 1 as [|l cols Hl _ IH]; simpl; [lia|].
  rewrite filter_cons. case_decide as Heq; [|done].
  subst l. rewrite filter_none; [simpl; lia|]. by intros l Hin ->.
Qed.

Lemma repeated_elem c (cols : list pystr) : repeated c cols -> c ∈ cols.
Proof.
  unfold repeated. intros Hrep.
  destruct (decide (c ∈ cols)) as [|Hn]; [done|].
  rewrite filter_none in Hrep; [simpl in Hrep; lia|]. by intros l Hin ->.
Qed.

Lemma repeated_app_new c g (cols : list pystr) :
  c <> g -> repeated c (cols ++ [g]) <-> repeated c cols.
Proof.
  intros Hne. unfold repeated. rewrite filter_app, length_app.
  rewrite (filter_none _ [g]); [simpl; lia|].
  intros l ->%list_elem_of_singleton. congruence.
Qed.

Lemma series_pos_Ok c (df : frame) i :
  index_of c (columns df) = Some i -> ~ repeated c (columns df) ->
  series_pos c df = Ok i.
Proof.
  intros Hi Hrep. unfold series_pos. rewrite (col_pos_Ok _ _ _ Hi). simpl.
  by rewrite decide_False.
Qed.

Lemma series_pos_Raise c (df : frame) :
  c ∉ columns df -> series_pos c df = Raise (KeyError [c]).
Proof. intros Hc. unfold series_pos. by rewrite (col_pos_Raise _ _ Hc). Qed.

Lemma series_pos_repeated c (df : frame) :
  repeated c (columns df) -> series_pos c df = Raise TypeError.
Proof.
  intros Hrep. destruct (index_of_elem _ _ (repeated_elem _ _ Hrep)) as [i Hi].
  unfold series_pos. rewrite (col_pos_Ok _ _ _ Hi). simpl. by rewrite decide_True.
Qed.

Lemma series_pos_inv c (df : frame) i :
  series_pos c df = Ok i ->
  index_of c (columns df) = Some i /\ ~ repeated c (columns df).
Proof.
  unfold series_pos, col_pos. destruct (index_of c (columns df)) as [j|]; simpl; [|done].
  case_decide; [done|]. by intros [= ->].
Qed.

Lemma assign_existing c f (df : frame) i :
  index_of c (columns df) = Some i ->
  assign c f df =
  mkDataFrame (columns df) (map (fun r : row => (r.1, <[i := f r.2]> r.2)) (rows df)).
Proof. intros Hi. unfold assign. by rewrite Hi. Qed.

Lemma assign_new c f (df : frame) :
  c ∉ columns df ->
  assign c f df =
  mkDataFrame (columns df ++ [c]) (map (fun r : row => (r.1, r.2 ++ [f r.2])) (rows df)).
Proof. intros Hi%index_of_None. unfold assign. by rewrite Hi. Qed.

(** The filter chain, row by row: it keeps the rows that satisfy the
    chain, in order, with the two coordinate cells coerced. *)
Lemma hospitals_operational_rows (df : frame) iC iN iE :
  index_of CONDICION (columns df) = Some iC ->
  index_of NORTE (columns df) = Some iN ->
  index_of ESTE (columns df) = Some iE ->
  ~ repeated NORTE (columns df) ->
  ~ repeated ESTE (columns df) ->
  hospitals_operational df =
  Ok (mkDataFrame (columns df)
        ((fun r : row => (r.1, coerced df r.2))
           <$> filter (fun r : row => qualifies df r.2) (rows df))).
Proof.
  intros HC HN HE HN1 HE1.
  assert (HCN : iC <> iN).
  { intros ->. by pose proof (index_of_inj _ _ _ _ HC HN). }
  assert (HCE : iC <> iE).
  { intros ->. by pose proof (index_of_inj _ _ _ _ HC HE). }
  assert (HNE : iN <> iE).
  { intros ->. by pose proof (index_of_inj _ _ _ _ HN HE). }
  unfold hospitals_operational.
  rewrite (col_pos_Ok _ _ _ HC). simpl.
  rewrite (series_pos_Ok NORTE _ iN) by done. simpl.
  rewrite (assign_existing NORTE _ _ iN) by exact HN.
  rewrite (series_pos_Ok ESTE _ iE) by done. simpl.
  rewrite (assign_existing ESTE _ _ iE) by exact HE. simpl.
  set (g := fun r : row => (r.1, coerce_at iE (coerce_at iN r.2))).
  assert (Hg : forall l : list row,
    map (fun r : row => (r.1, <[iE := to_numeric (cell_at iE r.2)]> r.2))
      (map (fun r : row => (r.1, <[iN := to_numeric (cell_at iN r.2)]> r.2)) l)
    = g <$> l).
  { intros l. rewrite map_map. by to_fmap. }
  assert (Hco : forall r : row, (r.1, coerced df r.2) = g r).
  { intros r. unfold coerced, g. by rewrite HN, HE. }
  assert (Hcell : forall r : row,
    cell_at iC (g r).2 = cell_at iC r.2
    /\ cell_at iN (g r).2 = to_numeric (cell_at iN r.2)
    /\ cell_at iE (g r).2 = to_numeric (cell_at iE r.2)).
  { intros r. unfold g. simpl. split_and!.
    - by rewrite !cell_at_coerce_at_ne.
    - rewrite cell_at_coerce_at_ne by done. apply cell_at_coerce_at_eq.
    - rewrite cell_at_coerce_at_eq. by rewrite cell_at_coerce_at_ne. }
  assert (Hfield : forall r, field CONDICION df r = cell_at iC r
    /\ field NORTE df r = cell_at iN r /\ field ESTE df r = cell_at iE r).
  { intros r. unfold field. by rewrite HC, HN, HE. }
  case_decide as Hopt.
  - destruct Hopt as [HK HI].
    destruct (index_of_elem _ _ HK) as [iK HiK].
    destruct (index_of_elem _ _ HI) as [iI HiI].
    assert (HKN : iN <> iK).
    { intros ->. by pose proof (index_of_inj _ _ _ _ HN HiK). }
    assert (HKE : iE <> iK).
    { intros ->. by pose proof (index_of_inj _ _ _ _ HE HiK). }
    assert (HIN : iN <> iI).
    { intros ->. by pose proof (index_of_inj _ _ _ _ HN HiI). }
    assert (HIE : iE <> iI).
    { intros ->. by pose proof (index_of_inj _ _ _ _ HE HiI). }
    rewrite (col_pos_Ok CLASIFICACION _ iK) by exact HiK. simpl.
    rewrite (col_pos_Ok INSTITUCION _ iI) by exact HiI. simpl.
    unfold select. simpl. do 2 f_equal.
    rewrite Hg. rewrite !filter_fmap, !list_filter_filter.
    rewrite (list_fmap_ext (fun r : row => (r.1, coerced df r.2)) g)
      by (intros ? r _; apply Hco).
    f_equal. apply list_filter_iff. intros r. simpl.
    destruct (Hcell r) as (HcC & HcN & HcE). destruct (Hfield r.2) as (HfC & HfN & HfE).
    unfold qualifies, coerces, field. rewrite HC, HN, HE, HiK, HiI.
    unfold g. simpl. rewrite !(cell_at_coerce_at_ne iE), !(cell_at_coerce_at_ne iN) by done.
    unfold g in HcE. simpl in HcE. rewrite cell_at_coerce_at_eq, HcE.
    tauto.
  - simpl. unfold select. simpl. do 2 f_equal.
    rewrite Hg. rewrite !filter_fmap, !list_filter_filter.
    rewrite (list_fmap_ext (fun r : row => (r.1, coerced df r.2)) g)
      by (intros ? r _; apply Hco).
    f_equal. apply list_filter_iff. intros r. simpl.
    destruct (Hcell r) as (HcC & HcN & HcE).
    unfold qualifies, coerces, field. rewrite HC, HN, HE.
    unfold g in HcN, HcE. simpl in HcN, HcE. rewrite HcN, HcE.
    tauto.
Qed.

Lemma hospitals_operational_raises (df : frame) :
  (CONDICION ∉ columns df -> hospitals_operational df = Raise (KeyError [CONDICION]))
  /\ (CONDICION ∈ columns df -> NORTE ∉ columns df ->
      hospitals_operational df = Raise (KeyError [NORTE]))
  /\ (CONDICION ∈ columns df -> NORTE ∈ columns df -> ~ repeated NORTE (columns df) ->
      ESTE ∉ columns df -> hospitals_operational df = Raise (KeyError [ESTE])).
Proof.
  unfold hospitals_operational. split_and!.
  - intros HC. by rewrite (col_pos_Raise _ _ HC).
  - intros [iC HC]%index_of_elem HN.
    rewrite (col_pos_Ok _ _ _ HC). simpl.
    by rewrite (series_pos_Raise NORTE) by exact HN.
  - intros [iC HC]%index_of_elem [iN HN]%index_of_elem HN1 HE.
    rewrite (col_pos_Ok _ _ _ HC). simpl.
    rewrite (series_pos_Ok NORTE _ iN) by done. simpl.
    rewrite (assign_existing NORTE _ _ iN) by exact HN.
    by rewrite (series_pos_Raise ESTE) by exact HE.
Qed.

(** A coordinate label that several columns carry stops lines 40-41. *)
Lemma hospitals_operational_repeated (df : frame) :
  (CONDICION ∈ columns df -> repeated NORTE (columns df) ->
   hospitals_operational df = Raise TypeError)
  /\ (CONDICION ∈ columns df -> NORTE ∈ columns df -> ~ repeated NORTE (columns df) ->
      repeated ESTE (columns df) -> hospitals_operational df = Raise TypeError).
Proof.
  unfold hospitals_operational. split.
  - intros [iC HC]%index_of_elem HN.
    rewrite (col_pos_Ok _ _ _ HC). simpl.
    by rewrite (series_pos_repeated NORTE) by exact HN.
  - intros [iC HC]%index_of_elem [iN HN]%index_of_elem HN1 HE.
    rewrite (col_pos_Ok _ _ _ HC). simpl.
    rewrite (series_pos_Ok NORTE _ iN) by done. simpl.
    rewrite (assign_existing NORTE _ _ iN) by exact HN.
    by rewrite (series_pos_repeated ESTE) by exact HE.
Qed.

Lemma hospitals_operational_Ok_once (df out : frame) :
  hospitals_operational df = Ok out ->
  ~ repeated NORTE (columns df) /\ ~ repeated ESTE (columns df).
Proof.
  intros Hout. destruct (hospitals_operational_raises df) as (H1 & H2 & _).
  destruct (hospitals_operational_repeated df) as (R1 & R2).
  destruct (decide (CONDICION ∈ columns df)) as [HC|HC]; [|by rewrite H1 in Hout].
  destruct (decide (NORTE ∈ columns df)) as [HN|HN]; [|by rewrite H2 in Hout].
  destruct (decide (repeated NORTE (columns df))) as [HN1|HN1];
    [by rewrite R1 in Hout|].
  destruct (decide (repeated ESTE (columns df))) as [HE1|HE1];
    [by rewrite R2 in Hout|].
  done.
Qed.

Lemma hospitals_operational_Ok_inv (df out : frame) :
  hospitals_operational df = Ok out ->
  exists iC iN iE,
    index_of CONDICION (columns df) = Some iC
    /\ index_of NORTE (columns df) = Some iN
    /\ index_of ESTE (columns df) = Some iE.
Proof.
  intros Hout. destruct (hospitals_operational_Ok_once _ _ Hout) as [HN1 HE1].
  destruct (hospitals_operational_raises df) as (H1 & H2 & H3).
  destruct (decide (CONDICION ∈ columns df)) as [HC|HC]; [|by rewrite H1 in Hout].
  destruct (decide (NORTE ∈ columns df)) as [HN|HN]; [|by rewrite H2 in Hout].
  destruct (decide (ESTE ∈ columns df)) as [HE|HE]; [|by rewrite H3 in Hout].
  destruct (index_of_elem _ _ HC) as [iC ?], (index_of_elem _ _ HN) as [iN ?],
    (index_of_elem _ _ HE) as [iE ?]. by exists iC, iN, iE.
Qed.

Lemma hospitals_operational_Ok (df out : frame) :
  hospitals_operational df = Ok out ->
  out = mkDataFrame (columns df)
          ((fun r : row => (r.1, coerced df r.2))
             <$> filter (fun r : row => qualifies df r.2) (rows df)).
Proof.
  intros Hout. destruct (hospitals_operational_Ok_inv _ _ Hout) as (iC & iN & iE & HC & HN & HE).
  destruct (hospitals_operational_Ok_once _ _ Hout) as [HN1 HE1].
  rewrite (hospitals_operational_rows df iC iN iE HC HN HE HN1 HE1) in Hout. congruence.
Qed.

Lemma rows_assign_index c f (df : frame) :
  (rows (assign c f df)).*1 = (rows df).*1.
Proof.
  unfold assign. destruct (index_of c (columns df)); simpl; to_fmap;
    rewrite <- list_fmap_compose; by apply list_fmap_ext.
Qed.

Lemma hospitals_gdf_Ok_inv (out gdf : frame) :
  hospitals_gdf out = Ok gdf ->
  exists iE iN,
    index_of ESTE (columns out) = Some iE /\ index_of NORTE (columns out) = Some iN
    /\ gdf = assign geometry_lower
               (fun r => point_from_xy (cell_at iE r) (cell_at iN r)) out.
Proof.
  unfold hospitals_gdf, col_pos.
  destruct (index_of ESTE (columns out)) as [iE|]; simpl; [|done].
  destruct (index_of NORTE (columns out)) as [iN|]; simpl; [|done].
  intros [= <-]. by exists iE, iN.
Qed.

(** C1. A row of the hospital table is in the enriched dataset exactly
    when it satisfies the predicate chain: status equal to the sentinel,
    both coordinates coercible to numbers, and, only when the table has
    both a classification and an institution column, an allowed
    classification and an institution other than PRIVADO.  The survivors
    keep their index labels and their order, and their coordinate cells are
    the coerced ones. *)
Theorem enriched_iff_predicate_chain (df operational gdf : frame) :
  well_formed df ->
  hospitals_operational df = Ok operational ->
  hospitals_gdf operational = Ok gdf ->
  rows operational
    = (fun r : row => (r.1, coerced df r.2))
        <$> filter (fun r : row => qualifies df r.2) (rows df)
  /\ (rows gdf).*1 = (rows operational).*1
  /\ (forall i, i ∈ (rows gdf).*1 <-> exists r, (i, r) ∈ rows df /\ qualifies df r)
  /\ (forall r, ~ (CLASIFICACION ∈ columns df /\ INSTITUCION ∈ columns df) ->
        qualifies df r <->
        field CONDICION df r = Str EN_FUNCIONAMIENTO
        /\ coerces (field NORTE df r) /\ coerces (field ESTE df r)).
Proof.
  intros _ Hop Hgdf.
  apply hospitals_operational_Ok in Hop as ->.
  apply hospitals_gdf_Ok_inv in Hgdf as (iE & iN & _ & _ & ->).
  simpl. split_and!.
  - done.
  - apply rows_assign_index.
  - intros i. rewrite rows_assign_index. simpl.
    rewrite <- list_fmap_compose. rewrite list_elem_of_fmap. split.
    + intros ([j r] & -> & [Hq Hr]%list_elem_of_filter). by exists r.
    + intros (r & Hr & Hq). exists (i, r). split; [done|].
      by apply list_elem_of_filter.
  - intros r Hopt. unfold qualifies. tauto.
Qed.

Lemma rows_assign c f (df : frame) :
  rows (assign c f df) = (fun r : row => (r.1, assign_row c f df r.2)) <$> rows df.
Proof. unfold assign, assign_row. by destruct (index_of c (columns df)). Qed.

Lemma elem_columns_assign c c' f (df : frame) :
  c <> c' -> c ∈ columns (assign c' f df) <-> c ∈ columns df.
Proof.
  intros Hne. unfold assign. destruct (index_of c' (columns df)); simpl; [done|].
  rewrite elem_of_app, list_elem_of_singleton. tauto.
Qed.

Lemma repeated_columns_assign c c' f (df : frame) :
  c <> c' -> repeated c (columns (assign c' f df)) <-> repeated c (columns df).
Proof.
  intros Hne. unfold assign. destruct (index_of c' (columns df)); simpl; [done|].
  by apply repeated_app_new.
Qed.

Lemma field_assign_row_ne c c' f (df : frame) r :
  c <> c' -> length r = length (columns df) ->
  field c (assign c' f df) (assign_row c' f df r) = field c df r.
Proof.
  intros Hne Hlen. unfold field, assign, assign_row.
  destruct (index_of c' (columns df)) as [j|] eqn:Hj; simpl.
  - destruct (index_of c (columns df)) as [i|] eqn:Hi; [|done].
    apply cell_at_insert_ne. intros ->. by pose proof (index_of_inj _ _ _ _ Hi Hj).
  - destruct (index_of c (columns df)) as [i|] eqn:Hi.
    + rewrite (index_of_app_l _ _ _ _ Hi). apply cell_at_app_l.
      rewrite Hlen. by eapply index_of_lt.
    + destruct (index_of c (columns df ++ [c'])) as [i|] eqn:Hi'; [|done].
      apply index_of_Some, list_elem_of_lookup_2 in Hi'.
      apply elem_of_app in Hi' as [Hin|Hin%list_elem_of_singleton]; [|done].
      by apply index_of_None in Hi.
Qed.

Lemma field_assign_row_eq c f (df : frame) r :
  length r = length (columns df) ->
  field c (assign c f df) (assign_row c f df r) = f r.
Proof.
  intros Hlen. unfold field, assign, assign_row.
  destruct (index_of c (columns df)) as [j|] eqn:Hj; simpl.
  - rewrite Hj. apply cell_at_insert_eq. rewrite Hlen. by eapply index_of_lt.
  - apply index_of_None in Hj. rewrite (index_of_app_new _ _ Hj).
    rewrite <- Hlen. apply cell_at_app_new.
Qed.

Lemma coerced_cells (df : frame) iN iE r :
  index_of NORTE (columns df) = Some iN ->
  index_of ESTE (columns df) = Some iE ->
  coerced df r = coerce_at iE (coerce_at iN r)
  /\ cell_at iN (coerced df r) = to_numeric (cell_at iN r)
  /\ cell_at iE (coerced df r) = to_numeric (cell_at iE r)
  /\ (forall j, j <> iN -> j <> iE -> cell_at j (coerced df r) = cell_at j r).
Proof.
  intros HN HE.
  assert (HNE : iN <> iE).
  { intros ->. by pose proof (index_of_inj _ _ _ _ HN HE). }
  unfold coerced. rewrite HN, HE. split_and!.
  - done.
  - rewrite cell_at_coerce_at_ne by done. apply cell_at_coerce_at_eq.
  - rewrite cell_at_coerce_at_eq. by rewrite cell_at_coerce_at_ne.
  - intros j HjN HjE. by rewrite !cell_at_coerce_at_ne.
Qed.

Lemma length_coerced (df : frame) r : length (coerced df r) = length r.
Proof.
  unfold coerced.
  destruct (index_of NORTE (columns df)); [|done].
  destruct (index_of ESTE (columns df)); [|done].
  by rewrite !length_coerce_at.
Qed.

Lemma settled_coerced (df : frame) r :
  qualifies df r -> settled df (coerced df r).
Proof.
  intros (HqC & HqN & HqE & Hopt).
  unfold settled, qualifies, coerces, field in *.
  destruct (index_of CONDICION (columns df)) as [iC|] eqn:HC; [|done].
  destruct (index_of NORTE (columns df)) as [iN|] eqn:HN; [|done].
  destruct (index_of ESTE (columns df)) as [iE|] eqn:HE; [|done].
  destruct (coerced_cells df iN iE r HN HE) as (_ & HcN & HcE & Hother).
  assert (HCN : iC <> iN).
  { intros ->. by pose proof (index_of_inj _ _ _ _ HC HN). }
  assert (HCE : iC <> iE).
  { intros ->. by pose proof (index_of_inj _ _ _ _ HC HE). }
  rewrite HcN, HcE, !to_numeric_twice, (Hother iC) by done.
  split_and!; try done.
  intros Hboth. destruct (Hopt Hboth) as [HK HI]. destruct Hboth as [HinK HinI].
  destruct (index_of_elem _ _ HinK) as [iK HiK], (index_of_elem _ _ HinI) as [iI HiI].
  rewrite HiK in HK |- *. rewrite HiI in HI |- *.
  rewrite !Hother; first done.
  - intros ->. by pose proof (index_of_inj _ _ _ _ HiI HN).
  - intros ->. by pose proof (index_of_inj _ _ _ _ HiI HE).
  - intros ->. by pose proof (index_of_inj _ _ _ _ HiK HN).
  - intros ->. by pose proof (index_of_inj _ _ _ _ HiK HE).
Qed.

Lemma coerced_settled (df : frame) r : settled df r -> coerced df r = r.
Proof.
  intros (_ & HN & HE). unfold coerced, field in *.
  destruct (index_of NORTE (columns df)) as [iN|]; [|done].
  destruct (index_of ESTE (columns df)) as [iE|]; [|done].
  rewrite (coerce_at_fixed iN r HN). by apply coerce_at_fixed.
Qed.

Lemma hospitals_operational_settled (df : frame) :
  CONDICION ∈ columns df -> NORTE ∈ columns df -> ESTE ∈ columns df ->
  ~ repeated NORTE (columns df) -> ~ repeated ESTE (columns df) ->
  Forall (fun r : row => settled df r.2) (rows df) ->
  hospitals_operational df = Ok df.
Proof.
  intros [iC HC]%index_of_elem [iN HN]%index_of_elem [iE HE]%index_of_elem HN1 HE1 Hall.
  rewrite (hospitals_operational_rows df iC iN iE HC HN HE HN1 HE1).
  rewrite filter_all.
  - rewrite (list_fmap_ext _ id (rows df)).
    + rewrite list_fmap_id. by destruct df.
    + intros i [j r] Hr. simpl. f_equal. apply coerced_settled.
      apply list_elem_of_lookup_2 in Hr.
      by apply (proj1 (Forall_forall _ _) Hall (j, r)).
  - eapply Forall_impl; [exact Hall|]. by intros r [Hq _].
Qed.

(** Being settled depends on the five columns the chain reads only. *)
Lemma settled_transfer (df df' : frame) r r' :
  (forall c, c ∈ [CONDICION; NORTE; ESTE; CLASIFICACION; INSTITUCION] ->
     (c ∈ columns df' <-> c ∈ columns df) /\ field c df' r' = field c df r) ->
  settled df r -> settled df' r'.
Proof.
  intros Hsame. unfold settled, qualifies.
  destruct (Hsame CONDICION) as [_ ->]; [by_computation|].
  destruct (Hsame NORTE) as [_ ->]; [by_computation|].
  destruct (Hsame ESTE) as [_ ->]; [by_computation|].
  destruct (Hsame CLASIFICACION) as [-> ->]; [by_computation|].
  destruct (Hsame INSTITUCION) as [-> ->]; [by_computation|].
  done.
Qed.

Lemma operational_rows_settled (df : frame) :
  Forall (fun r : row => settled df r.2)
    ((fun r : row => (r.1, coerced df r.2))
       <$> filter (fun r : row => qualifies df r.2) (rows df)).
Proof.
  apply Forall_fmap, Forall_forall. intros r [Hq _]%list_elem_of_filter.
  simpl. by apply settled_coerced.
Qed.

Lemma operational_rows_length (df : frame) :
  well_formed df ->
  Forall (fun r : row => length r.2 = length (columns df))
    ((fun r : row => (r.1, coerced df r.2))
       <$> filter (fun r : row => qualifies df r.2) (rows df)).
Proof.
  intros [_ Hrect]. apply Forall_fmap, Forall_forall.
  intros r [_ Hr]%list_elem_of_filter. simpl. rewrite length_coerced.
  by apply (proj1 (Forall_forall _ _) Hrect).
Qed.

Lemma chain_labels_not_geometry c :
  c ∈ [CONDICION; NORTE; ESTE; CLASIFICACION; INSTITUCION] -> c <> geometry_lower.
Proof.
  rewrite !elem_of_cons, elem_of_nil.
  intros [->|[->|[->|[->|[->|[]]]]]]; done.
Qed.

Lemma assign_settled c f (df : frame) :
  c ∉ [CONDICION; NORTE; ESTE; CLASIFICACION; INSTITUCION] ->
  Forall (fun r : row => length r.2 = length (columns df)) (rows df) ->
  Forall (fun r : row => settled df r.2) (rows df) ->
  Forall (fun r : row => settled (assign c f df) r.2) (rows (assign c f df)).
Proof.
  intros Hc Hrect Hall. rewrite rows_assign. apply Forall_fmap, Forall_forall.
  intros r Hr. simpl.
  pose proof (proj1 (Forall_forall _ _) Hrect r Hr) as Hlen.
  pose proof (proj1 (Forall_forall _ _) Hall r Hr) as Hset.
  simpl in Hlen, Hset.
  eapply settled_transfer; [|exact Hset].
  intros c' Hc'. assert (c' <> c) by (intros ->; done).
  split; [by apply elem_columns_assign|by apply field_assign_row_ne].
Qed.

(** Writing a column a second time, with values that agree with the ones
    it holds, changes nothing. *)
Lemma assign_again c f f0 (df : frame) :
  Forall (fun r : row => length r.2 = length (columns df)) (rows df) ->
  (forall r : row, r ∈ rows df -> f (assign_row c f0 df r.2) = f0 r.2) ->
  assign c f (assign c f0 df) = assign c f0 df.
Proof.
  intros Hrect Hf.
  assert (exists j, index_of c (columns (assign c f0 df)) = Some j
            /\ (j < length (columns (assign c f0 df)))%nat) as (j & Hj & Hlt).
  { unfold assign. destruct (index_of c (columns df)) as [j|] eqn:Hj; simpl.
    - exists j. split; [done|]. by eapply index_of_lt.
    - apply index_of_None in Hj. exists (length (columns df)).
      split; [by apply index_of_app_new|]. rewrite length_app. simpl. lia. }
  rewrite (assign_existing c f (assign c f0 df) j Hj).
  destruct (assign c f0 df) as [cols rs] eqn:Hassign. simpl in *. f_equal.
  assert (Hrs : rs = rows (assign c f0 df)) by (rewrite Hassign; done).
  rewrite Hrs, rows_assign. to_fmap. rewrite <- list_fmap_compose.
  apply list_fmap_ext. intros i r Hr%list_elem_of_lookup_2. simpl. f_equal.
  pose proof (proj1 (Forall_forall _ _) Hrect r Hr) as Hlen. simpl in Hlen.
  rewrite (Hf r Hr).
  pose proof (field_assign_row_eq c f0 df r.2 Hlen) as Hfield.
  unfold field in Hfield. rewrite Hassign in Hfield. simpl in Hfield.
  rewrite Hj in Hfield.
  apply list_insert_id. unfold cell_at in Hfield.
  destruct (assign_row c f0 df r.2 !! j) as [v|] eqn:Hv; simpl in Hfield; [by subst|].
  apply lookup_ge_None in Hv.
  assert (length (assign_row c f0 df r.2) = length cols); [|lia].
  assert (Hcols : cols = columns (assign c f0 df)) by (rewrite Hassign; done).
  rewrite Hcols. unfold assign, assign_row.
  destruct (index_of c (columns df)); simpl.
  - by rewrite length_insert.
  - rewrite !length_app. simpl. lia.
Qed.

(** C7. The filter chain never enlarges the table, and it is a fixed point
    on its own output: run again on the filtered table, or on the enriched
    dataset with its point column, it returns its input; attaching the
    point column again changes nothing either. *)
Theorem filter_shrinks_and_is_fixed_point (df operational gdf : frame) :
  well_formed df ->
  hospitals_operational df = Ok operational ->
  hospitals_gdf operational = Ok gdf ->
  (length (rows operational) <= length (rows df))%nat
  /\ length (rows gdf) = length (rows operational)
  /\ hospitals_operational operational = Ok operational
  /\ hospitals_operational gdf = Ok gdf
  /\ hospitals_gdf gdf = Ok gdf.
Proof.
  intros Hwf Hop Hgdf.
  destruct (hospitals_operational_Ok_inv _ _ Hop) as (iC & iN & iE & HC & HN & HE).
  pose proof (hospitals_operational_Ok _ _ Hop) as Hrows.
  assert (Hcols : columns operational = columns df) by (rewrite Hrows; done).
  assert (Hset : Forall (fun r : row => settled operational r.2) (rows operational)).
  { rewrite Hrows. simpl. eapply Forall_impl; [apply operational_rows_settled|].
    intros r Hr. eapply settled_transfer; [|exact Hr]. done. }
  assert (Hrect : Forall (fun r : row => length r.2 = length (columns operational))
                    (rows operational)).
  { rewrite Hcols, Hrows. simpl. by apply operational_rows_length. }
  assert (HinC : CONDICION ∈ columns operational).
  { rewrite Hcols. by eapply list_elem_of_lookup_2, index_of_Some. }
  assert (HinN : NORTE ∈ columns operational).
  { rewrite Hcols. by eapply list_elem_of_lookup_2, index_of_Some. }
  assert (HinE : ESTE ∈ columns operational).
  { rewrite Hcols. by eapply list_elem_of_lookup_2, index_of_Some. }
  destruct (hospitals_operational_Ok_once _ _ Hop) as [HN1 HE1].
  rewrite <- Hcols in HN1, HE1.
  apply hospitals_gdf_Ok_inv in Hgdf as (jE & jN & HjE & HjN & ->).
  split_and!.
  - rewrite Hrows. simpl. rewrite length_fmap. apply length_filter.
  - by rewrite rows_assign, length_fmap.
  - by apply hospitals_operational_settled.
  - apply hospitals_operational_settled.
    + by apply elem_columns_assign.
    + by apply elem_columns_assign.
    + by apply elem_columns_assign.
    + by rewrite repeated_columns_assign.
    + by rewrite repeated_columns_assign.
    + apply assign_settled; [|done..].
      rewrite !not_elem_of_cons. split_and!; try done. apply not_elem_of_nil.
  - unfold hospitals_gdf.
    assert (HE' : exists kE, index_of ESTE (columns (assign geometry_lower
        (fun r => point_from_xy (cell_at jE r) (cell_at jN r)) operational)) = Some kE)
      by (apply index_of_elem, elem_columns_assign; done).
    assert (HN' : exists kN, index_of NORTE (columns (assign geometry_lower
        (fun r => point_from_xy (cell_at jE r) (cell_at jN r)) operational)) = Some kN)
      by (apply index_of_elem, elem_columns_assign; done).
    destruct HE' as [kE HkE], HN' as [kN HkN].
    rewrite (col_pos_Ok ESTE _ kE HkE). simpl.
    rewrite (col_pos_Ok NORTE _ kN HkN). simpl. f_equal.
    apply assign_again; [done|]. intros r Hr.
    pose proof (proj1 (Forall_forall _ _) Hrect r Hr) as Hlen. simpl in Hlen.
    pose proof (field_assign_row_ne ESTE geometry_lower
      (fun r => point_from_xy (cell_at jE r) (cell_at jN r)) operational r.2) as HfE.
    pose proof (field_assign_row_ne NORTE geometry_lower
      (fun r => point_from_xy (cell_at jE r) (cell_at jN r)) operational r.2) as HfN.
    unfold field in HfE, HfN. rewrite HkE, HjE in HfE. rewrite HkN, HjN in HfN.
    by rewrite HfE, HfN.
Qed.

Lemma to_numeric_Num c : to_numeric c <> NaN -> exists x, to_numeric c = Num x.
Proof.
  destruct c as [|s|x|g]; simpl; try done.
  - destruct (str_to_number s) as [x|]; [by exists x|done].
  - by exists x.
Qed.

Lemma gdf_row_fields (df : frame) iE iN r :
  length r = length (columns df) ->
  index_of ESTE (columns df) = Some iE ->
  index_of NORTE (columns df) = Some iN ->
  let f := fun r => point_from_xy (cell_at iE r) (cell_at iN r) in
  let gdf := assign geometry_lower f df in
  let r' := assign_row geometry_lower f df r in
  field ESTE gdf r' = cell_at iE r
  /\ field NORTE gdf r' = cell_at iN r
  /\ field geometry_lower gdf r' = point_from_xy (cell_at iE r) (cell_at iN r).
Proof.
  intros Hlen HE HN f gdf r'. unfold gdf, r'. split_and!.
  - rewrite field_assign_row_ne by done. unfold field. by rewrite HE.
  - rewrite field_assign_row_ne by done. unfold field. by rewrite HN.
  - by rewrite field_assign_row_eq.
Qed.

(** C6. A row with status EN FUNCIONAMIENTO, institution MINSA,
    classification HOSPITALES O CLINICAS DE ATENCION GENERAL, NORTE
    "-12.05" and ESTE "-77.03" is in the enriched dataset, with the point
    whose x is the number "-77.03" coerces to and whose y is the number
    "-12.05" coerces to; and for every row of the enriched dataset the
    point's x is the coerced ESTE value and its y the coerced NORTE value. *)
Theorem scenario_point_geometry (df operational gdf : frame) (n e : number float) :
  well_formed df ->
  str_to_number norte_text = Some n ->
  str_to_number este_text = Some e ->
  hospitals_operational df = Ok operational ->
  hospitals_gdf operational = Ok gdf ->
  (forall i r,
     (i, r) ∈ rows df ->
     field CONDICION df r = Str EN_FUNCIONAMIENTO ->
     field INSTITUCION df r = Str MINSA ->
     field CLASIFICACION df r = Str ATENCION_GENERAL ->
     field NORTE df r = Str norte_text ->
     field ESTE df r = Str este_text ->
     exists r', (i, r') ∈ rows gdf /\ field geometry_lower gdf r' = Geo (Point e n))
  /\ (forall i r',
        (i, r') ∈ rows gdf ->
        exists x y,
          field ESTE gdf r' = Num x /\ field NORTE gdf r' = Num y
          /\ field geometry_lower gdf r' = Geo (Point x y)).
Proof.
  intros Hwf Hn He Hop Hgdf.
  destruct (hospitals_operational_Ok_inv _ _ Hop) as (iC & iN & iE & HC & HN & HE).
  pose proof (hospitals_operational_Ok _ _ Hop) as Hrows.
  apply hospitals_gdf_Ok_inv in Hgdf as (jE & jN & HjE & HjN & ->).
  assert (Hcols : columns operational = columns df) by (rewrite Hrows; done).
  rewrite Hcols in HjE, HjN.
  assert (jE = iE) as -> by congruence. assert (jN = iN) as -> by congruence.
  assert (Hrow : forall i r0, (i, r0) ∈ rows df -> qualifies df r0 ->
    let r' := assign_row geometry_lower
                (fun r => point_from_xy (cell_at iE r) (cell_at iN r)) operational
                (coerced df r0) in
    (i, r') ∈ rows (assign geometry_lower
                (fun r => point_from_xy (cell_at iE r) (cell_at iN r)) operational)
    /\ field ESTE (assign geometry_lower
          (fun r => point_from_xy (cell_at iE r) (cell_at iN r)) operational) r'
        = to_numeric (cell_at iE r0)
    /\ field NORTE (assign geometry_lower
          (fun r => point_from_xy (cell_at iE r) (cell_at iN r)) operational) r'
        = to_numeric (cell_at iN r0)
    /\ field geometry_lower (assign geometry_lower
          (fun r => point_from_xy (cell_at iE r) (cell_at iN r)) operational) r'
        = point_from_xy (to_numeric (cell_at iE r0)) (to_numeric (cell_at iN r0))).
  { intros i r0 Hr0 Hq r'.
    destruct (coerced_cells df iN iE r0 HN HE) as (_ & HcN & HcE & _).
    assert (Hlen : length (coerced df r0) = length (columns operational)).
    { rewrite Hcols, length_coerced. destruct Hwf as [_ Hrect].
      by apply (proj1 (Forall_forall _ _) Hrect (i, r0)). }
    destruct (gdf_row_fields operational iE iN (coerced df r0) Hlen) as (H1 & H2 & H3);
      [by rewrite Hcols..|].
    rewrite HcE, HcN in *. split_and!; try done.
    rewrite rows_assign. apply list_elem_of_fmap. exists (i, coerced df r0).
    split; [done|]. rewrite Hrows. simpl. apply list_elem_of_fmap.
    exists (i, r0). split; [done|]. by apply list_elem_of_filter. }
  split.
  - intros i r Hr HfC HfI HfK HfN HfE.
    assert (Hq : qualifies df r).
    { unfold qualifies, coerces. rewrite HfC, HfN, HfE, HfK, HfI. simpl.
      rewrite Hn, He. split_and!; try done. intros _. split; [|done]. by left. }
    destruct (Hrow i r Hr Hq) as (Hin & _ & _ & Hgeo).
    eexists. split; [exact Hin|]. rewrite Hgeo.
    unfold field in HfN, HfE. rewrite HN in HfN. rewrite HE in HfE.
    rewrite HfN, HfE. simpl. by rewrite Hn, He.
  - intros i r' Hr'. rewrite rows_assign in Hr'.
    apply list_elem_of_fmap in Hr' as ([j r1] & [= -> ->] & Hr1).
    rewrite Hrows in Hr1. simpl in Hr1.
    apply list_elem_of_fmap in Hr1 as ([k r0] & [= -> ->] & [Hq Hr0]%list_elem_of_filter).
    simpl in *. destruct (Hrow k r0 Hr0 Hq) as (_ & HfE & HfN & Hgeo).
    destruct Hq as (_ & HqN & HqE & _). unfold coerces, field in HqN, HqE.
    rewrite HN in HqN. rewrite HE in HqE.
    destruct (to_numeric_Num _ HqN) as [y Hy], (to_numeric_Num _ HqE) as [x Hx].
    exists x, y. rewrite Hrows in *. simpl in *.
    rewrite HfE, HfN, Hgeo, Hx, Hy. done.
Qed.

(** [contains] is Python's substring test. *)
Lemma starts_with_spec needle s :
  starts_with needle s = true <-> exists rest, s = needle ++ rest.
Proof.
  revert s. induction needle as [|a needle IH]; intros s; simpl.
  - split; [by exists s|done].
  - destruct s as [|b s]; [split; [done|by intros [? ?]]|].
    rewrite andb_true_iff, N.eqb_eq, IH. split.
    + intros [-> [rest ->]]. by exists rest.
    + intros [rest [= -> ->]]. split; [done|by exists rest].
Qed.

Lemma contains_spec needle s :
  contains needle s = true <-> exists before after, s = before ++ needle ++ after.
Proof.
  induction s as [|b s IH]; simpl.
  - rewrite orb_false_r, starts_with_spec. split.
    + intros [rest Hrest]. by exists [], rest.
    + intros (before & after & Hs). destruct before; simpl in Hs; [by exists after|done].
  - rewrite orb_true_iff, starts_with_spec, IH. split.
    + intros [[rest Hrest]|(before & after & ->)].
      * by exists [], rest.
      * by exists (b :: before), after.
    + intros (before & after & Hs). destruct before as [|b' before]; simpl in Hs.
      * left. by exists after.
      * right. injection Hs as -> ->. by exists before, after.
Qed.

Lemma hospital_name_col_cases (df : frame) :
  (has_name_column df ->
     exists c, hospital_name_col df = Ok c /\ c ∈ columns df
               /\ contains ESTABLECIMIENTO c = true)
  /\ (~ has_name_column df -> hospital_name_col df = Raise IndexError).
Proof.
  unfold hospital_name_col, has_name_column.
  destruct (filter _ (columns df)) as [|c cs] eqn:Hf.
  - split; [|done]. intros (c & Hc & Hcont).
    assert (c ∈ filter (fun c => contains ESTABLECIMIENTO c = true) (columns df))
      as Hin by (by apply list_elem_of_filter).
    rewrite Hf in Hin. by apply elem_of_nil in Hin.
  - assert (c ∈ filter (fun c => contains ESTABLECIMIENTO c = true) (columns df))
      as [Hcont Hc]%list_elem_of_filter by (rewrite Hf; left).
    split; [intros _; by exists c|]. intros Hno. destruct Hno. by exists c.
Qed.




(** *** Aggregator *)

Lemma filter_eq_NoDup {A} `{EqDecision A} (k : A) (ks : list A) :
  NoDup ks -> filter (fun x => x = k) ks = if decide (k ∈ ks) then [k] else [].
Proof.
  induction 1 as [|x ks Hx Hks IH]; [done|].
  rewrite filter_cons, IH. destruct (decide (x = k)) as [->|Hne].
  - rewrite decide_False by done. rewrite decide_True by left. done.
  - destruct (decide (k ∈ ks)) as [Hin|Hin].
    + rewrite decide_True by (by right). done.
    + rewrite decide_False; [done|]. rewrite elem_of_cons. by intros [?|?].
Qed.

Lemma filter_snd_imap (P : list value -> Prop) `{!forall r, Decision (P r)}
    (ix : nat -> value) (xs : list (list value)) :
  (filter (fun r : row => P r.2) (imap (fun j x => (ix j, x)) xs)).*2 = filter P xs.
Proof.
  revert ix. induction xs as [|x xs IH]; intros ix; [done|].
  rewrite imap_cons, !filter_cons. simpl.
  specialize (IH (ix ∘ S)). case_decide; simpl; by rewrite <- IH.
Qed.

Lemma imap_pair_fmap (ix : nat -> value) (h : list value -> list value)
    (xs : list (list value)) :
  (fun r : row => (r.1, h r.2)) <$> imap (fun j x => (ix j, x)) xs
  = imap (fun j x => (ix j, x)) (h <$> xs).
Proof.
  revert ix. induction xs as [|x xs IH]; intros ix; [done|].
  rewrite fmap_cons, !imap_cons, fmap_cons. simpl. f_equal. apply (IH (ix ∘ S)).
Qed.

Lemma imap_pair_snd (ix : nat -> value) (xs : list (list value)) :
  (imap (fun j x => (ix j, x)) xs).*2 = xs.
Proof.
  revert ix. induction xs as [|x xs IH]; intros ix; [done|].
  rewrite imap_cons, fmap_cons. simpl. f_equal. apply (IH (ix ∘ S)).
Qed.

Lemma reindex_fmap (h : list value -> list value) (xs : list (list value)) :
  (fun r : row => (r.1, h r.2)) <$> reindex xs = reindex (h <$> xs).
Proof. apply imap_pair_fmap. Qed.

Lemma reindex_snd (xs : list (list value)) : (reindex xs).*2 = xs.
Proof. apply imap_pair_snd. Qed.

Lemma length_reindex (xs : list (list value)) : length (reindex xs) = length xs.
Proof. unfold reindex. apply length_imap. Qed.

Lemma index_of_head c cols : index_of c (c :: cols) = Some 0%nat.
Proof. simpl. by rewrite decide_True. Qed.

Lemma flat_map_singleton {A B} (f : A -> B) (l : list A) :
  flat_map (fun x => [f x]) l = f <$> l.
Proof. induction l as [|x l IH]; [done|]. simpl. by rewrite IH. Qed.

Lemma imap_id_ext {A} (f : nat -> A -> A) (l : list A) :
  (forall j x, f j x = x) -> imap f l = l.
Proof.
  revert f. induction l as [|x l IH]; intros f Hf; [done|].
  rewrite imap_cons, Hf. f_equal. apply IH. intros j y. apply Hf.
Qed.

(** Lines 84-99 on tables that have what the lines read: the districts,
    each with its count appended. *)
Lemma districts_copy_rows (gdf districts : frame) :
  well_formed districts ->
  DISTRITO ∈ columns gdf ->
  DISTRITO ∈ columns districts ->
  geometry_lower ∈ columns districts \/ GEOMETRY ∈ columns districts ->
  N_HOSPITALS ∉ columns districts ->
  districts_copy gdf districts =
  Ok (mkDataFrame (columns districts ++ [N_HOSPITALS])
        (reindex ((fun d : row =>
            d.2 ++ [Num (Int (Z.of_nat (hospitals_in gdf (field DISTRITO districts d.2))))])
          <$> rows districts))).
Proof.
  intros [_ Hrect] [kh Hkh]%index_of_elem [kd Hkd]%index_of_elem Hgeo Hfresh.
  unfold districts_copy, groupby_size.
  rewrite (col_pos_Ok _ _ _ Hkh). simpl.
  set (keys := remove_dups _).
  set (count := fun key : value => _ : list value).
  assert (exists g,
    (if decide (geometry_lower ∈ columns districts) then Ok geometry_lower
     else if decide (GEOMETRY ∈ columns districts) then Ok GEOMETRY
     else Raise StopScript) = Ok g) as [g ->].
  { destruct (decide (geometry_lower ∈ columns districts)); [by eexists|].
    destruct (decide (GEOMETRY ∈ columns districts)); [by eexists|]. tauto. }
  simpl. unfold merge_left.
  rewrite (col_pos_Ok _ _ _ Hkd). simpl.
  assert (Hclash : filter (fun c : pystr => c ∈ [N_HOSPITALS])
                     (delete kd (columns districts)) = []).
  { apply filter_none. intros c Hin Hc. apply list_elem_of_singleton in Hc as ->.
    destruct Hfresh. by eapply list_elem_of_delete_inv. }
  rewrite Hclash.
  assert (Hsuf : forall sfx c, with_suffix [] sfx c = c).
  { intros sfx c. unfold with_suffix. rewrite decide_False; [done|apply not_elem_of_nil]. }
  rewrite imap_id_ext by (intros j c; by case_decide).
  rewrite Hsuf.
  assert (Hcount : forall l : row,
    match filter (fun r : row => cell_at 0 r.2 = cell_at kd l.2) (reindex (map count keys)) with
    | [] => [l.2 ++ [NaN]]
    | p :: l0 => (l.2 ++ delete 0%nat p.2) :: map (fun r : row => l.2 ++ delete 0%nat r.2) l0
    end
    = [l.2 ++ [if decide (cell_at kd l.2 ∈ keys)
               then Num (Int (Z.of_nat (hospitals_in gdf (cell_at kd l.2)))) else NaN]]
      /\ (cell_at kd l.2 ∉ keys -> hospitals_in gdf (cell_at kd l.2) = 0%nat)).
  { intros l. set (k := cell_at kd l.2).
    assert (Hkeys : forall key, key ∈ keys <->
      key <> NaN /\ exists r : row, r ∈ rows gdf /\ cell_at kh r.2 = key).
    { intros key. unfold keys. rewrite elem_of_remove_dups, list_elem_of_filter.
      to_fmap. rewrite list_elem_of_fmap. split.
      - intros [Hne (r & -> & Hr)]. split; [done|]. by exists r.
      - intros [Hne (r & Hr & <-)]. split; [done|]. by exists r. }
    assert (Hin : forall key (r : row),
        field DISTRITO gdf r.2 <> NaN /\ field DISTRITO gdf r.2 = key <->
        cell_at kh r.2 <> NaN /\ cell_at kh r.2 = key).
    { intros key r. unfold field. by rewrite Hkh. }
    split.
    - set (ms := filter _ (reindex (map count keys))).
      assert (Hms : ms.*2 = if decide (k ∈ keys) then [count k] else []).
      { unfold ms, reindex.
        etransitivity;
          [exact (filter_snd_imap (fun x : list value => cell_at 0 x = k)
                    (fun j => Num (Int (Z.of_nat j))) (map count keys))|].
        to_fmap. rewrite filter_fmap.
        rewrite (list_filter_iff _ (fun key => key = k)) by done.
        rewrite filter_eq_NoDup by apply NoDup_remove_dups.
        by case_decide. }
      destruct ms as [|[i m] ms']; simpl in Hms; case_decide as Hk; try done.
      injection Hms as -> Hms'. destruct ms' as [|m' ms']; [|done]. simpl.
      do 4 f_equal. unfold hospitals_in.
      rewrite (list_filter_iff (fun r : row => cell_at kh r.2 = k)
                 (fun r : row => field DISTRITO gdf r.2 <> NaN
                                 /\ field DISTRITO gdf r.2 = k)); [done|].
      intros r. rewrite Hin. apply Hkeys in Hk as [Hk _].
      split; [by intros ->|by intros [_ ?]].
    - intros Hk. unfold hospitals_in. rewrite filter_none; [done|].
      intros r Hr [Hn Hrk]%Hin. apply Hk, Hkeys.
      split; [by rewrite <- Hrk|by exists r]. }
  rewrite (flat_map_ext _ (fun l : row => [l.2 ++ [if decide (cell_at kd l.2 ∈ keys)
               then Num (Int (Z.of_nat (hospitals_in gdf (cell_at kd l.2)))) else NaN]]))
    by (intros l; apply Hcount).
  rewrite flat_map_singleton.
  pose proof (index_of_app_new _ _ Hfresh) as Hn.
  rewrite (col_pos_Ok N_HOSPITALS (mkDataFrame _ _) _ Hn). simpl.
  rewrite (assign_existing N_HOSPITALS _ (mkDataFrame _ _) _ Hn). simpl. do 2 f_equal.
  to_fmap.
  rewrite (reindex_fmap (fun r => <[length (columns districts) :=
             fillna0 (cell_at (length (columns districts)) r)]> r)).
  f_equal. rewrite <- list_fmap_compose.
  apply list_fmap_ext. intros i d Hd%list_elem_of_lookup_2. simpl.
  pose proof (proj1 (Forall_forall _ _) Hrect d Hd) as Hlen. simpl in Hlen.
  rewrite <- Hlen, cell_at_app_new.
  rewrite insert_app_r_alt by lia. rewrite Nat.sub_diag. simpl. do 2 f_equal.
  unfold field. rewrite Hkd. case_decide as Hk; [done|].
  simpl. destruct (Hcount d) as [_ H0]. by rewrite (H0 Hk).
Qed.

Lemma field_ext c (df df' : frame) r :
  columns df = columns df' -> field c df r = field c df' r.
Proof. intros Hc. unfold field. by rewrite Hc. Qed.

Lemma Forall2_imap_pair {A} (R : A -> list value -> Prop) (f : A -> list value)
    (ix : nat -> value) (l : list A) :
  (forall d, d ∈ l -> R d (f d)) ->
  Forall2 (fun d (r : row) => R d r.2) l (imap (fun j x => (ix j, x)) (f <$> l)).
Proof.
  revert ix. induction l as [|d l IH]; intros ix HR; [constructor|].
  rewrite fmap_cons, imap_cons. constructor.
  - simpl. apply HR. left.
  - apply (IH (ix ∘ S)). intros d' Hd'. apply HR. by right.
Qed.

(** The rows of the joined district table, one per district, in order. *)
Lemma districts_copy_fields (gdf districts : frame) :
  well_formed districts ->
  DISTRITO ∈ columns gdf ->
  DISTRITO ∈ columns districts ->
  geometry_lower ∈ columns districts \/ GEOMETRY ∈ columns districts ->
  N_HOSPITALS ∉ columns districts ->
  exists dc,
    districts_copy gdf districts = Ok dc
    /\ columns dc = columns districts ++ [N_HOSPITALS]
    /\ Forall2 (fun (d r : row) =>
         r.2 = d.2 ++ [Num (Int (Z.of_nat
                  (hospitals_in gdf (field DISTRITO districts d.2))))]
         /\ (forall c, c ∈ columns districts -> field c dc r.2 = field c districts d.2)
         /\ field N_HOSPITALS dc r.2
            = Num (Int (Z.of_nat (hospitals_in gdf (field DISTRITO districts d.2)))))
       (rows districts) (rows dc).
Proof.
  intros Hwf Hh Hd Hgeo Hfresh.
  rewrite (districts_copy_rows gdf districts) by done.
  eexists. split; [done|]. split; [done|]. simpl.
  set (f := fun d : list value =>
    @Num float shape (Int (Z.of_nat (hospitals_in gdf (field DISTRITO districts d))))).
  set (dc := mkDataFrame _ _).
  apply (Forall2_imap_pair
    (fun (d : row) (x : list value) =>
       x = d.2 ++ [f d.2]
       /\ (forall c, c ∈ columns districts -> field c dc x = field c districts d.2)
       /\ field N_HOSPITALS dc x = f d.2)
    (fun d : row => d.2 ++ [f d.2])).
  intros d Hd'. destruct Hwf as [_ Hrect].
  pose proof (proj1 (Forall_forall _ _) Hrect d Hd') as Hlen. simpl in Hlen.
  assert (Hcols : columns dc = columns (assign N_HOSPITALS f districts))
    by (by rewrite assign_new).
  assert (Hrow : d.2 ++ [f d.2] = assign_row N_HOSPITALS f districts d.2).
  { unfold assign_row. apply index_of_None in Hfresh. by rewrite Hfresh. }
  split_and!.
  - done.
  - intros c Hc. rewrite (field_ext c dc _ _ Hcols), Hrow.
    apply field_assign_row_ne; [|done]. by intros ->.
  - rewrite (field_ext _ dc _ _ Hcols), Hrow. by apply field_assign_row_eq.
Qed.

(** C2. Every district row survives the join, once and in place, and the
    count attached to it is the number of enriched rows whose district
    field is not missing and equals the district's name: for a name that is
    a string, the rows whose district field is that string; a count is a
    number, 0 when no enriched row matches, never a missing value. *)
Theorem district_counts (gdf districts : frame) :
  well_formed districts ->
  DISTRITO ∈ columns gdf ->
  DISTRITO ∈ columns districts ->
  geometry_lower ∈ columns districts \/ GEOMETRY ∈ columns districts ->
  N_HOSPITALS ∉ columns districts ->
  exists dc,
    districts_copy gdf districts = Ok dc
    /\ length (rows dc) = length (rows districts)
    /\ Forall2 (fun (d r : row) =>
         (forall c, c ∈ columns districts -> field c dc r.2 = field c districts d.2)
         /\ field N_HOSPITALS dc r.2
            = Num (Int (Z.of_nat (hospitals_in gdf (field DISTRITO districts d.2)))))
       (rows districts) (rows dc)
    /\ (forall s, hospitals_in gdf (Str s)
          = length (filter (fun h : row => field DISTRITO gdf h.2 = Str s) (rows gdf)))
    /\ hospitals_in gdf NaN = 0%nat.
Proof.
  intros Hwf Hh Hd Hgeo Hfresh.
  destruct (districts_copy_fields gdf districts) as (dc & Hdc & _ & Hrows); [done..|].
  exists dc. split_and!.
  - done.
  - symmetry. by eapply Forall2_length.
  - eapply Forall2_impl; [exact Hrows|]. intros d r (_ & ? & ?). done.
  - intros s. unfold hospitals_in. f_equal. apply list_filter_iff.
    intros h. split; [by intros [_ ?]|]. intros Hs. by rewrite Hs.
  - unfold hospitals_in. rewrite filter_none; [done|]. intros h _ [Hn Hh']. done.
Qed.

(** C10. The join key is the district name alone: two rows of the joined
    district table with the same DISTRITO value carry the same count,
    whatever their department, and the count of a row is the number of all
    enriched rows with that district name; so the counts of the district
    rows can add up to more than there are enriched rows. *)
Theorem district_key_is_name_only (gdf districts : frame) :
  well_formed districts ->
  DISTRITO ∈ columns gdf ->
  DISTRITO ∈ columns districts ->
  geometry_lower ∈ columns districts \/ GEOMETRY ∈ columns districts ->
  N_HOSPITALS ∉ columns districts ->
  (exists dc,
     districts_copy gdf districts = Ok dc
     /\ (forall r : row, r ∈ rows dc ->
           field N_HOSPITALS dc r.2
           = Num (Int (Z.of_nat (hospitals_in gdf (field DISTRITO dc r.2)))))
     /\ (forall r1 r2 : row, r1 ∈ rows dc -> r2 ∈ rows dc ->
           field DISTRITO dc r1.2 = field DISTRITO dc r2.2 ->
           field N_HOSPITALS dc r1.2 = field N_HOSPITALS dc r2.2))
  /\ (exists dc,
        well_formed homonym_districts
        /\ districts_copy homonym_hospitals homonym_districts = Ok dc
        /\ field DEPARTAMEN dc <$> (rows dc).*2 = [Str (utf8 "LIMA"); Str (utf8 "PUNO")]
        /\ counts dc = [1; 1]%Z
        /\ (Z.of_nat (length (rows homonym_hospitals)) < sum_Z (counts dc))%Z).
Proof.
  intros Hwf Hh Hd Hgeo Hfresh. split.
  - destruct (districts_copy_fields gdf districts) as (dc & Hdc & _ & Hrows); [done..|].
    exists dc. split; [done|].
    assert (Hcount : forall r : row, r ∈ rows dc ->
      field N_HOSPITALS dc r.2
      = Num (Int (Z.of_nat (hospitals_in gdf (field DISTRITO dc r.2))))).
    { intros r [i Hi]%list_elem_of_lookup_1.
      destruct (Forall2_lookup_r _ _ _ _ _ Hrows Hi) as (d & _ & _ & Hsame & Hn).
      by rewrite Hn, (Hsame DISTRITO Hd). }
    split; [exact Hcount|].
    intros r1 r2 Hr1 Hr2 Heq. by rewrite (Hcount r1 Hr1), (Hcount r2 Hr2), Heq.
  - eexists. split_and!.
    + apply (bool_decide_unpack _). by vm_compute.
    + vm_compute. reflexivity.
    + by vm_compute.
    + by vm_compute.
    + by vm_compute.
Qed.

Lemma insert_desc_perm n (x : row) l : insert_desc n x l ≡ₚ x :: l.
Proof.
  induction l as [|y l IH]; simpl; [done|].
  case_match; [done|]. rewrite IH. apply Permutation_swap.
Qed.

Lemma sort_desc_perm n (l : list row) : foldr (insert_desc n) [] l ≡ₚ l.
Proof.
  induction l as [|x l IH]; simpl; [done|]. by rewrite insert_desc_perm, IH.
Qed.

Lemma sum_Z_app l1 l2 : sum_Z (l1 ++ l2) = (sum_Z l1 + sum_Z l2)%Z.
Proof. induction l1 as [|x l1 IH]; simpl; [done|]. rewrite IH. lia. Qed.

Lemma sum_Z_perm l1 l2 : l1 ≡ₚ l2 -> sum_Z l1 = sum_Z l2.
Proof. induction 1; simpl; lia. Qed.

Lemma filter_ext_in {A} (P Q : A -> Prop) `{!forall x, Decision (P x)}
    `{!forall x, Decision (Q x)} (l : list A) :
  (forall x, x ∈ l -> P x <-> Q x) -> filter P l = filter Q l.
Proof.
  induction l as [|x l IH]; intros Hl; [done|].
  rewrite !filter_cons. rewrite IH by (intros y Hy; apply Hl; by right).
  destruct (Hl x) as [HPQ HQP]; [left|].
  destruct (decide (P x)), (decide (Q x)); tauto.
Qed.

(** Summing group by group over distinct keys is summing over the rows
    whose key is one of them. *)
Lemma group_sums (key : row -> value) (w : row -> Z) (l : list row) (ks : list value) :
  NoDup ks ->
  sum_Z ((fun k => sum_Z (w <$> filter (fun r => key r = k) l)) <$> ks)
  = sum_Z (w <$> filter (fun r => key r ∈ ks) l).
Proof.
  induction 1 as [|k ks Hk Hks IH].
  - simpl. rewrite filter_none; [done|]. intros r _ Hr. by apply elem_of_nil in Hr.
  - rewrite fmap_cons. unfold sum_Z at 1. simpl foldr. fold (sum_Z
      ((fun k => sum_Z (w <$> filter (fun r => key r = k) l)) <$> ks)).
    rewrite IH. clear IH. induction l as [|r l IHl]; [done|].
    rewrite !filter_cons.
    assert (Hcases : key r ∈ k :: ks <-> key r = k \/ key r ∈ ks) by apply elem_of_cons.
    assert (Hexcl : key r = k -> key r ∈ ks -> False) by (by intros ->).
    destruct (decide (key r = k)), (decide (key r ∈ ks)), (decide (key r ∈ k :: ks));
      rewrite ?fmap_cons; unfold sum_Z in *; simpl foldr; try lia; tauto.
Qed.

Lemma department_keys_spec (dc : frame) name :
  name ∈ department_keys dc <->
  name <> NaN /\ exists r : row, r ∈ rows dc /\ field DEPARTAMEN dc r.2 = name.
Proof.
  unfold department_keys.
  rewrite elem_of_remove_dups, list_elem_of_filter, list_elem_of_fmap. split.
  - intros [Hne (r & -> & Hr)]. split; [done|]. by exists r.
  - intros [Hne (r & Hr & <-)]. split; [done|]. by exists r.
Qed.

Lemma sort_values_desc_perm c (df : frame) :
  c ∈ columns df ->
  exists sorted, sort_values_desc c df = Ok sorted
    /\ columns sorted = columns df /\ rows sorted ≡ₚ rows df.
Proof.
  intros [n Hn]%index_of_elem. unfold sort_values_desc.
  rewrite (col_pos_Ok _ _ _ Hn). simpl. eexists. split; [done|].
  split; [done|]. apply sort_desc_perm.
Qed.

(** Lines 116-117: one row per department name, in some order. *)
Lemma dept_summary_rows geom_col (dc : frame) :
  geom_col ∈ columns dc -> DEPARTAMEN ∈ columns dc -> N_HOSPITALS ∈ columns dc ->
  exists summary,
    dept_summary geom_col dc = Ok summary
    /\ columns summary = [geom_col; N_HOSPITALS]
    /\ rows summary ≡ₚ department_row geom_col dc <$> department_keys dc.
Proof.
  intros [g Hg]%index_of_elem [k Hk]%index_of_elem [n Hn]%index_of_elem.
  unfold dept_summary, dissolve_sum.
  rewrite (col_pos_Ok _ _ _ Hg), (col_pos_Ok _ _ _ Hk), (col_pos_Ok _ _ _ Hn). simpl.
  destruct (sort_values_desc_perm N_HOSPITALS
    (mkDataFrame [geom_col; N_HOSPITALS]
       (department_row geom_col dc <$> department_keys dc)))
    as (sorted & Hsorted & Hcols & Hperm).
  { simpl. right. left. }
  exists sorted. split; [|done].
  rewrite <- Hsorted. f_equal.
  unfold department_row, department_keys, department_shape, department_total, field.
  rewrite Hg, Hk, Hn. by to_fmap.
Qed.

Lemma length_positions_from k c (cols : list pystr) :
  length (positions_from k c cols) = length (filter (fun l => l = c) cols).
Proof.
  revert k. induction cols as [|l cols IH]; intros k; simpl; [done|].
  rewrite filter_cons, length_app, IH. by case_decide.
Qed.

Lemma positions_from_head k c (cols : list pystr) i :
  index_of c cols = Some i ->
  exists rest, positions_from k c cols = (k + i)%nat :: rest.
Proof.
  revert k i. induction cols as [|l cols IH]; intros k i; simpl; [done|].
  case_decide as Hl.
  - intros [= <-]. rewrite Nat.add_0_r. by eexists.
  - destruct (index_of c cols) as [j|]; simpl; [|done]. intros [= <-].
    destruct (IH (S k) j eq_refl) as [rest ->]. exists rest. f_equal. lia.
Qed.

(** A label that one column carries is found at its position. *)
Lemma positions_once c (cols : list pystr) i :
  index_of c cols = Some i -> ~ repeated c cols -> positions c cols = [i].
Proof.
  intros Hi Hrep. unfold positions.
  destruct (positions_from_head 0 c cols i Hi) as [rest Hrest].
  pose proof (length_positions_from 0 c cols) as Hlen.
  rewrite Hrest in Hlen. unfold repeated in Hrep.
  destruct rest; [by rewrite Hrest|]. simpl in Hlen. lia.
Qed.

Lemma NoDup_once (cs cols : list pystr) :
  NoDup cols -> Forall (fun c => ~ repeated c cols) cs.
Proof. intros Hnd. apply Forall_forall. intros c _. by apply NoDup_not_repeated. Qed.

(** The selection on labels that one column each carries. *)
Lemma project_once cs (df : frame) :
  (forall c, c ∈ cs -> c ∈ columns df) ->
  Forall (fun c => ~ repeated c (columns df)) cs ->
  project cs df
  = Ok (mkDataFrame cs
          (map (fun r : row =>
             (r.1, map (fun c => cell_at (default 0%nat (index_of c (columns df))) r.2) cs))
             (rows df))).
Proof.
  intros Hin Honce. unfold project. rewrite filter_none by (intros c Hc Hn; by apply Hn, Hin).
  assert (Hp : flat_map (fun c => map (pair c) (positions c (columns df))) cs
               = (fun c => (c, default 0%nat (index_of c (columns df)))) <$> cs).
  { clear -Hin Honce. induction cs as [|c cs IH]; [done|].
    apply Forall_cons in Honce as [Hc Hcs]. rewrite fmap_cons. cbn [flat_map].
    destruct (index_of_elem c (columns df)) as [i Hi]; [apply Hin; left|].
    rewrite (positions_once _ _ _ Hi Hc), Hi. cbn [map app default]. f_equal.
    apply IH; [|done]. intros c' Hc'. apply Hin. by right. }
  rewrite Hp. f_equal. f_equal.
  - to_fmap. rewrite <- list_fmap_compose.
    rewrite (list_fmap_ext _ id) by done. apply list_fmap_id.
  - apply map_ext. intros r. f_equal. to_fmap. by rewrite <- list_fmap_compose.
Qed.

Lemma project_Ok cs (df : frame) :
  (forall c, c ∈ cs -> c ∈ columns df) -> exists out, project cs df = Ok out.
Proof.
  intros Hcs. unfold project. rewrite filter_none; [by eexists|].
  intros c Hc Hn. by apply Hn, Hcs.
Qed.

Lemma st_dataframe_Ok (df : frame) : NoDup (columns df) -> st_dataframe df = Ok tt.
Proof. intros Hnd. unfold st_dataframe. by rewrite decide_True. Qed.

Lemma geom_col_of_elem (districts : frame) :
  geometry_lower ∈ columns districts \/ GEOMETRY ∈ columns districts ->
  geom_col_of districts ∈ columns districts.
Proof. intros Hgeo. unfold geom_col_of. case_decide; tauto. Qed.

Lemma geom_col_of_not_count (districts : frame) : geom_col_of districts <> N_HOSPITALS.
Proof. unfold geom_col_of. by case_decide. Qed.

Lemma NoDup_snoc_new {A} (l : list A) x : NoDup l -> x ∉ l -> NoDup (l ++ [x]).
Proof.
  intros Hl Hx. apply NoDup_app. split_and!; [done| |apply NoDup_singleton].
  intros y Hy ->%list_elem_of_singleton. done.
Qed.

(** The tables lines 113 and 125 show, on a joined table with distinct
    labels. *)
Lemma zero_hosp_once (dc : frame) n :
  NoDup (columns dc) ->
  index_of N_HOSPITALS (columns dc) = Some n ->
  (forall c, c ∈ [DEPARTAMEN; PROVINCIA; DISTRITO] -> c ∈ columns dc) ->
  exists shown,
    project [DEPARTAMEN; PROVINCIA; DISTRITO]
      (select (fun r => cell_at n r = Num (Int 0)) dc) = Ok shown
    /\ columns shown = [DEPARTAMEN; PROVINCIA; DISTRITO]
    /\ zero_hosp dc = Ok (mkDataFrame (columns shown) (take 10 (rows shown))).
Proof.
  intros Hnd Hn Hin. unfold zero_hosp. rewrite (col_pos_Ok _ _ _ Hn). simpl.
  rewrite (project_once [DEPARTAMEN; PROVINCIA; DISTRITO]
             (select (fun r => cell_at n r = Num (Int 0)) dc))
    by (done || by apply NoDup_once).
  eexists. split; [done|]. split; [done|]. simpl.
  rewrite ?st_dataframe_Ok by (simpl; by_computation). done.
Qed.

Lemma top10_once (dc sorted : frame) :
  NoDup (columns dc) ->
  sort_values_desc N_HOSPITALS dc = Ok sorted ->
  columns sorted = columns dc ->
  (forall c, c ∈ [DEPARTAMEN; PROVINCIA; DISTRITO; N_HOSPITALS] -> c ∈ columns dc) ->
  exists shown,
    project [DEPARTAMEN; PROVINCIA; DISTRITO; N_HOSPITALS]
      (mkDataFrame (columns sorted) (take 10 (rows sorted))) = Ok shown
    /\ columns shown = [DEPARTAMEN; PROVINCIA; DISTRITO; N_HOSPITALS]
    /\ top10 dc = Ok shown.
Proof.
  intros Hnd Hsorted Hsc Hin. unfold top10. rewrite Hsorted. simpl.
  rewrite (project_once [DEPARTAMEN; PROVINCIA; DISTRITO; N_HOSPITALS]
             (mkDataFrame (columns sorted) (take 10 (rows sorted))))
    by (simpl; rewrite Hsc; done || by apply NoDup_once).
  eexists. split; [done|]. split; [done|]. simpl.
  rewrite ?st_dataframe_Ok by (simpl; by_computation). done.
Qed.

(** The second tab runs to completion on tables that have the columns it
    reads. *)
Lemma tab2_Ok (gdf districts : frame) :
  well_formed districts ->
  DISTRITO ∈ columns gdf ->
  DISTRITO ∈ columns districts ->
  DEPARTAMEN ∈ columns districts ->
  PROVINCIA ∈ columns districts ->
  geometry_lower ∈ columns districts \/ GEOMETRY ∈ columns districts ->
  N_HOSPITALS ∉ columns districts ->
  exists out,
    tab2 gdf districts = Ok out
    /\ districts_copy gdf districts = Ok (tab_districts out)
    /\ dept_summary (geom_col_of districts) (tab_districts out) = Ok (tab_departments out).
Proof.
  intros Hwf Hh Hd Hdep Hprov Hgeo Hfresh.
  destruct (districts_copy_fields gdf districts) as (dc & Hdc & Hcols & _); [done..|].
  assert (Hin : forall c, c ∈ columns districts -> c ∈ columns dc).
  { intros c Hc. rewrite Hcols. apply elem_of_app. by left. }
  assert (HinN : N_HOSPITALS ∈ columns dc).
  { rewrite Hcols. apply elem_of_app. right. left. }
  assert (Hnd : NoDup (columns dc)).
  { rewrite Hcols. apply NoDup_snoc_new; [by destruct Hwf|done]. }
  unfold tab2. rewrite Hdc. simpl.
  assert (exists zero, zero_hosp dc = Ok zero) as [zero ->].
  { destruct (index_of_elem _ _ HinN) as [n Hn].
    destruct (zero_hosp_once dc n Hnd Hn) as (shown & _ & _ & ->); [|by eexists].
    intros c. rewrite !elem_of_cons, elem_of_nil.
    intros [->|[->|[->|[]]]]; by apply Hin. }
  simpl.
  destruct (dept_summary_rows (geom_col_of districts) dc) as (summary & Hsum & Hsumcols & _).
  { by apply Hin, geom_col_of_elem. }
  { by apply Hin. }
  { done. }
  rewrite Hsum. simpl.
  assert (Hsumnd : NoDup (columns summary)).
  { rewrite Hsumcols. apply NoDup_cons. split; [|apply NoDup_singleton].
    rewrite list_elem_of_singleton. apply geom_col_of_not_count. }
  rewrite (project_once [N_HOSPITALS] summary).
  2: { intros c ->%list_elem_of_singleton. rewrite Hsumcols. right. left. }
  2: { by apply NoDup_once. }
  simpl. rewrite ?st_dataframe_Ok by (simpl; apply NoDup_singleton). simpl.
  assert (exists top, top10 dc = Ok top) as [top ->].
  { destruct (sort_values_desc_perm N_HOSPITALS dc HinN) as (sorted & Hsorted & Hsc & _).
    destruct (top10_once dc sorted Hnd Hsorted Hsc) as (shown & _ & _ & ->); [|by eexists].
    intros c. rewrite !elem_of_cons, elem_of_nil.
    intros [->|[->|[->|[->|[]]]]]; [by apply Hin..|done]. }
  simpl. eexists. split_and!; [done|done|exact Hsum].
Qed.

Lemma field_count_department_row geom_col (summary dc : frame) name :
  geom_col <> N_HOSPITALS ->
  columns summary = [geom_col; N_HOSPITALS] ->
  field N_HOSPITALS summary (department_row geom_col dc name).2
  = Num (Int (department_total dc name)).
Proof.
  intros Hne Hcols. unfold field. rewrite Hcols.
  change [geom_col; N_HOSPITALS] with ([geom_col] ++ [N_HOSPITALS]).
  rewrite (index_of_app_new N_HOSPITALS [geom_col]); [done|].
  rewrite list_elem_of_singleton. by intros <-.
Qed.

(** The counts of the department summary add up to the counts of the
    district rows that carry a department name. *)
Lemma dept_summary_total geom_col (dc summary : frame) :
  geom_col <> N_HOSPITALS ->
  columns summary = [geom_col; N_HOSPITALS] ->
  rows summary ≡ₚ department_row geom_col dc <$> department_keys dc ->
  sum_Z (counts summary)
  = sum_Z ((fun r : row => count_of (field N_HOSPITALS dc r.2))
             <$> filter (fun r : row => field DEPARTAMEN dc r.2 <> NaN) (rows dc)).
Proof.
  intros Hne Hcols Hperm. unfold counts. to_fmap.
  rewrite (sum_Z_perm _ ((fun r : row => count_of (field N_HOSPITALS summary r.2))
             <$> (department_row geom_col dc <$> department_keys dc)))
    by (by apply fmap_Permutation).
  rewrite <- list_fmap_compose.
  rewrite (list_fmap_ext _ (department_total dc) (department_keys dc)).
  2:{ intros i name _. unfold compose.
      by rewrite (field_count_department_row _ _ _ _ Hne Hcols). }
  unfold department_total.
  rewrite (group_sums (fun r : row => field DEPARTAMEN dc r.2)
             (fun r : row => count_of (field N_HOSPITALS dc r.2)))
    by apply NoDup_remove_dups.
  do 2 f_equal. apply filter_ext_in. intros r Hr.
  rewrite department_keys_spec. split; [by intros [? _]|].
  intros Hn. split; [done|]. by exists r.
Qed.

(** C3, as the code has it. The dissolve drops the district rows whose
    department name is missing: the counts of the department summary add
    up to the counts of the district rows that have a department name, and
    to the counts of all district rows when none lacks one. *)
Theorem dissolve_preserves_named_total (gdf districts : frame) :
  well_formed districts ->
  DISTRITO ∈ columns gdf ->
  DISTRITO ∈ columns districts ->
  DEPARTAMEN ∈ columns districts ->
  PROVINCIA ∈ columns districts ->
  geometry_lower ∈ columns districts \/ GEOMETRY ∈ columns districts ->
  N_HOSPITALS ∉ columns districts ->
  exists out,
    tab2 gdf districts = Ok out
    /\ sum_Z (counts (tab_departments out))
       = sum_Z ((fun r : row => count_of (field N_HOSPITALS (tab_districts out) r.2))
                  <$> filter (fun r : row =>
                                field DEPARTAMEN (tab_districts out) r.2 <> NaN)
                        (rows (tab_districts out)))
    /\ (Forall (fun d : row => field DEPARTAMEN districts d.2 <> NaN) (rows districts) ->
        sum_Z (counts (tab_departments out)) = sum_Z (counts (tab_districts out))).
Proof.
  intros Hwf Hh Hd Hdep Hprov Hgeo Hfresh.
  destruct (tab2_Ok gdf districts) as (out & Hout & Hdc & Hsum); [done..|].
  destruct (districts_copy_fields gdf districts) as (dc & Hdc' & Hcols & Hrows); [done..|].
  assert (dc = tab_districts out) as -> by congruence.
  destruct (dept_summary_rows (geom_col_of districts) (tab_districts out))
    as (summary & Hsum' & Hscols & Hperm).
  { rewrite Hcols. apply elem_of_app. left. by apply geom_col_of_elem. }
  { rewrite Hcols. apply elem_of_app. by left. }
  { rewrite Hcols. apply elem_of_app. right. left. }
  assert (summary = tab_departments out) as -> by congruence.
  pose proof (dept_summary_total _ _ _ (geom_col_of_not_count districts) Hscols Hperm)
    as Htotal.
  exists out. split_and!; [done|done|].
  intros Hnamed. rewrite Htotal. unfold counts. to_fmap.
  rewrite filter_all; [done|].
  apply Forall_forall. intros r [i Hi]%list_elem_of_lookup_1.
  destruct (Forall2_lookup_r _ _ _ _ _ Hrows Hi) as (d & Hd' & _ & Hsame & _).
  rewrite (Hsame DEPARTAMEN Hdep).
  apply list_elem_of_lookup_2 in Hd'.
  by apply (proj1 (Forall_forall _ _) Hnamed d).
Qed.

Lemma department_total_zero (dc : frame) name :
  (forall r : row, r ∈ rows dc ->
     field DEPARTAMEN dc r.2 = name -> field N_HOSPITALS dc r.2 = Num (Int 0)) ->
  department_total dc name = 0%Z.
Proof.
  unfold department_total. generalize (rows dc). intros l Hzero.
  induction l as [|r l IH]; [done|].
  rewrite filter_cons. case_decide as Hr.
  - rewrite fmap_cons. unfold sum_Z in *. simpl foldr.
    rewrite (Hzero r) by (done || left). simpl.
    apply IH. intros r' Hr'. apply Hzero. by right.
  - apply IH. intros r' Hr'. apply Hzero. by right.
Qed.

(** C4. Every department name of the district table is the index of
    exactly one row of the department summary, and that row carries the sum
    of the counts of the department's districts: 0, not an absent row, when
    all of them are 0. *)
Theorem every_department_once (gdf districts : frame) :
  well_formed districts ->
  DISTRITO ∈ columns gdf ->
  DISTRITO ∈ columns districts ->
  DEPARTAMEN ∈ columns districts ->
  PROVINCIA ∈ columns districts ->
  geometry_lower ∈ columns districts \/ GEOMETRY ∈ columns districts ->
  N_HOSPITALS ∉ columns districts ->
  exists out,
    tab2 gdf districts = Ok out
    /\ (forall (d : row) (name : value),
          d ∈ rows districts ->
          field DEPARTAMEN districts d.2 = name ->
          name <> NaN ->
          exists geo,
            filter (fun r : row => r.1 = name) (rows (tab_departments out))
            = [(name, [geo; Num (Int (department_total (tab_districts out) name))])])
    /\ (forall name,
          (forall r : row, r ∈ rows (tab_districts out) ->
             field DEPARTAMEN (tab_districts out) r.2 = name ->
             field N_HOSPITALS (tab_districts out) r.2 = Num (Int 0)) ->
          department_total (tab_districts out) name = 0%Z).
Proof.
  intros Hwf Hh Hd Hdep Hprov Hgeo Hfresh.
  destruct (tab2_Ok gdf districts) as (out & Hout & Hdc & Hsum); [done..|].
  destruct (districts_copy_fields gdf districts) as (dc & Hdc' & Hcols & Hrows); [done..|].
  assert (dc = tab_districts out) as -> by congruence.
  destruct (dept_summary_rows (geom_col_of districts) (tab_districts out))
    as (summary & Hsum' & Hscols & Hperm).
  { rewrite Hcols. apply elem_of_app. left. by apply geom_col_of_elem. }
  { rewrite Hcols. apply elem_of_app. by left. }
  { rewrite Hcols. apply elem_of_app. right. left. }
  assert (summary = tab_departments out) as -> by congruence.
  exists out. split_and!; [done| |].
  - intros d name [i Hi]%list_elem_of_lookup_1 Hname Hnn.
    destruct (Forall2_lookup_l _ _ _ _ _ Hrows Hi) as (r & Hr & _ & Hsame & _).
    assert (Hkey : name ∈ department_keys (tab_districts out)).
    { apply department_keys_spec. split; [done|]. exists r.
      split; [by eapply list_elem_of_lookup_2|]. by rewrite (Hsame DEPARTAMEN Hdep). }
    exists (Geo (department_shape (geom_col_of districts) (tab_districts out) name)).
    apply Permutation_singleton_r.
    rewrite Hperm, filter_fmap.
    rewrite (list_filter_iff _ (fun k => k = name)) by done.
    rewrite filter_eq_NoDup by apply NoDup_remove_dups.
    by rewrite decide_True.
  - intros name Hzero. by apply department_total_zero.
Qed.

(** *** Loader *)

Lemma load_data_body_reads (s s' : session) v :
  load_data_body s = (Ok v, s') ->
  files s' = files s /\ cache s' = cache s
  /\ reads s' = reads s ++ [IPRESS_csv; DISTRITOS_shp; CCPP_shp].
Proof.
  unfold load_data_body, read. simpl.
  destruct (files s IPRESS_csv); [|done].
  destruct (files s DISTRITOS_shp) as [f2|]; [|done].
  destruct (to_crs f2); [|done].
  destruct (files s CCPP_shp) as [f3|]; [|done].
  destruct (to_crs f3); [|done].
  intros [= <- <-]. simpl. by rewrite <- !app_assoc.
Qed.

(** C8. Once an invocation of the load has returned its three datasets,
    every later invocation in the session returns the same three datasets
    and leaves the session as it is, the record of storage reads included:
    the value comes from the cache, whatever storage holds by then.  The
    first invocation is the only one that reads, each file once. *)
Theorem load_data_memoized (s s1 : session) (v : frame * frame * frame) :
  load_data s = (Ok v, s1) ->
  load_data s1 = (Ok v, s1)
  /\ (forall fs n,
        Nat.iter n (fun st => (load_data st).2) (mkSession fs (reads s1) (cache s1))
        = mkSession fs (reads s1) (cache s1)
        /\ (load_data (mkSession fs (reads s1) (cache s1))).1 = Ok v)
  /\ (cache s = None -> reads s1 = reads s ++ [IPRESS_csv; DISTRITOS_shp; CCPP_shp])
  /\ (cache s <> None -> s1 = s).
Proof.
  intros Hload.
  assert (Hcache : cache s1 = Some v).
  { unfold load_data in Hload. destruct (cache s) as [v'|] eqn:Hc.
    - injection Hload as <- <-. done.
    - destruct (load_data_body s) as [[v'|e] s']; [|done].
      by injection Hload as <- <-. }
  assert (Hagain : forall fs,
    load_data (mkSession fs (reads s1) (cache s1))
    = (Ok v, mkSession fs (reads s1) (cache s1))).
  { intros fs. unfold load_data. simpl. by rewrite Hcache. }
  split_and!.
  - unfold load_data. by rewrite Hcache.
  - intros fs n. split; [|by rewrite Hagain].
    induction n as [|n IH]; [done|]. simpl. by rewrite IH, Hagain.
  - intros Hnone. unfold load_data in Hload. rewrite Hnone in Hload.
    destruct (load_data_body s) as [[v'|e] s'] eqn:Hbody; [|done].
    injection Hload as <- <-. simpl.
    by destruct (load_data_body_reads _ _ _ Hbody) as (_ & _ & ?).
  - intros Hsome. unfold load_data in Hload.
    destruct (cache s); [|done]. by injection Hload as <- <-.
Qed.

(** ** Further properties of the script *)

(** *** The name column (line 32) *)

(** X1. The name column is the leftmost label that contains
    ESTABLECIMIENTO: no label before it contains the marker, and the lookup
    raises IndexError exactly when no label does. *)
Theorem name_column_is_leftmost (df : frame) :
  match hospital_name_col df with
  | Ok c =>
      exists before after,
        columns df = before ++ c :: after
        /\ contains ESTABLECIMIENTO c = true
        /\ Forall (fun l => contains ESTABLECIMIENTO l = false) before
  | Raise e =>
      e = IndexError
      /\ Forall (fun l => contains ESTABLECIMIENTO l = false) (columns df)
  end.
Proof.
  unfold hospital_name_col. induction (columns df) as [|l cols IH].
  - simpl. by split.
  - rewrite filter_cons. destruct (decide (contains ESTABLECIMIENTO l = true)) as [Hl|Hl].
    + exists [], cols. by split_and!.
    + apply not_true_is_false in Hl.
      destruct (filter _ cols) as [|c cs].
      * destruct IH as [_ IH]. split; [done|]. by constructor.
      * destruct IH as (before & after & -> & Hc & Hbefore).
        exists (l :: before), after. split_and!; [done|done|]. by constructor.
Qed.

(** *** Column selection *)

Lemma project_rows cs (df out : frame) :
  Forall (fun c => ~ repeated c (columns df)) cs ->
  project cs df = Ok out ->
  (forall c, c ∈ cs -> c ∈ columns df)
  /\ columns out = cs
  /\ rows out
     = (fun r : row =>
          (r.1, (fun c => cell_at (default 0%nat (index_of c (columns df))) r.2) <$> cs))
         <$> rows df.
Proof.
  intros Honce Hout.
  assert (Hin : forall c, c ∈ cs -> c ∈ columns df).
  { revert Hout. unfold project. destruct (filter _ cs) as [|c miss] eqn:Hf; [|done].
    intros _ c Hc. destruct (decide (c ∈ columns df)) as [|Hn]; [done|].
    assert (c ∈ filter (fun c => c ∉ columns df) cs) as Hin
      by (by apply list_elem_of_filter).
    rewrite Hf in Hin. by apply elem_of_nil in Hin. }
  rewrite (project_once cs df Hin Honce) in Hout. injection Hout as <-.
  split_and!; [done|done|by to_fmap].
Qed.

Lemma project_missing cs (df : frame) :
  filter (fun c => c ∉ columns df) cs <> [] ->
  project cs df = Raise (KeyError (filter (fun c => c ∉ columns df) cs)).
Proof. unfold project. by destruct (filter _ cs). Qed.

(** The cells of a projected row are the cells of the row it comes from. *)
Lemma project_fields cs (df out : frame) :
  Forall (fun c => ~ repeated c (columns df)) cs ->
  project cs df = Ok out ->
  Forall2 (fun r s : row => s.1 = r.1 /\ same_fields cs df out r.2 s.2)
    (rows df) (rows out).
Proof.
  intros Honce (Hin & Hcols & Hrows)%project_rows; [|done]. rewrite Hrows.
  apply Forall2_fmap_r, Forall_Forall2_diag, Forall_forall. intros r _. simpl.
  split; [done|]. intros c Hc. unfold field at 1. rewrite Hcols.
  destruct (index_of_elem _ _ Hc) as [j Hj]. rewrite Hj.
  apply index_of_Some in Hj. unfold cell_at at 1.
  rewrite list_lookup_fmap, Hj. simpl.
  unfold field. destruct (index_of_elem _ _ (Hin c Hc)) as [i Hi]. by rewrite Hi.
Qed.

(** The labels of a selection: each listed label once per column that
    carries it. *)
Lemma project_labels cs (df out : frame) :
  project cs df = Ok out ->
  (forall c, c ∈ cs -> c ∈ columns df)
  /\ columns out
     = flat_map (fun c => replicate (length (positions c (columns df))) c) cs.
Proof.
  unfold project. destruct (filter _ cs) as [|c miss] eqn:Hf; [|done].
  intros [= <-]. split.
  - intros c Hc. destruct (decide (c ∈ columns df)) as [|Hn]; [done|].
    assert (c ∈ filter (fun c => c ∉ columns df) cs) as Hin
      by (by apply list_elem_of_filter).
    rewrite Hf in Hin. by apply elem_of_nil in Hin.
  - simpl. clear Hf. induction cs as [|c cs IH]; [done|].
    cbn [flat_map]. rewrite map_app, IH. f_equal.
    induction (positions c (columns df)) as [|i l IHl]; [done|].
    simpl. by rewrite IHl.
Qed.

Lemma labels_NoDup (cs cols : list pystr) :
  (forall c, c ∈ cs -> c ∈ cols) ->
  NoDup (flat_map (fun c => replicate (length (positions c cols)) c) cs) ->
  NoDup cs /\ Forall (fun c => ~ repeated c cols) cs.
Proof.
  induction cs as [|c cs IH]; intros Hin Hnd.
  - split; constructor.
  - cbn [flat_map] in Hnd.
    destruct (index_of_elem c cols) as [i Hi]; [apply Hin; left|].
    destruct (positions_from_head 0 c cols i Hi) as [rest Hrest].
    pose proof (length_positions_from 0 c cols) as Hlen.
    fold (positions c cols) in Hrest, Hlen. rewrite Hrest in Hnd, Hlen.
    simpl in Hnd. apply NoDup_cons in Hnd as [Hc Hnd].
    apply NoDup_app in Hnd as (_ & _ & Hnd).
    destruct IH as [IH1 IH2]; [by intros c' Hc'; apply Hin; right|done|].
    assert (Hrest0 : rest = []).
    { destruct rest; [done|]. exfalso. apply Hc. simpl. left. }
    split.
    + apply NoDup_cons. split; [|done]. intros Hccs. apply Hc.
      apply elem_of_app. right. apply list_elem_of_In, in_flat_map.
      exists c. split; [by apply list_elem_of_In|].
      rewrite Hrest. simpl. by left.
    + constructor; [|done]. unfold repeated. rewrite <- Hlen, Hrest0. simpl. lia.
Qed.

(** *** The preview of the first tab (lines 72-75) *)

(** X2. The preview of the first tab raises no KeyError, whatever columns
    the enriched table has: it fails only when one of the labels it shows
    is carried by several columns (or is listed twice), with the
    ValueError of [st.dataframe].  Otherwise it reports the number of rows
    and shows the first five rows (fewer when there are fewer) under those
    of the five labels of line 74 that the table has, with the cells the
    table holds. *)
Theorem tab1_preview_or_value_error (name_col : pystr) (gdf : frame) :
  (NoDup (cols_to_show name_col gdf)
   /\ Forall (fun c => ~ repeated c (columns gdf)) (cols_to_show name_col gdf) ->
   exists shown,
     tab1 name_col gdf = Ok (length (rows gdf), shown)
     /\ columns shown = cols_to_show name_col gdf
     /\ (forall c, c ∈ columns shown <->
           c ∈ [INSTITUCION; name_col; DEPARTAMENTO; PROVINCIA; DISTRITO]
           /\ c ∈ columns gdf)
     /\ length (rows shown) = (length (rows gdf) `min` 5)%nat
     /\ Forall2 (fun r s : row =>
          s.1 = r.1 /\ same_fields (columns shown) gdf shown r.2 s.2)
        (take 5 (rows gdf)) (rows shown))
  /\ (~ (NoDup (cols_to_show name_col gdf)
         /\ Forall (fun c => ~ repeated c (columns gdf)) (cols_to_show name_col gdf)) ->
      tab1 name_col gdf = Raise ValueError).
Proof.
  assert (Hin : forall c, c ∈ cols_to_show name_col gdf -> c ∈ columns gdf).
  { unfold cols_to_show. by intros c [? _]%list_elem_of_filter. }
  destruct (project_Ok (cols_to_show name_col gdf) gdf Hin) as [out Hout].
  unfold tab1. rewrite Hout. simpl. split.
  - intros [Hnd Honce].
    pose proof (project_fields _ _ _ Honce Hout) as Hfields.
    destruct (project_rows _ _ _ Honce Hout) as (_ & Hcols & Hrows).
    rewrite st_dataframe_Ok by (simpl; by rewrite Hcols). simpl.
    eexists. split; [done|]. simpl. split_and!.
    + done.
    + intros c. rewrite Hcols. unfold cols_to_show. rewrite list_elem_of_filter.
      split; intros [? ?]; by split.
    + rewrite length_take, Hrows, length_fmap. lia.
    + apply Forall2_take. eapply Forall2_impl; [exact Hfields|].
      intros r s [Hi Hsame]. split; [done|]. intros c Hc.
      unfold field at 1. simpl. rewrite Hcols in Hc.
      specialize (Hsame c Hc). unfold field at 1 in Hsame. done.
  - intros Hbad. unfold st_dataframe. simpl. rewrite decide_False; [done|].
    intros Hnd. apply Hbad. destruct (project_labels _ _ _ Hout) as [_ Hlabels].
    rewrite Hlabels in Hnd. by apply labels_NoDup.
Qed.

(** *** The enriched table (lines 32-55) *)

Lemma enrich_inv (df gdf : frame) name :
  enrich df = Ok (name, gdf) ->
  hospital_name_col df = Ok name
  /\ exists operational,
       hospitals_operational df = Ok operational /\ hospitals_gdf operational = Ok gdf.
Proof.
  unfold enrich. destruct (hospital_name_col df) as [c|]; simpl; [|done].
  destruct (hospitals_operational df) as [op|]; simpl; [|done].
  destruct (hospitals_gdf op) as [g|] eqn:Hg; simpl; [|done].
  intros [= <- <-]. split; [done|]. by exists op.
Qed.

Lemma assign_well_formed c f (df : frame) :
  well_formed df -> well_formed (assign c f df).
Proof.
  intros [Hnd Hrect]. split.
  - unfold assign. destruct (index_of c (columns df)) as [i|] eqn:Hi; simpl; [done|].
    apply index_of_None in Hi. apply NoDup_app. split_and!; [done| |apply NoDup_singleton].
    intros x Hx ->%list_elem_of_singleton. done.
  - rewrite rows_assign. apply Forall_fmap, Forall_forall. intros r Hr. simpl.
    pose proof (proj1 (Forall_forall _ _) Hrect r Hr) as Hlen. simpl in Hlen.
    unfold assign, assign_row. destruct (index_of c (columns df)); simpl.
    + by rewrite length_insert.
    + rewrite !length_app, Hlen. done.
Qed.

(** A row of the enriched table, traced back to the row it comes from. *)
Lemma enriched_row_origin (df operational gdf : frame) i r' :
  well_formed df ->
  hospitals_operational df = Ok operational ->
  hospitals_gdf operational = Ok gdf ->
  (i, r') ∈ rows gdf ->
  exists r x y,
    (i, r) ∈ rows df /\ qualifies df r
    /\ to_numeric (field ESTE df r) = Num x
    /\ to_numeric (field NORTE df r) = Num y
    /\ field ESTE gdf r' = Num x
    /\ field NORTE gdf r' = Num y
    /\ field geometry_lower gdf r' = Geo (Point x y)
    /\ (forall c, c ∈ columns df -> c <> NORTE -> c <> ESTE -> c <> geometry_lower ->
          field c gdf r' = field c df r).
Proof.
  intros Hwf Hop Hgdf Hr'.
  destruct (hospitals_operational_Ok_inv _ _ Hop) as (iC & iN & iE & HC & HN & HE).
  pose proof (hospitals_operational_Ok _ _ Hop) as Hrows.
  apply hospitals_gdf_Ok_inv in Hgdf as (jE & jN & HjE & HjN & ->).
  assert (Hcols : columns operational = columns df) by (rewrite Hrows; done).
  rewrite Hcols in HjE, HjN.
  assert (jE = iE) as -> by congruence. assert (jN = iN) as -> by congruence.
  rewrite rows_assign in Hr'.
  apply list_elem_of_fmap in Hr' as ([j r1] & [= -> ->] & Hr1).
  rewrite Hrows in Hr1. simpl in Hr1.
  apply list_elem_of_fmap in Hr1 as ([k r0] & [= -> ->] & [Hq Hr0]%list_elem_of_filter).
  simpl in *.
  destruct (coerced_cells df iN iE r0 HN HE) as (_ & HcN & HcE & Hother).
  assert (Hlen : length (coerced df r0) = length (columns operational)).
  { rewrite Hcols, length_coerced. destruct Hwf as [_ Hrect].
    by apply (proj1 (Forall_forall _ _) Hrect (k, r0)). }
  destruct (gdf_row_fields operational iE iN (coerced df r0) Hlen) as (H1 & H2 & H3);
    [by rewrite Hcols..|].
  rewrite HcE, HcN in *.
  pose proof Hq as (_ & HqN & HqE & _). unfold coerces in HqN, HqE.
  destruct (to_numeric_Num _ HqN) as [y Hy], (to_numeric_Num _ HqE) as [x Hx].
  assert (HfN : field NORTE df r0 = cell_at iN r0) by (unfold field; by rewrite HN).
  assert (HfE : field ESTE df r0 = cell_at iE r0) by (unfold field; by rewrite HE).
  exists r0, x, y. rewrite <- HfE, <- HfN in *. rewrite Hx, Hy in *.
  split_and!; try done.
  intros c Hc HcN' HcE' Hcg.
  rewrite field_assign_row_ne by done.
  rewrite (field_ext c operational df _ Hcols). unfold field.
  destruct (index_of_elem _ _ Hc) as [j Hj]. rewrite Hj. apply Hother.
  - intros ->. by pose proof (index_of_inj _ _ _ _ Hj HN).
  - intros ->. by pose proof (index_of_inj _ _ _ _ Hj HE).
Qed.

Lemma hospital_name_col_elem (df : frame) c :
  hospital_name_col df = Ok c -> c ∈ columns df.
Proof.
  unfold hospital_name_col.
  destruct (filter _ (columns df)) as [|c' cs] eqn:Hf; [done|].
  intros [= <-].
  assert (c' ∈ filter (fun c => contains ESTABLECIMIENTO c = true) (columns df))
    as [_ Hc]%list_elem_of_filter by (rewrite Hf; left).
  done.
Qed.

(** X3. Enriching touches the two coordinate columns and the geometry
    column only: every enriched row comes from an input row with the same
    index label and the same cells under every other label; the labels stay
    as they are, with [geometry] appended when the table had no such
    column; the name column is one of them; and the enriched table is a
    well-formed frame again. *)
Theorem enrich_changes_only_coordinates (df gdf : frame) (name : pystr) :
  well_formed df ->
  enrich df = Ok (name, gdf) ->
  well_formed gdf
  /\ columns gdf
     = (if decide (geometry_lower ∈ columns df) then columns df
        else columns df ++ [geometry_lower])
  /\ name ∈ columns df
  /\ name ∈ columns gdf
  /\ (forall i r', (i, r') ∈ rows gdf ->
        exists r, (i, r) ∈ rows df
          /\ forall c, c ∈ columns df -> c <> NORTE -> c <> ESTE -> c <> geometry_lower ->
                field c gdf r' = field c df r).
Proof.
  intros Hwf (Hname & op & Hop & Hgdf)%enrich_inv.
  pose proof (hospitals_operational_Ok _ _ Hop) as Hrows.
  assert (Hcols : columns op = columns df) by (rewrite Hrows; done).
  assert (Hwfop : well_formed op).
  { split; [rewrite Hcols; apply Hwf|].
    rewrite Hcols, Hrows. simpl. by apply operational_rows_length. }
  destruct (hospitals_gdf_Ok_inv _ _ Hgdf) as (jE & jN & _ & _ & Hg).
  assert (Hgcols : columns gdf
     = (if decide (geometry_lower ∈ columns df) then columns df
        else columns df ++ [geometry_lower])).
  { rewrite Hg. unfold assign. rewrite Hcols. case_decide as Hin.
    - destruct (index_of_elem _ _ Hin) as [j ->]. simpl. by rewrite ?Hcols.
    - apply index_of_None in Hin. rewrite Hin. simpl. by rewrite ?Hcols. }
  pose proof (hospital_name_col_elem _ _ Hname) as Hn.
  split_and!.
  - rewrite Hg. by apply assign_well_formed.
  - done.
  - done.
  - rewrite Hgcols. case_decide; [done|]. apply elem_of_app. by left.
  - intros i r' Hr'.
    destruct (enriched_row_origin df op gdf i r' Hwf Hop Hgdf Hr')
      as (r & x & y & Hr & _ & _ & _ & _ & _ & _ & Hsame).
    by exists r.
Qed.

(** *** The markers of the third tab (lines 157-162) *)

(** X4. On an enriched table the marker loop never raises: it gives one
    marker per enriched row, in order, placed at latitude = the row's
    coerced NORTE and longitude = its coerced ESTE, with the [str] of the
    row's name cell as popup. *)
Theorem markers_follow_coordinates (py_str : value -> pystr) (df gdf : frame)
    (name : pystr) :
  well_formed df ->
  enrich df = Ok (name, gdf) ->
  exists ms,
    markers py_str name gdf = Ok ms
    /\ Forall2 (fun (r : row) m =>
         exists x y,
           field ESTE gdf r.2 = Num x /\ field NORTE gdf r.2 = Num y
           /\ location m = (y, x)
           /\ popup m = py_str (field name gdf r.2))
       (rows gdf) ms.
Proof.
  intros Hwf (Hnamecol & op & Hop & Hgdf)%enrich_inv.
  assert (Hname : name ∈ columns gdf).
  { destruct (hospitals_gdf_Ok_inv _ _ Hgdf) as (jE & jN & _ & _ & ->).
    assert (Hne : name <> geometry_lower).
    { intros ->. pose proof (hospital_name_col_cases df) as [_ Hno].
      unfold hospital_name_col in Hnamecol.
      destruct (filter _ (columns df)) as [|c' cs] eqn:Hf; [done|].
      injection Hnamecol as ->.
      assert (geometry_lower
                ∈ filter (fun c => contains ESTABLECIMIENTO c = true) (columns df))
        as [Hc _]%list_elem_of_filter by (rewrite Hf; left).
      by vm_compute in Hc. }
    apply elem_columns_assign; [done|].
    rewrite (hospitals_operational_Ok _ _ Hop). simpl.
    by apply hospital_name_col_elem. }
  assert (Hrow : forall i r', (i, r') ∈ rows gdf ->
    exists x y, field ESTE gdf r' = Num x /\ field NORTE gdf r' = Num y
      /\ field geometry_lower gdf r' = Geo (Point x y)).
  { intros i r' Hr'.
    destruct (enriched_row_origin df op gdf i r' Hwf Hop Hgdf Hr')
      as (r & x & y & _ & _ & _ & _ & ? & ? & ? & _).
    by exists x, y. }
  destruct (index_of_elem _ _ Hname) as [j Hj].
  unfold markers. revert Hrow. generalize (rows gdf). intros rs.
  induction rs as [|[i r] rs IH]; intros Hrow.
  - exists []. by split.
  - destruct (Hrow i r) as (x & y & HfE & HfN & Hgeo); [left|].
    destruct IH as (ms & Hms & Hall).
    { intros i' r' Hr'. apply (Hrow i'). by right. }
    simpl. unfold marker_of. unfold field in Hgeo.
    destruct (index_of geometry_lower (columns gdf)) as [g|]; [|done].
    rewrite Hgeo, (col_pos_Ok _ _ _ Hj). simpl. rewrite Hms. simpl.
    eexists. split; [done|]. constructor; [|done].
    exists x, y. simpl. split_and!; try done. unfold field. by rewrite Hj.
Qed.

(** *** The counts per district name (line 87) *)

Lemma fmap_on_snd {A B C} (f : B -> C) (l : list (A * B)) :
  (fun r => f r.2) <$> l = f <$> l.*2.
Proof. by rewrite <- list_fmap_compose. Qed.

Lemma sum_Z_ones {A} (l : list A) : sum_Z ((fun _ => 1%Z) <$> l) = Z.of_nat (length l).
Proof. induction l as [|x l IH]; [done|]. rewrite fmap_cons. unfold sum_Z in *. simpl. lia. Qed.

(** Counting group by group over distinct keys is counting the rows whose
    key is one of them. *)
Lemma count_by_keys (key : row -> value) (l : list row) (ks : list value) :
  NoDup ks ->
  sum_Z ((fun k => Z.of_nat (length (filter (fun r => key r = k) l))) <$> ks)
  = Z.of_nat (length (filter (fun r => key r ∈ ks) l)).
Proof.
  intros Hks. rewrite <- sum_Z_ones, <- (group_sums key (fun _ => 1%Z) l ks Hks).
  f_equal. apply list_fmap_ext. intros i k _. by rewrite sum_Z_ones.
Qed.

Lemma hospitals_in_filter (gdf : frame) name :
  hospitals_in gdf name
  = length (filter (fun r : row => field DISTRITO gdf r.2 = name)
              (filter (fun r : row => field DISTRITO gdf r.2 <> NaN) (rows gdf))).
Proof.
  unfold hospitals_in. rewrite list_filter_filter. f_equal.
  apply list_filter_iff. intros r. tauto.
Qed.

Lemma groupby_size_rows (by_ name : pystr) (df : frame) k :
  index_of by_ (columns df) = Some k ->
  groupby_size by_ name df =
  Ok (mkDataFrame [by_; name]
        (reindex ((fun key =>
           [key; Num (Int (Z.of_nat (length
              (filter (fun r : row => cell_at k r.2 = key) (rows df)))))])
           <$> remove_dups (filter (fun c : value => c <> NaN)
                 ((fun r : row => cell_at k r.2) <$> rows df))))).
Proof. intros Hk. unfold groupby_size. rewrite (col_pos_Ok _ _ _ Hk). simpl. by to_fmap. Qed.

(** X5. The counts of line 87 split the enriched rows that have a district
    name: there is one count row per distinct name, none for a missing
    name, each count is the number of enriched rows with that name and is
    at least 1, and the counts add up to the number of enriched rows whose
    district name is not missing. *)
Theorem hospital_counts_partition (gdf : frame) :
  DISTRITO ∈ columns gdf ->
  exists hosp_count,
    groupby_size DISTRITO N_HOSPITALS gdf = Ok hosp_count
    /\ columns hosp_count = [DISTRITO; N_HOSPITALS]
    /\ NoDup ((fun r : row => field DISTRITO hosp_count r.2) <$> rows hosp_count)
    /\ Forall (fun r : row =>
         field DISTRITO hosp_count r.2 <> NaN
         /\ field N_HOSPITALS hosp_count r.2
            = Num (Int (Z.of_nat (hospitals_in gdf (field DISTRITO hosp_count r.2))))
         /\ (0 < hospitals_in gdf (field DISTRITO hosp_count r.2))%nat)
       (rows hosp_count)
    /\ (forall name, name <> NaN -> (0 < hospitals_in gdf name)%nat ->
          name ∈ (fun r : row => field DISTRITO hosp_count r.2) <$> rows hosp_count)
    /\ sum_Z (counts hosp_count)
       = Z.of_nat (length (filter (fun r : row => field DISTRITO gdf r.2 <> NaN)
                            (rows gdf))).
Proof.
  intros [k Hk]%index_of_elem.
  rewrite (groupby_size_rows _ _ _ _ Hk). eexists. split; [done|].
  set (keys := remove_dups _).
  set (cnt := fun key : value => _ : list value).
  set (hc := mkDataFrame _ _).
  assert (Hkey : forall r, field DISTRITO gdf r = cell_at k r).
  { intros r. unfold field. by rewrite Hk. }
  assert (Hkeys : forall key, key ∈ keys <->
    key <> NaN /\ exists r : row, r ∈ rows gdf /\ cell_at k r.2 = key).
  { intros key. unfold keys. rewrite elem_of_remove_dups, list_elem_of_filter.
    rewrite list_elem_of_fmap. split.
    - intros [Hne (r & -> & Hr)]. split; [done|]. by exists r.
    - intros [Hne (r & Hr & <-)]. split; [done|]. by exists r. }
  assert (Hin : forall key, key <> NaN ->
    hospitals_in gdf key = length (filter (fun r : row => cell_at k r.2 = key) (rows gdf))).
  { intros key Hne. unfold hospitals_in. f_equal. apply list_filter_iff.
    intros r. rewrite Hkey. split; [by intros [_ ?]|]. intros Hr. by rewrite Hr. }
  assert (HfD : forall key, field DISTRITO hc (cnt key) = key).
  { intros key. unfold field. simpl columns. by rewrite index_of_head. }
  assert (HfN : forall key, field N_HOSPITALS hc (cnt key)
    = Num (Int (Z.of_nat (length (filter (fun r : row => cell_at k r.2 = key) (rows gdf)))))).
  { intros key. unfold field. simpl columns.
    change [DISTRITO; N_HOSPITALS] with ([DISTRITO] ++ [N_HOSPITALS]).
    rewrite (index_of_app_new N_HOSPITALS [DISTRITO]); [done|].
    rewrite list_elem_of_singleton. done. }
  assert (Hrows : (rows hc).*2 = cnt <$> keys) by apply reindex_snd.
  assert (Hnames : (fun r : row => field DISTRITO hc r.2) <$> rows hc = keys).
  { rewrite (fmap_on_snd (field DISTRITO hc)), Hrows.
    rewrite <- list_fmap_compose. rewrite <- (list_fmap_id keys) at 2.
    apply list_fmap_ext. intros i key _. apply HfD. }
  split_and!.
  - done.
  - rewrite Hnames. apply NoDup_remove_dups.
  - apply (Forall_fmap snd (fun r => field DISTRITO hc r <> NaN
      /\ field N_HOSPITALS hc r = Num (Int (Z.of_nat (hospitals_in gdf (field DISTRITO hc r))))
      /\ (0 < hospitals_in gdf (field DISTRITO hc r))%nat)).
    rewrite Hrows. apply Forall_fmap, Forall_forall. intros key Hkey'. simpl.
    rewrite HfD, HfN. apply Hkeys in Hkey' as [Hne (r & Hr & Hrk)].
    rewrite (Hin key Hne). split_and!; [done|done|].
    destruct (filter _ (rows gdf)) as [|r' rs] eqn:Hf; [|simpl; lia].
    assert (r ∈ filter (fun r : row => cell_at k r.2 = key) (rows gdf)) as Hrin
      by (by apply list_elem_of_filter).
    rewrite Hf in Hrin. by apply elem_of_nil in Hrin.
  - intros name Hne Hpos. rewrite Hnames. apply Hkeys. split; [done|].
    rewrite (Hin name Hne) in Hpos.
    destruct (filter _ (rows gdf)) as [|r rs] eqn:Hf; [simpl in Hpos; lia|].
    assert (r ∈ filter (fun r : row => cell_at k r.2 = name) (rows gdf))
      as [Hr Hrin]%list_elem_of_filter by (rewrite Hf; left).
    by exists r.
  - unfold counts. to_fmap.
    rewrite (fmap_on_snd (fun r => count_of (field N_HOSPITALS hc r))), Hrows.
    rewrite <- list_fmap_compose.
    rewrite (list_fmap_ext _
      (fun key => Z.of_nat (length (filter (fun r : row => cell_at k r.2 = key) (rows gdf))))
      keys) by (intros i key _; unfold compose; rewrite HfN; done).
    rewrite (count_by_keys (fun r : row => cell_at k r.2)) by apply NoDup_remove_dups.
    do 2 f_equal. apply filter_ext_in. intros r Hr. rewrite Hkeys, Hkey.
    split; [by intros [? _]|]. intros Hn. split; [done|]. by exists r.
Qed.

(** *** The joined district table (lines 84-99) *)

Lemma Forall2_fmap_eq {A B C} (g : B -> C) (h : A -> C) (l : list A) (k : list B) :
  Forall2 (fun a b => g b = h a) l k -> g <$> k = h <$> l.
Proof. induction 1 as [|a b l k Hab _ IH]; [done|]. by rewrite !fmap_cons, Hab, IH. Qed.

Lemma districts_copy_counts (gdf districts dc : frame) :
  Forall2 (fun (d r : row) =>
       r.2 = d.2 ++ [Num (Int (Z.of_nat (hospitals_in gdf (field DISTRITO districts d.2))))]
       /\ (forall c, c ∈ columns districts -> field c dc r.2 = field c districts d.2)
       /\ field N_HOSPITALS dc r.2
          = Num (Int (Z.of_nat (hospitals_in gdf (field DISTRITO districts d.2)))))
     (rows districts) (rows dc) ->
  counts dc = (fun name => Z.of_nat (hospitals_in gdf name)) <$> district_names districts.
Proof.
  intros Hrows. unfold counts, district_names. to_fmap.
  rewrite <- list_fmap_compose. apply Forall2_fmap_eq.
  eapply Forall2_impl; [exact Hrows|]. intros d r (_ & _ & Hn). simpl. by rewrite Hn.
Qed.

(** X6. When the district table names every district once, the counts of
    the joined district rows add up to the number of enriched rows whose
    district name is one of the table's names: an enriched row whose name
    is missing or is no district of the table is counted in no row, so the
    counts add up to at most the number of enriched rows. *)
Theorem district_counts_add_up (gdf districts : frame) :
  well_formed districts ->
  DISTRITO ∈ columns gdf ->
  DISTRITO ∈ columns districts ->
  geometry_lower ∈ columns districts \/ GEOMETRY ∈ columns districts ->
  N_HOSPITALS ∉ columns districts ->
  NoDup (district_names districts) ->
  exists dc,
    districts_copy gdf districts = Ok dc
    /\ sum_Z (counts dc)
       = Z.of_nat (length (filter (fun h : row =>
                     field DISTRITO gdf h.2 <> NaN
                     /\ field DISTRITO gdf h.2 ∈ district_names districts) (rows gdf)))
    /\ (sum_Z (counts dc) <= Z.of_nat (length (rows gdf)))%Z.
Proof.
  intros Hwf Hh Hd Hgeo Hfresh Hnames.
  destruct (districts_copy_fields gdf districts) as (dc & Hdc & _ & Hrows); [done..|].
  exists dc. split; [done|].
  assert (Hsum : sum_Z (counts dc)
       = Z.of_nat (length (filter (fun h : row =>
                     field DISTRITO gdf h.2 <> NaN
                     /\ field DISTRITO gdf h.2 ∈ district_names districts) (rows gdf)))).
  { rewrite (districts_copy_counts _ _ _ Hrows).
    rewrite (list_fmap_ext _ (fun name => Z.of_nat (length
        (filter (fun r : row => field DISTRITO gdf r.2 = name)
           (filter (fun r : row => field DISTRITO gdf r.2 <> NaN) (rows gdf)))))
        (district_names districts))
      by (intros i name _; by rewrite hospitals_in_filter).
    rewrite (count_by_keys (fun r : row => field DISTRITO gdf r.2)) by done.
    rewrite list_filter_filter. do 2 f_equal. apply list_filter_iff. intros r. tauto. }
  split; [done|]. rewrite Hsum. apply inj_le, length_filter.
Qed.

(** *** What the second tab needs (lines 84-125) *)

Lemma groupby_size_Raise (by_ name : pystr) (df : frame) :
  by_ ∉ columns df -> groupby_size by_ name df = Raise (KeyError [by_]).
Proof. intros Hc. unfold groupby_size. by rewrite (col_pos_Raise _ _ Hc). Qed.

Lemma elem_of_delete_other {A} (l : list A) k x y :
  x ∈ l -> l !! k = Some y -> x <> y -> x ∈ delete k l.
Proof.
  intros [i Hi]%list_elem_of_lookup_1 Hk Hne.
  assert (i <> k) by (intros ->; congruence).
  destruct (decide (i < k)%nat).
  - apply (list_elem_of_lookup_2 _ i). by rewrite list_lookup_delete_lt.
  - apply (list_elem_of_lookup_2 _ (pred i)). rewrite list_lookup_delete_ge by lia.
    by replace (S (pred i)) with i by lia.
Qed.

Lemma app_suffix_ne (c sfx : pystr) : sfx <> [] -> c ++ sfx <> c.
Proof.
  intros Hs Heq. apply (f_equal length) in Heq. rewrite length_app in Heq.
  destruct sfx; [done|]. simpl in Heq. lia.
Qed.

(** A district table that already has a column N_HOSPITALS: the merge
    renames both count columns, and line 99 finds none. *)
Lemma merged_columns_without_count (districts : frame) kd (clash : list pystr) :
  index_of DISTRITO (columns districts) = Some kd ->
  N_HOSPITALS ∈ clash ->
  N_HOSPITALS ∉
    imap (fun j c => if decide (j = kd) then c else with_suffix clash suffix_x c)
      (columns districts)
    ++ [with_suffix clash suffix_y N_HOSPITALS].
Proof.
  intros Hkd Hclash. rewrite not_elem_of_app. split.
  - intros [j Hj]%list_elem_of_lookup_1. rewrite list_lookup_imap in Hj.
    destruct (columns districts !! j) as [c|] eqn:Hc; [|done]. simpl in Hj.
    injection Hj as Hj. case_decide as Hjk.
    + subst. apply index_of_Some in Hkd. rewrite Hkd in Hc. by injection Hc as <-.
    + unfold with_suffix in Hj. case_decide as Hin.
      * apply (f_equal reverse) in Hj. rewrite reverse_app in Hj.
        by vm_compute in Hj.
      * by subst.
  - rewrite list_elem_of_singleton. unfold with_suffix. rewrite decide_True by done.
    intros Heq. symmetry in Heq. by apply (app_suffix_ne N_HOSPITALS suffix_y) in Heq.
Qed.

Lemma districts_copy_raises (gdf districts : frame) :
  (DISTRITO ∉ columns gdf -> districts_copy gdf districts = Raise (KeyError [DISTRITO]))
  /\ (DISTRITO ∈ columns gdf ->
      ~ (geometry_lower ∈ columns districts \/ GEOMETRY ∈ columns districts) ->
      districts_copy gdf districts = Raise StopScript)
  /\ (DISTRITO ∈ columns gdf ->
      geometry_lower ∈ columns districts \/ GEOMETRY ∈ columns districts ->
      DISTRITO ∉ columns districts ->
      districts_copy gdf districts = Raise (KeyError [DISTRITO]))
  /\ (DISTRITO ∈ columns gdf ->
      geometry_lower ∈ columns districts \/ GEOMETRY ∈ columns districts ->
      DISTRITO ∈ columns districts ->
      N_HOSPITALS ∈ columns districts ->
      districts_copy gdf districts = Raise (KeyError [N_HOSPITALS])).
Proof.
  assert (Hgeom : geometry_lower ∈ columns districts \/ GEOMETRY ∈ columns districts ->
    exists g,
      (if decide (geometry_lower ∈ columns districts) then Ok geometry_lower
       else if decide (GEOMETRY ∈ columns districts) then Ok GEOMETRY
       else Raise StopScript) = Ok g).
  { intros Hgeo. destruct (decide (geometry_lower ∈ columns districts)); [by eexists|].
    destruct (decide (GEOMETRY ∈ columns districts)); [by eexists|]. tauto. }
  unfold districts_copy. split_and!.
  - intros Hh. by rewrite (groupby_size_Raise _ _ _ Hh).
  - intros [kh Hkh]%index_of_elem Hgeo. rewrite (groupby_size_rows _ _ _ _ Hkh). simpl.
    rewrite decide_False by tauto. rewrite decide_False by tauto. done.
  - intros [kh Hkh]%index_of_elem [g Hg]%Hgeom Hd.
    rewrite (groupby_size_rows _ _ _ _ Hkh). simpl. rewrite Hg. simpl.
    unfold merge_left. by rewrite (col_pos_Raise _ _ Hd).
  - intros [kh Hkh]%index_of_elem [g Hg]%Hgeom [kd Hkd]%index_of_elem Hn.
    rewrite (groupby_size_rows _ _ _ _ Hkh). simpl. rewrite Hg. simpl.
    unfold merge_left. rewrite (col_pos_Ok _ _ _ Hkd). simpl.
    rewrite (col_pos_Raise N_HOSPITALS (mkDataFrame _ _)); [done|]. simpl.
    apply (merged_columns_without_count districts kd); [done|].
    apply list_elem_of_filter. split; [left|].
    eapply elem_of_delete_other; [done|by apply index_of_Some|done].
Qed.

Lemma tab2_inv (gdf districts : frame) out :
  tab2 gdf districts = Ok out ->
  districts_copy gdf districts = Ok (tab_districts out)
  /\ zero_hosp (tab_districts out) = Ok (tab_zero out)
  /\ dept_summary (geom_col_of districts) (tab_districts out) = Ok (tab_departments out)
  /\ top10 (tab_districts out) = Ok (tab_top10 out).
Proof.
  unfold tab2. destruct (districts_copy gdf districts) as [dc|]; simpl; [|done].
  destruct (zero_hosp dc) as [zero|] eqn:Hzero; simpl; [|done].
  destruct (dept_summary (geom_col_of districts) dc) as [summary|] eqn:Hsum; simpl; [|done].
  destruct (project [N_HOSPITALS] summary) as [summary_counts|]; simpl; [|done].
  destruct (st_dataframe summary_counts); simpl; [|done].
  destruct (top10 dc) as [top|] eqn:Htop; simpl; [|done].
  by intros [= <-].
Qed.

(** Line 113 on the joined table: the labels it cannot find. *)
Lemma zero_hosp_missing (districts dc : frame) :
  columns dc = columns districts ++ [N_HOSPITALS] ->
  DISTRITO ∈ columns districts ->
  filter (fun c => c ∉ columns districts) [DEPARTAMEN; PROVINCIA] <> [] ->
  zero_hosp dc
  = Raise (KeyError (filter (fun c => c ∉ columns districts) [DEPARTAMEN; PROVINCIA])).
Proof.
  intros Hcols Hd Hmiss. unfold zero_hosp.
  assert (HinN : N_HOSPITALS ∈ columns dc).
  { rewrite Hcols. apply elem_of_app. right. left. }
  destruct (index_of_elem _ _ HinN) as [n Hn]. rewrite (col_pos_Ok _ _ _ Hn). simpl.
  assert (Hsame : filter (fun c => c ∉ columns dc) [DEPARTAMEN; PROVINCIA; DISTRITO]
                  = filter (fun c => c ∉ columns districts) [DEPARTAMEN; PROVINCIA]).
  { change [DEPARTAMEN; PROVINCIA; DISTRITO] with ([DEPARTAMEN; PROVINCIA] ++ [DISTRITO]).
    rewrite filter_app.
    rewrite (filter_none _ [DISTRITO]).
    - rewrite app_nil_r. apply filter_ext_in. intros c Hc. rewrite Hcols, elem_of_app.
      rewrite list_elem_of_singleton.
      revert Hc. rewrite !elem_of_cons, elem_of_nil. intros [->|[->|[]]]; split; tauto || (intros Hn' [?|?]; [tauto|done]).
    - intros c ->%list_elem_of_singleton Hn'. apply Hn'. rewrite Hcols.
      apply elem_of_app. by left. }
  rewrite project_missing; simpl; rewrite Hsame; [done|done].
Qed.

(** The failures of the second tab, in the order of the lines. *)
Lemma tab2_raises (gdf districts : frame) :
  well_formed districts ->
  (DISTRITO ∉ columns gdf -> tab2 gdf districts = Raise (KeyError [DISTRITO]))
  /\ (DISTRITO ∈ columns gdf ->
      ~ (geometry_lower ∈ columns districts \/ GEOMETRY ∈ columns districts) ->
      tab2 gdf districts = Raise StopScript)
  /\ (DISTRITO ∈ columns gdf ->
      geometry_lower ∈ columns districts \/ GEOMETRY ∈ columns districts ->
      DISTRITO ∉ columns districts ->
      tab2 gdf districts = Raise (KeyError [DISTRITO]))
  /\ (DISTRITO ∈ columns gdf ->
      geometry_lower ∈ columns districts \/ GEOMETRY ∈ columns districts ->
      DISTRITO ∈ columns districts ->
      N_HOSPITALS ∈ columns districts ->
      tab2 gdf districts = Raise (KeyError [N_HOSPITALS]))
  /\ (DISTRITO ∈ columns gdf ->
      geometry_lower ∈ columns districts \/ GEOMETRY ∈ columns districts ->
      DISTRITO ∈ columns districts ->
      N_HOSPITALS ∉ columns districts ->
      filter (fun c => c ∉ columns districts) [DEPARTAMEN; PROVINCIA] <> [] ->
      tab2 gdf districts
      = Raise (KeyError (filter (fun c => c ∉ columns districts) [DEPARTAMEN; PROVINCIA]))).
Proof.
  intros Hwf.
  destruct (districts_copy_raises gdf districts) as (E1 & E2 & E3 & E4).
  unfold tab2. split_and!.
  - intros H1. by rewrite (E1 H1).
  - intros H1 H2. by rewrite (E2 H1 H2).
  - intros H1 H2 H3. by rewrite (E3 H1 H2 H3).
  - intros H1 H2 H3 H4. by rewrite (E4 H1 H2 H3 H4).
  - intros H1 H2 H3 H4 H5.
    destruct (districts_copy_fields gdf districts) as (dc & -> & Hcols & _); [done..|].
    simpl. by rewrite (zero_hosp_missing districts dc Hcols H3 H5).
Qed.

(** The columns a run of the second tab that completes has found. *)
Lemma tab2_Ok_inv (gdf districts : frame) out :
  well_formed districts ->
  tab2 gdf districts = Ok out ->
  DISTRITO ∈ columns gdf
  /\ (geometry_lower ∈ columns districts \/ GEOMETRY ∈ columns districts)
  /\ DISTRITO ∈ columns districts
  /\ (N_HOSPITALS ∉ columns districts)
  /\ DEPARTAMEN ∈ columns districts
  /\ PROVINCIA ∈ columns districts.
Proof.
  intros Hwf Hout.
  destruct (tab2_raises gdf districts Hwf) as (F1 & F2 & F3 & F4 & F5).
  destruct (decide (DISTRITO ∈ columns gdf)) as [H1|H1];
    [|by rewrite (F1 H1) in Hout].
  destruct (decide (geometry_lower ∈ columns districts \/ GEOMETRY ∈ columns districts))
    as [H2|H2]; [|by rewrite (F2 H1 H2) in Hout].
  destruct (decide (DISTRITO ∈ columns districts)) as [H3|H3];
    [|by rewrite (F3 H1 H2 H3) in Hout].
  destruct (decide (N_HOSPITALS ∈ columns districts)) as [H4|H4];
    [by rewrite (F4 H1 H2 H3 H4) in Hout|].
  destruct (decide (DEPARTAMEN ∈ columns districts)) as [H5|H5].
  - destruct (decide (PROVINCIA ∈ columns districts)) as [H6|H6]; [done|].
    rewrite F5 in Hout; [done..|].
    rewrite !filter_cons, filter_nil. rewrite (decide_True (P := PROVINCIA ∉ _)) by done.
    by case_decide.
  - rewrite F5 in Hout; [done..|].
    rewrite !filter_cons, filter_nil. by rewrite (decide_True (P := DEPARTAMEN ∉ _)) by done.
Qed.

(** X7. What the second tab needs, and how it fails, for a district table
    with pairwise distinct labels.  Its tables are computed only if the
    enriched table has a DISTRITO column and the district table has
    DISTRITO, DEPARTAMEN, PROVINCIA and a geometry column but no
    N_HOSPITALS column yet.  Line 87 raises KeyError for DISTRITO when the
    enriched table has no such column.  When it has one such column, line
    96 stops the script if the district table has no geometry column, and
    line 98 raises KeyError for DISTRITO if it has a geometry column but no
    DISTRITO.  When the district table already has a column N_HOSPITALS
    (and none named N_HOSPITALS_x or N_HOSPITALS_y), with text district
    names on both sides, the merge renames both count columns and line 99
    raises KeyError for N_HOSPITALS. *)
Theorem tab2_needs_and_failures (gdf districts : frame) :
  well_formed districts ->
  (forall out, tab2 gdf districts = Ok out ->
     DISTRITO ∈ columns gdf
     /\ (geometry_lower ∈ columns districts \/ GEOMETRY ∈ columns districts)
     /\ DISTRITO ∈ columns districts
     /\ (N_HOSPITALS ∉ columns districts)
     /\ DEPARTAMEN ∈ columns districts
     /\ PROVINCIA ∈ columns districts)
  /\ (DISTRITO ∉ columns gdf -> tab2 gdf districts = Raise (KeyError [DISTRITO]))
  /\ (DISTRITO ∈ columns gdf -> ~ repeated DISTRITO (columns gdf) ->
      ~ (geometry_lower ∈ columns districts \/ GEOMETRY ∈ columns districts) ->
      tab2 gdf districts = Raise StopScript)
  /\ (DISTRITO ∈ columns gdf -> ~ repeated DISTRITO (columns gdf) ->
      geometry_lower ∈ columns districts \/ GEOMETRY ∈ columns districts ->
      DISTRITO ∉ columns districts ->
      tab2 gdf districts = Raise (KeyError [DISTRITO]))
  /\ (DISTRITO ∈ columns gdf -> ~ repeated DISTRITO (columns gdf) ->
      geometry_lower ∈ columns districts \/ GEOMETRY ∈ columns districts ->
      DISTRITO ∈ columns districts ->
      N_HOSPITALS ∈ columns districts ->
      N_HOSPITALS ++ suffix_x ∉ columns districts ->
      N_HOSPITALS ++ suffix_y ∉ columns districts ->
      text_or_missing_column DISTRITO gdf ->
      text_column DISTRITO districts ->
      tab2 gdf districts = Raise (KeyError [N_HOSPITALS])).
Proof.
  intros Hwf.
  destruct (tab2_raises gdf districts Hwf) as (F1 & F2 & F3 & F4 & _).
  split_and!; [|done| | |].
  - intros out Hout. by apply (tab2_Ok_inv gdf districts out).
  - intros H1 _. by apply F2.
  - intros H1 _. by apply F3.
  - intros H1 _ H2 H3 H4 _ _ _ _. by apply F4.
Qed.

(** *** The tables of the second tab (lines 111-125) *)

Lemma Forall2_filter_both {A B} (R : A -> B -> Prop) (P : A -> Prop) (Q : B -> Prop)
    `{!forall a, Decision (P a)} `{!forall b, Decision (Q b)} (l : list A) (k : list B) :
  Forall2 (fun a b => R a b /\ (P a <-> Q b)) l k ->
  Forall2 R (filter P l) (filter Q k).
Proof.
  induction 1 as [|a b l k [HR HPQ] _ IH]; [constructor|].
  rewrite !filter_cons. destruct (decide (P a)), (decide (Q b)); try tauto.
  by constructor.
Qed.

Lemma tab2_districts (gdf districts : frame) :
  well_formed districts ->
  DISTRITO ∈ columns gdf ->
  DISTRITO ∈ columns districts ->
  DEPARTAMEN ∈ columns districts ->
  PROVINCIA ∈ columns districts ->
  geometry_lower ∈ columns districts \/ GEOMETRY ∈ columns districts ->
  N_HOSPITALS ∉ columns districts ->
  exists out,
    tab2 gdf districts = Ok out
    /\ columns (tab_districts out) = columns districts ++ [N_HOSPITALS]
    /\ Forall2 (fun (d r : row) =>
         (forall c, c ∈ columns districts ->
            field c (tab_districts out) r.2 = field c districts d.2)
         /\ field N_HOSPITALS (tab_districts out) r.2
            = Num (Int (Z.of_nat (hospitals_in gdf (field DISTRITO districts d.2)))))
       (rows districts) (rows (tab_districts out)).
Proof.
  intros Hwf Hh Hd Hdep Hprov Hgeo Hfresh.
  destruct (tab2_Ok gdf districts) as (out & Hout & Hdc & _); [done..|].
  exists out. split; [done|].
  destruct (districts_copy_fields gdf districts) as (dc & Hdc' & Hcols & Hrows); [done..|].
  rewrite Hdc in Hdc'. injection Hdc' as <-. split; [done|].
  eapply Forall2_impl; [exact Hrows|]. by intros d r (_ & ? & ?).
Qed.

(** X8. The table of districts without hospitals shows, under the labels
    DEPARTAMEN, PROVINCIA and DISTRITO, the first ten rows of the district
    table whose district name no enriched row carries, in the order of the
    district table (all of them when they are fewer than ten), with the
    cells the district table holds. *)
Theorem zero_table_first_ten (gdf districts : frame) :
  well_formed districts ->
  DISTRITO ∈ columns gdf ->
  DISTRITO ∈ columns districts ->
  DEPARTAMEN ∈ columns districts ->
  PROVINCIA ∈ columns districts ->
  geometry_lower ∈ columns districts \/ GEOMETRY ∈ columns districts ->
  N_HOSPITALS ∉ columns districts ->
  exists out,
    tab2 gdf districts = Ok out
    /\ columns (tab_zero out) = [DEPARTAMEN; PROVINCIA; DISTRITO]
    /\ Forall2 (fun d z : row =>
         same_fields [DEPARTAMEN; PROVINCIA; DISTRITO] districts (tab_zero out) d.2 z.2)
       (take 10 (filter (fun d : row =>
                   hospitals_in gdf (field DISTRITO districts d.2) = 0%nat)
                   (rows districts)))
       (rows (tab_zero out)).
Proof.
  intros Hwf Hh Hd Hdep Hprov Hgeo Hfresh.
  destruct (tab2_districts gdf districts) as (out & Hout & Hcols & Hrows); [done..|].
  exists out. split; [done|].
  destruct (tab2_inv _ _ _ Hout) as (_ & Hzero & _).
  assert (HinN : N_HOSPITALS ∈ columns (tab_districts out)).
  { rewrite Hcols. apply elem_of_app. right. left. }
  destruct (index_of_elem _ _ HinN) as [n Hn].
  assert (Hnd : NoDup (columns (tab_districts out))).
  { rewrite Hcols. apply NoDup_snoc_new; [by destruct Hwf|done]. }
  destruct (zero_hosp_once (tab_districts out) n Hnd Hn) as (shown & Hproj & Hsc & Hz).
  { intros c Hc. rewrite Hcols. apply elem_of_app. left.
    revert Hc. rewrite !elem_of_cons, elem_of_nil. by intros [->|[->|[->|[]]]]. }
  rewrite Hzero in Hz. injection Hz as Hz.
  rewrite Hz. simpl. split; [done|].
  apply Forall2_take.
  eapply (Forall2_trans
    (fun d r : row => forall c, c ∈ columns districts ->
       field c (tab_districts out) r.2 = field c districts d.2));
    [| |exact (project_fields _
                (select (fun r => cell_at n r = Num (Int 0)) (tab_districts out)) _
                (NoDup_once _ _ Hnd) Hproj)].
  - intros d r z Hdr [_ Hrz] c Hc.
    rewrite (field_ext c _ shown) by done. rewrite (Hrz c Hc).
    rewrite (field_ext c _ (tab_districts out)) by done. apply Hdr.
    revert Hc. rewrite !elem_of_cons, elem_of_nil. by intros [->|[->|[->|[]]]].
  - simpl. apply Forall2_filter_both. eapply Forall2_impl; [exact Hrows|].
    intros d r [Hsame Hcount]. split; [done|].
    unfold field at 1 in Hcount. rewrite Hn in Hcount. rewrite Hcount. split.
    + by intros ->.
    + intros [= Hz0]. lia.
Qed.

Lemma insert_desc_sorted n (x : row) (l : list row) :
  StronglySorted
    (fun a b : row => (count_of (cell_at n b.2) <= count_of (cell_at n a.2))%Z) l ->
  StronglySorted
    (fun a b : row => (count_of (cell_at n b.2) <= count_of (cell_at n a.2))%Z)
    (insert_desc n x l).
Proof.
  induction 1 as [|y l Hl IH Hy]; simpl.
  - by repeat constructor.
  - destruct (Z.leb_spec (count_of (cell_at n y.2)) (count_of (cell_at n x.2))).
    + constructor; [by constructor|]. constructor; [done|].
      eapply Forall_impl; [exact Hy|]. simpl. intros; lia.
    + constructor; [done|]. rewrite insert_desc_perm. constructor; [lia|done].
Qed.

Lemma sort_desc_sorted n (l : list row) :
  StronglySorted
    (fun a b : row => (count_of (cell_at n b.2) <= count_of (cell_at n a.2))%Z)
    (foldr (insert_desc n) [] l).
Proof.
  induction l as [|x l IH]; simpl; [constructor|]. by apply insert_desc_sorted.
Qed.

Lemma sorted_fmap {A} (f : A -> Z) (l : list A) :
  StronglySorted (fun a b => (f b <= f a)%Z) l -> descending (f <$> l).
Proof.
  unfold descending. induction 1 as [|x l _ IH Hx]; [constructor|].
  rewrite fmap_cons. constructor; [done|]. by apply Forall_fmap.
Qed.

Lemma sorted_impl {A} (R Q : A -> A -> Prop) (l : list A) :
  (forall a b, R a b -> Q a b) -> StronglySorted R l -> StronglySorted Q l.
Proof.
  intros HRQ. induction 1 as [|x l _ IH Hx]; constructor; [done|].
  eapply Forall_impl; [exact Hx|]. apply HRQ.
Qed.

Lemma sorted_take {A} (R : A -> A -> Prop) k (l : list A) :
  StronglySorted R l -> StronglySorted R (take k l).
Proof.
  intros Hl. revert k. induction Hl as [|x l _ IH Hx]; intros [|k]; simpl; try constructor.
  - apply IH.
  - by apply Forall_take.
Qed.

Lemma sorted_split {A} (R : A -> A -> Prop) k (l : list A) :
  StronglySorted R l -> Forall (fun a => Forall (R a) (drop k l)) (take k l).
Proof.
  intros Hl. revert k. induction Hl as [|x l _ IH Hx]; intros [|k]; simpl; try constructor.
  - by apply Forall_drop.
  - apply IH.
Qed.

(** [sort_values] on the count column: the same rows, largest count first. *)
Lemma sort_values_desc_sorted (df : frame) :
  N_HOSPITALS ∈ columns df ->
  exists sorted,
    sort_values_desc N_HOSPITALS df = Ok sorted
    /\ columns sorted = columns df
    /\ rows sorted ≡ₚ rows df
    /\ StronglySorted (fun a b : row =>
         (count_of (field N_HOSPITALS df b.2) <= count_of (field N_HOSPITALS df a.2))%Z)
       (rows sorted).
Proof.
  intros [n Hn]%index_of_elem. unfold sort_values_desc.
  rewrite (col_pos_Ok _ _ _ Hn). simpl. eexists. split; [done|].
  split_and!; [done|apply sort_desc_perm|]. simpl.
  unfold field. rewrite Hn. apply sort_desc_sorted.
Qed.

Lemma dept_summary_sorted geom_col (dc : frame) :
  geom_col ∈ columns dc -> DEPARTAMEN ∈ columns dc -> N_HOSPITALS ∈ columns dc ->
  exists summary,
    dept_summary geom_col dc = Ok summary
    /\ rows summary ≡ₚ department_row geom_col dc <$> department_keys dc
    /\ descending (counts summary).
Proof.
  intros [g Hg]%index_of_elem [k Hk]%index_of_elem [n Hn]%index_of_elem.
  unfold dept_summary, dissolve_sum.
  rewrite (col_pos_Ok _ _ _ Hg), (col_pos_Ok _ _ _ Hk), (col_pos_Ok _ _ _ Hn). simpl.
  destruct (sort_values_desc_sorted
    (mkDataFrame [geom_col; N_HOSPITALS]
       (department_row geom_col dc <$> department_keys dc)))
    as (sorted & Hsorted & Hcols & Hperm & Hsort).
  { simpl. right. left. }
  exists sorted. split_and!; [|done|].
  - rewrite <- Hsorted. f_equal.
    unfold department_row, department_keys, department_shape, department_total, field.
    rewrite Hg, Hk, Hn. by to_fmap.
  - unfold counts. to_fmap. apply sorted_fmap.
    eapply sorted_impl; [|exact Hsort]. intros a b Hab. simpl in Hab.
    by rewrite !(field_ext N_HOSPITALS sorted
      (mkDataFrame [geom_col; N_HOSPITALS]
         (department_row geom_col dc <$> department_keys dc))).
Qed.

(** X9. The department summary comes sorted by count, largest first, and
    its rows are indexed by the department names of the district table,
    each once: no row stands for a missing name or for a name the district
    table does not have. *)
Theorem department_summary_sorted (gdf districts : frame) :
  well_formed districts ->
  DISTRITO ∈ columns gdf ->
  DISTRITO ∈ columns districts ->
  DEPARTAMEN ∈ columns districts ->
  PROVINCIA ∈ columns districts ->
  geometry_lower ∈ columns districts \/ GEOMETRY ∈ columns districts ->
  N_HOSPITALS ∉ columns districts ->
  exists out,
    tab2 gdf districts = Ok out
    /\ descending (counts (tab_departments out))
    /\ (fun r : row => r.1) <$> rows (tab_departments out) ≡ₚ department_keys districts
    /\ NoDup (department_keys districts)
    /\ NaN ∉ department_keys districts.
Proof.
  intros Hwf Hh Hd Hdep Hprov Hgeo Hfresh.
  destruct (tab2_districts gdf districts) as (out & Hout & Hcols & Hrows); [done..|].
  exists out. split; [done|].
  destruct (tab2_inv _ _ _ Hout) as (_ & _ & Hsum & _).
  assert (Hin : forall c, c ∈ columns districts -> c ∈ columns (tab_districts out)).
  { intros c Hc. rewrite Hcols. apply elem_of_app. by left. }
  destruct (dept_summary_sorted (geom_col_of districts) (tab_districts out))
    as (summary & Hsum' & Hperm & Hsorted).
  { by apply Hin, geom_col_of_elem. }
  { by apply Hin. }
  { rewrite Hcols. apply elem_of_app. right. left. }
  rewrite Hsum in Hsum'. injection Hsum' as <-.
  assert (Hkeys : department_keys (tab_districts out) = department_keys districts).
  { unfold department_keys. do 2 f_equal.
    apply Forall2_fmap_eq. eapply Forall2_impl; [exact Hrows|].
    intros d r [Hsame _]. by apply Hsame. }
  split_and!.
  - done.
  - rewrite Hperm, <- list_fmap_compose, <- Hkeys.
    rewrite (list_fmap_ext _ id) by done. by rewrite list_fmap_id.
  - apply NoDup_remove_dups.
  - rewrite department_keys_spec. by intros [? _].
Qed.

(** X10. The top-ten table holds ten rows of the joined district table (all
    of them when they are fewer), under the labels DEPARTAMEN, PROVINCIA,
    DISTRITO and N_HOSPITALS and with the cells the joined table holds,
    largest count first; no row left out has a larger count than a row
    shown. *)
Theorem top10_largest_counts (gdf districts : frame) :
  well_formed districts ->
  DISTRITO ∈ columns gdf ->
  DISTRITO ∈ columns districts ->
  DEPARTAMEN ∈ columns districts ->
  PROVINCIA ∈ columns districts ->
  geometry_lower ∈ columns districts \/ GEOMETRY ∈ columns districts ->
  N_HOSPITALS ∉ columns districts ->
  exists out shown rest,
    tab2 gdf districts = Ok out
    /\ columns (tab_top10 out) = [DEPARTAMEN; PROVINCIA; DISTRITO; N_HOSPITALS]
    /\ shown ++ rest ≡ₚ rows (tab_districts out)
    /\ length shown = min 10 (length (rows districts))
    /\ Forall2 (fun r t : row =>
         t.1 = r.1
         /\ same_fields [DEPARTAMEN; PROVINCIA; DISTRITO; N_HOSPITALS]
              (tab_districts out) (tab_top10 out) r.2 t.2)
       shown (rows (tab_top10 out))
    /\ descending (counts (tab_top10 out))
    /\ Forall (fun r : row =>
         Forall (fun r' : row =>
           (count_of (field N_HOSPITALS (tab_districts out) r'.2)
            <= count_of (field N_HOSPITALS (tab_districts out) r.2))%Z) rest) shown.
Proof.
  intros Hwf Hh Hd Hdep Hprov Hgeo Hfresh.
  destruct (tab2_districts gdf districts) as (out & Hout & Hcols & Hrows); [done..|].
  destruct (tab2_inv _ _ _ Hout) as (_ & _ & _ & Htop).
  assert (HinN : N_HOSPITALS ∈ columns (tab_districts out)).
  { rewrite Hcols. apply elem_of_app. right. left. }
  destruct (sort_values_desc_sorted (tab_districts out) HinN)
    as (sorted & Hsorted & Hsc & Hperm & Hsort).
  assert (Hnd : NoDup (columns (tab_districts out))).
  { rewrite Hcols. apply NoDup_snoc_new; [by destruct Hwf|done]. }
  destruct (top10_once (tab_districts out) sorted Hnd Hsorted Hsc)
    as (shown & Hproj & Htc & Htop').
  { intros c Hc. rewrite Hcols.
    revert Hc. rewrite !elem_of_cons, elem_of_nil, elem_of_app, list_elem_of_singleton.
    intros [->|[->|[->|[->|[]]]]]; [by left..|by right]. }
  rewrite Htop in Htop'. injection Htop' as Htop'. rewrite <- Htop' in Hproj, Htc.
  exists out, (take 10 (rows sorted)), (drop 10 (rows sorted)).
  assert (Honce : Forall (fun c => ~ repeated c
                    (columns (mkDataFrame (columns sorted) (take 10 (rows sorted)))))
                    [DEPARTAMEN; PROVINCIA; DISTRITO; N_HOSPITALS]).
  { simpl. rewrite Hsc. by apply NoDup_once. }
  pose proof (project_fields _ _ _ Honce Hproj) as Hfields. simpl in Hfields.
  split_and!.
  - done.
  - done.
  - by rewrite take_drop.
  - rewrite length_take, Hperm. by rewrite <- (Forall2_length _ _ _ Hrows).
  - eapply Forall2_impl; [exact Hfields|]. intros r t [Hix Hsame]. split; [done|].
    intros c Hc. rewrite (Hsame c Hc). by apply field_ext.
  - unfold counts. to_fmap.
    rewrite (Forall2_fmap_eq
      (fun t : row => count_of (field N_HOSPITALS (tab_top10 out) t.2))
      (fun r : row => count_of (field N_HOSPITALS (tab_districts out) r.2))
      (take 10 (rows sorted)) (rows (tab_top10 out))).
    + apply sorted_fmap. by apply sorted_take.
    + eapply Forall2_impl; [exact Hfields|]. intros r t [_ Hsame]. simpl.
      rewrite (Hsame N_HOSPITALS) by (by_computation).
      f_equal. by apply field_ext.
  - by apply sorted_split.
Qed.

(** *** The script as a whole (lines 20-125) *)

Lemma bind_Raise {A B} (m : result A) (k : A -> result B) e :
  m ≫= k = Raise e -> m = Raise e \/ exists x, m = Ok x /\ k x = Raise e.
Proof.
  destruct m as [x|e']; simpl.
  - intros Hk. right. by exists x.
  - intros [= <-]. by left.
Qed.

Lemma col_pos_no_stop c (df : frame) : col_pos c df <> Raise StopScript.
Proof. unfold col_pos. by destruct (index_of c (columns df)). Qed.

Lemma series_pos_no_stop c (df : frame) : series_pos c df <> Raise StopScript.
Proof.
  unfold series_pos, col_pos. destruct (index_of c (columns df)); simpl; [|done].
  by case_decide.
Qed.

Lemma project_no_stop cs (df : frame) : project cs df <> Raise StopScript.
Proof. unfold project. by destruct (filter _ cs). Qed.

Lemma st_dataframe_no_stop (df : frame) : st_dataframe df <> Raise StopScript.
Proof. unfold st_dataframe. by case_decide. Qed.

Lemma sort_values_desc_no_stop c (df : frame) : sort_values_desc c df <> Raise StopScript.
Proof.
  unfold sort_values_desc. intros [H|(n & _ & H)]%bind_Raise; [|by simpl in H].
  by apply col_pos_no_stop in H.
Qed.

Ltac no_stop H :=
  repeat (apply bind_Raise in H as [H|(? & _ & H)];
          [by (apply col_pos_no_stop in H
               || apply series_pos_no_stop in H
               || apply project_no_stop in H
               || apply st_dataframe_no_stop in H
               || apply sort_values_desc_no_stop in H)|];
          simpl in H).

Lemma enrich_no_stop (df : frame) : enrich df <> Raise StopScript.
Proof.
  unfold enrich. intros H.
  apply bind_Raise in H as [H|(name & _ & H)].
  { unfold hospital_name_col in H. by destruct (filter _ (columns df)). }
  apply bind_Raise in H as [H|(op & _ & H)].
  { unfold hospitals_operational in H. no_stop H.
    case_decide; [|done]. no_stop H. done. }
  apply bind_Raise in H as [H|(gdf & _ & H)]; [|done].
  unfold hospitals_gdf in H. no_stop H. done.
Qed.

(** The stop of line 96 is the only way the second tab stops the script,
    and it takes a district table without geometry column. *)
Lemma tab2_stop (gdf districts : frame) :
  tab2 gdf districts = Raise StopScript ->
  ~ (geometry_lower ∈ columns districts \/ GEOMETRY ∈ columns districts).
Proof.
  unfold tab2. intros H Hgeo.
  apply bind_Raise in H as [H|(dc & _ & H)].
  - unfold districts_copy in H.
    apply bind_Raise in H as [H|(hc & _ & H)].
    { unfold groupby_size in H. no_stop H. done. }
    apply bind_Raise in H as [H|(g & _ & H)].
    { repeat case_decide; try done. tauto. }
    apply bind_Raise in H as [H|(merged & _ & H)].
    { unfold merge_left in H. no_stop H. done. }
    no_stop H. done.
  - apply bind_Raise in H as [H|(zero & _ & H)].
    { unfold zero_hosp in H. no_stop H. done. }
    apply bind_Raise in H as [H|(summary & _ & H)].
    { unfold dept_summary in H.
      apply bind_Raise in H as [H|(dissolved & _ & H)];
        [|by apply sort_values_desc_no_stop in H].
      unfold dissolve_sum in H. no_stop H. done. }
    no_stop H.
    apply bind_Raise in H as [H|(top & _ & H)]; [|done].
    unfold top10 in H. no_stop H. done.
Qed.

Lemma tab1_no_stop name_col (gdf : frame) : tab1 name_col gdf <> Raise StopScript.
Proof. unfold tab1. intros H. no_stop H. done. Qed.

(** X11. The stop of line 96 is out of reach in the script: line 22 has
    already read the geometry column of the district table, and line 29
    turns its label into GEOMETRY, which line 92 accepts.  Whatever the
    three tables hold, the script never ends in that stop. *)
Theorem stop_is_unreachable (hospitals districts pop_centers : frame) :
  normalize_label geometry_lower = GEOMETRY ->
  prepare hospitals districts pop_centers <> Raise StopScript.
Proof.
  intros Hup H. unfold prepare in H.
  destruct (index_of geometry_lower (columns districts)) as [g|] eqn:Hg; [|done].
  simpl in H.
  apply bind_Raise in H as [H|(named & _ & H)]; [by apply enrich_no_stop in H|].
  apply bind_Raise in H as [H|(t1 & _ & H)]; [by apply tab1_no_stop in H|].
  apply bind_Raise in H as [H|(t2 & _ & H)]; [|done].
  apply tab2_stop in H. apply H. right. simpl. rewrite <- Hup.
  apply list_elem_of_fmap_2. apply index_of_Some in Hg.
  by apply list_elem_of_lookup_2 in Hg.
Qed.

(** X12. After the normalisation of line 29 no label is the lower-case
    geometry, when upper-casing produces no lower-case g: the test of line
    90 fails on every normalised table, and the geometry column the second
    tab picks is GEOMETRY. *)
Theorem lowercase_geometry_never_found (df : frame) :
  (forall c, 103 ∉ to_upper c) ->
  (geometry_lower ∉ columns (normalize_columns df))
  /\ geom_col_of (normalize_columns df) = GEOMETRY.
Proof.
  intros Hup.
  assert (Hno : geometry_lower ∉ columns (normalize_columns df)).
  { simpl. to_fmap. intros (l & Hl & _)%list_elem_of_fmap.
    assert (Hg : 103 ∈ normalize_label l) by (rewrite <- Hl; left).
    unfold normalize_label, replace_space in Hg. revert Hg. to_fmap.
    intros (c & Hc & Hin)%list_elem_of_fmap.
    destruct (c =? 32); [done|]. rewrite <- Hc in Hin.
    unfold upper in Hin. apply list_elem_of_In, in_flat_map in Hin as (d & _ & Hd).
    apply list_elem_of_In in Hd. by apply (Hup d). }
  split; [done|]. unfold geom_col_of. by rewrite decide_False.
Qed.

(** X13. No normalised label holds a space. *)
Theorem normalized_labels_without_space (df : frame) :
  Forall (fun c : pystr => 32 ∉ c) (columns (normalize_columns df)).
Proof.
  simpl. to_fmap. apply Forall_fmap, Forall_forall. intros l _. simpl.
  unfold normalize_label, replace_space. to_fmap.
  intros (c & Hc & _)%list_elem_of_fmap.
  destruct (N.eqb_spec c 32) as [Heq|Hne]; [done|]. by apply Hne.
Qed.

Lemma normalize_select_well_formed (P : list value -> Prop)
    `{!forall r, Decision (P r)} (df : frame) :
  well_formed (normalize_columns df) -> well_formed (normalize_columns (select P df)).
Proof.
  intros [Hnd Hlen]. split; [done|]. simpl in *.
  apply Forall_forall. intros r [_ Hr]%list_elem_of_filter.
  by apply (proj1 (Forall_forall _ _) Hlen).
Qed.

(** X14. Line 22 and the join, end to end: the joined district table of a
    run that completes has one row per district row with a geometry, in
    the order of the shapefile, made of that row's cells and the number of
    enriched hospitals carrying its district name.  A district without
    geometry is in no table of the second tab. *)
Theorem districts_without_geometry_dropped
    (hospitals districts pop_centers : frame) (dash : Dashboard) :
  well_formed (normalize_columns districts) ->
  prepare hospitals districts pop_centers = Ok dash ->
  exists g,
    index_of geometry_lower (columns districts) = Some g
    /\ Forall2 (fun d r : row =>
         r.2 = d.2 ++ [Num (Int (Z.of_nat
                 (hospitals_in (dash_hospitals dash)
                    (field DISTRITO (normalize_columns districts) d.2))))])
       (filter (fun d : row => cell_at g d.2 <> NaN) (rows districts))
       (rows (tab_districts (dash_tab2 dash))).
Proof.
  intros Hwf H. unfold prepare in H.
  destruct (index_of geometry_lower (columns districts)) as [g|] eqn:Hg; [|done].
  exists g. split; [done|]. simpl in H.
  destruct (enrich (normalize_columns hospitals)) as [named|]; simpl in H; [|done].
  destruct (tab1 _ _) as [t1|]; simpl in H; [|done].
  destruct (tab2 _ _) as [t2|] eqn:Ht2; simpl in H; [|done].
  injection H as <-. simpl.
  pose proof (normalize_select_well_formed (fun r => cell_at g r <> NaN) districts Hwf)
    as Hwf'.
  destruct (tab2_Ok_inv _ _ _ Hwf' Ht2) as (H1 & H2 & H3 & H4 & _).
  destruct (tab2_inv _ _ _ Ht2) as (Hdc & _).
  destruct (districts_copy_fields named.2
              (normalize_columns (select (fun r => cell_at g r <> NaN) districts)))
    as (dc & Hdc' & _ & Hrows); [done..|].
  rewrite Hdc in Hdc'. injection Hdc' as <-.
  simpl in Hrows. eapply Forall2_impl; [exact Hrows|].
  intros d r (Hr & _). rewrite Hr. do 5 f_equal.
Qed.

(** *** A load that fails (lines 13-20) *)

(** X15. A load that fails stores nothing, whatever made it fail (a read
    that raises, or a shapefile without coordinate reference system, which
    [to_crs] refuses).  It has read one, two or three of the files, in the
    order of the code, and none after the step that failed.  The cache
    stays empty, so the next invocation reads IPRESS.csv again, whatever
    storage holds by then; and when that invocation returns, its three
    datasets are the ones storage holds by then, and they are cached. *)
Theorem failed_load_not_cached (s s1 : session) (e : exn) :
  load_data s = (Raise e, s1) ->
  cache s = None /\ cache s1 = None /\ files s1 = files s
  /\ (exists k, (1 <= k <= 3)%nat
        /\ reads s1 = reads s ++ take k [IPRESS_csv; DISTRITOS_shp; CCPP_shp])
  /\ (forall fs, exists more,
        reads (load_data (mkSession fs (reads s1) (cache s1))).2
        = reads s1 ++ IPRESS_csv :: more)
  /\ (forall fs v s2,
        load_data (mkSession fs (reads s1) (cache s1)) = (Ok v, s2) ->
        cache s2 = Some v
        /\ exists f1 f2 f3,
             fs IPRESS_csv = Ok f1 /\ fs DISTRITOS_shp = Ok f2 /\ fs CCPP_shp = Ok f3
             /\ v = (table f1, reprojected (table f2), reprojected (table f3))).
Proof.
  unfold load_data. destruct (cache s) as [v|] eqn:Hcache; [done|].
  destruct (load_data_body s) as [[v|e'] s'] eqn:Hbody; [done|].
  intros [= <- <-].
  assert (Hs' : cache s' = None /\ files s' = files s
    /\ exists k, (1 <= k <= 3)%nat
         /\ reads s' = reads s ++ take k [IPRESS_csv; DISTRITOS_shp; CCPP_shp]).
  { revert Hbody. unfold load_data_body, read. simpl.
    destruct (files s IPRESS_csv) as [f1|].
    - destruct (files s DISTRITOS_shp) as [f2|].
      + destruct (to_crs f2).
        * destruct (files s CCPP_shp) as [f3|].
          -- destruct (to_crs f3); [done|].
             intros [= <- <-]. simpl. split_and!; [done..|].
             exists 3%nat. split; [lia|]. simpl. by rewrite <- !app_assoc.
          -- intros [= <- <-]. simpl. split_and!; [done..|].
             exists 3%nat. split; [lia|]. simpl. by rewrite <- !app_assoc.
        * intros [= <- <-]. simpl. split_and!; [done..|].
          exists 2%nat. split; [lia|]. simpl. by rewrite <- !app_assoc.
      + intros [= <- <-]. simpl. split_and!; [done..|].
        exists 2%nat. split; [lia|]. simpl. by rewrite <- !app_assoc.
    - intros [= <- <-]. simpl. split_and!; [done..|].
      exists 1%nat. split; [lia|]. done. }
  destruct Hs' as (Hc' & Hf' & Hreads).
  split_and!; [done..| |].
  - intros fs. rewrite Hc'. unfold load_data_body, read. simpl.
    destruct (fs IPRESS_csv) as [f1|]; [|by eexists].
    destruct (fs DISTRITOS_shp) as [f2|]; [|eexists; simpl; by rewrite <- !app_assoc].
    destruct (to_crs f2); [|eexists; simpl; by rewrite <- !app_assoc].
    destruct (fs CCPP_shp) as [f3|]; [|eexists; simpl; by rewrite <- !app_assoc].
    destruct (to_crs f3); eexists; simpl; by rewrite <- !app_assoc.
  - intros fs v s2. rewrite Hc'. unfold load_data_body, read, to_crs. simpl.
    destruct (fs IPRESS_csv) as [f1|]; [|done].
    destruct (fs DISTRITOS_shp) as [f2|]; [|done].
    destruct (has_crs f2); [|done].
    destruct (fs CCPP_shp) as [f3|]; [|done].
    destruct (has_crs f3); [|done].
    intros [= <- <-]. simpl. split; [done|]. by exists f1, f2, f3.
Qed.

End Pipeline.

(** ** The tables of the examples *)

Lemma latin1_tables_ok_low c : c < 256 -> latin1_tables_ok c = true.
Proof.
  intros Hc.
  assert (Hall : forallb latin1_tables_ok (map N.of_nat (seq 0 256)) = true)
    by (vm_compute; reflexivity).
  apply (proj1 (forallb_forall _ _) Hall).
  apply in_map_iff. exists (N.to_nat c). split; [apply N2Nat.id|].
  apply in_seq. lia.
Qed.

Lemma latin1_upper_high c : 256 <= c -> latin1_upper c = [c].
Proof.
  intros Hc. unfold latin1_upper.
  replace (c <=? 122) with false by (symmetry; apply N.leb_gt; lia).
  replace (c =? 181) with false by (symmetry; apply N.eqb_neq; lia).
  replace (c =? 223) with false by (symmetry; apply N.eqb_neq; lia).
  replace (c <=? 254) with false by (symmetry; apply N.leb_gt; lia).
  replace (c =? 255) with false by (symmetry; apply N.eqb_neq; lia).
  by rewrite !andb_false_r.
Qed.

Lemma latin1_tables_ok_all c : latin1_tables_ok c = true.
Proof.
  destruct (N.lt_ge_cases c 256) as [Hc|Hc]; [by apply latin1_tables_ok_low|].
  unfold latin1_tables_ok. rewrite (latin1_upper_high c Hc). simpl.
  rewrite (latin1_upper_high c Hc).
  rewrite bool_decide_eq_true_2 by done.
  by destruct (py_isspace c).
Qed.

Lemma latin1_upper_of_nonspace c :
  py_isspace c = false ->
  latin1_upper c <> [] /\ Forall (fun d => py_isspace d = false) (latin1_upper c).
Proof.
  intros Hc. pose proof (latin1_tables_ok_all c) as Hok.
  unfold latin1_tables_ok in Hok. rewrite Hc in Hok. simpl in Hok.
  apply andb_true_iff in Hok as [Hok _]. apply andb_true_iff in Hok as [Hne Hall].
  split.
  - apply negb_true_iff in Hne. by apply bool_decide_eq_false in Hne.
  - apply Forall_forall. intros d Hd%list_elem_of_In.
    apply (proj1 (forallb_forall _ _) Hall) in Hd. by apply negb_true_iff in Hd.
Qed.

Lemma latin1_upper_stable c d : d ∈ latin1_upper c -> latin1_upper d = [d].
Proof.
  intros Hd%list_elem_of_In. pose proof (latin1_tables_ok_all c) as Hok.
  unfold latin1_tables_ok in Hok. apply andb_true_iff in Hok as [_ Hall].
  apply (proj1 (forallb_forall _ _) Hall) in Hd. by apply bool_decide_eq_true in Hd.
Qed.

(** The tables satisfy what C5 asks of them, and normalising the raw
    labels of the example twice is normalising them once. *)
Lemma normalize_columns_idempotent_witness :
  (py_isspace 32 = true
   /\ (forall c, py_isspace c = false ->
         latin1_upper c <> [] /\ Forall (fun d => py_isspace d = false) (latin1_upper c))
   /\ (forall c d, d ∈ latin1_upper c -> latin1_upper d = [d])
   /\ latin1_upper 95 = [95])
  /\ (forall labels : list pystr,
        map (normalize_label py_isspace latin1_upper)
          (map (normalize_label py_isspace latin1_upper) labels)
        = map (normalize_label py_isspace latin1_upper) labels)
  /\ normalize_columns py_isspace latin1_upper
       (normalize_columns py_isspace latin1_upper demo_raw_hospitals)
     = normalize_columns py_isspace latin1_upper demo_raw_hospitals
  /\ rows (normalize_columns py_isspace latin1_upper demo_raw_hospitals)
     = rows demo_raw_hospitals.
Proof.
  pose proof (normalize_columns_idempotent (float := decimal) (shape := list nat)
    py_isspace latin1_upper eq_refl latin1_upper_of_nonspace latin1_upper_stable eq_refl)
    as [Hlabels Hframe].
  split; [|split; [exact Hlabels|]].
  - split_and!; [reflexivity|exact latin1_upper_of_nonspace
                |exact latin1_upper_stable|reflexivity].
  - destruct (Hframe demo_raw_hospitals) as (H1 & H2 & _). by split.
Defined.

Example normalize_raw_labels :
  columns (normalize_columns py_isspace latin1_upper demo_raw_hospitals)
  = columns demo_hospitals.
Proof. vm_compute. reflexivity. Qed.

(** ** The theorems on the example tables *)

Lemma enriched_iff_predicate_chain_witness :
  (well_formed demo_hospitals
   /\ hospitals_operational parse_decimal demo_hospitals = Ok demo_operational
   /\ hospitals_gdf demo_operational = Ok demo_gdf)
  /\ rows demo_operational
     = (fun r => (r.1, coerced parse_decimal demo_hospitals r.2))
         <$> filter (fun r => qualifies parse_decimal demo_hospitals r.2)
               (rows demo_hospitals)
  /\ (rows demo_gdf).*1 = (rows demo_operational).*1
  /\ (forall i, i ∈ (rows demo_gdf).*1 <->
        exists r, (i, r) ∈ rows demo_hospitals /\ qualifies parse_decimal demo_hospitals r)
  /\ (forall r, ~ (CLASIFICACION ∈ columns demo_hospitals
                   /\ INSTITUCION ∈ columns demo_hospitals) ->
        qualifies parse_decimal demo_hospitals r <->
        field CONDICION demo_hospitals r = Str EN_FUNCIONAMIENTO
        /\ coerces parse_decimal (field NORTE demo_hospitals r)
        /\ coerces parse_decimal (field ESTE demo_hospitals r)).
Proof.
  assert (H1 : well_formed demo_hospitals) by by_computation.
  assert (H2 : hospitals_operational parse_decimal demo_hospitals = Ok demo_operational)
    by (vm_compute; reflexivity).
  assert (H3 : hospitals_gdf demo_operational = Ok demo_gdf) by (vm_compute; reflexivity).
  split; [by split_and!|].
  exact (enriched_iff_predicate_chain parse_decimal _ _ _ H1 H2 H3).
Defined.

Lemma filter_shrinks_and_is_fixed_point_witness :
  (well_formed demo_hospitals
   /\ hospitals_operational parse_decimal demo_hospitals = Ok demo_operational
   /\ hospitals_gdf demo_operational = Ok demo_gdf)
  /\ (length (rows demo_operational) <= length (rows demo_hospitals))%nat
  /\ length (rows demo_gdf) = length (rows demo_operational)
  /\ hospitals_operational parse_decimal demo_operational = Ok demo_operational
  /\ hospitals_operational parse_decimal demo_gdf = Ok demo_gdf
  /\ hospitals_gdf demo_gdf = Ok demo_gdf.
Proof.
  assert (H1 : well_formed demo_hospitals) by by_computation.
  assert (H2 : hospitals_operational parse_decimal demo_hospitals = Ok demo_operational)
    by (vm_compute; reflexivity).
  assert (H3 : hospitals_gdf demo_operational = Ok demo_gdf) by (vm_compute; reflexivity).
  split; [by split_and!|].
  exact (filter_shrinks_and_is_fixed_point parse_decimal _ _ _ H1 H2 H3).
Defined.

Lemma scenario_point_geometry_witness :
  (well_formed demo_hospitals
   /\ parse_decimal norte_text = Some (Float (mkDecimal (-1205) 2))
   /\ parse_decimal este_text = Some (Float (mkDecimal (-7703) 2))
   /\ hospitals_operational parse_decimal demo_hospitals = Ok demo_operational
   /\ hospitals_gdf demo_operational = Ok demo_gdf)
  /\ (forall i r,
        (i, r) ∈ rows demo_hospitals ->
        field CONDICION demo_hospitals r = Str EN_FUNCIONAMIENTO ->
        field INSTITUCION demo_hospitals r = Str MINSA ->
        field CLASIFICACION demo_hospitals r = Str ATENCION_GENERAL ->
        field NORTE demo_hospitals r = Str norte_text ->
        field ESTE demo_hospitals r = Str este_text ->
        exists r', (i, r') ∈ rows demo_gdf
                   /\ field geometry_lower demo_gdf r'
                      = Geo (Point (Float (mkDecimal (-7703) 2))
                                   (Float (mkDecimal (-1205) 2))))
  /\ (forall i r',
        (i, r') ∈ rows demo_gdf ->
        exists x y,
          field ESTE demo_gdf r' = Num x /\ field NORTE demo_gdf r' = Num y
          /\ field geometry_lower demo_gdf r' = Geo (Point x y)).
Proof.
  assert (H1 : well_formed demo_hospitals) by by_computation.
  assert (Hn : parse_decimal norte_text = Some (Float (mkDecimal (-1205) 2)))
    by reflexivity.
  assert (He : parse_decimal este_text = Some (Float (mkDecimal (-7703) 2)))
    by reflexivity.
  assert (H2 : hospitals_operational parse_decimal demo_hospitals = Ok demo_operational)
    by (vm_compute; reflexivity).
  assert (H3 : hospitals_gdf demo_operational = Ok demo_gdf) by (vm_compute; reflexivity).
  split; [by split_and!|].
  exact (scenario_point_geometry parse_decimal _ _ _ _ _ H1 Hn He H2 H3).
Defined.



Example enrich_without_este :
  enrich parse_decimal demo_no_este = Raise (KeyError [ESTE]).
Proof. vm_compute. reflexivity. Qed.

Example enrich_without_name_column :
  enrich parse_decimal
    (mkDataFrame [CONDICION; NORTE] (@nil (cell decimal (list nat) * list _)))
  = Raise IndexError.
Proof. vm_compute. reflexivity. Qed.

Lemma district_counts_witness :
  (well_formed demo_districts
   /\ DISTRITO ∈ columns demo_gdf
   /\ DISTRITO ∈ columns demo_districts
   /\ (geometry_lower ∈ columns demo_districts \/ GEOMETRY ∈ columns demo_districts)
   /\ N_HOSPITALS ∉ columns demo_districts)
  /\ exists dc,
       districts_copy demo_gdf demo_districts = Ok dc
       /\ length (rows dc) = length (rows demo_districts)
       /\ Forall2 (fun d r =>
            (forall c, c ∈ columns demo_districts ->
               field c dc r.2 = field c demo_districts d.2)
            /\ field N_HOSPITALS dc r.2
               = Num (Int (Z.of_nat
                   (hospitals_in demo_gdf (field DISTRITO demo_districts d.2)))))
          (rows demo_districts) (rows dc)
       /\ (forall s, hospitals_in demo_gdf (Str s)
             = length (filter (fun h => field DISTRITO demo_gdf h.2 = Str s)
                         (rows demo_gdf)))
       /\ hospitals_in demo_gdf NaN = 0%nat.
Proof.
  assert (H1 : well_formed demo_districts) by by_computation.
  assert (H2 : DISTRITO ∈ columns demo_gdf) by by_computation.
  assert (H3 : DISTRITO ∈ columns demo_districts) by by_computation.
  assert (H4 : geometry_lower ∈ columns demo_districts \/ GEOMETRY ∈ columns demo_districts)
    by (right; by_computation).
  assert (H5 : N_HOSPITALS ∉ columns demo_districts) by by_computation.
  split; [by split_and!|].
  exact (district_counts demo_gdf demo_districts H1 H2 H3 H4 H5).
Defined.

Example district_counts_scenario :
  (fun dc => counts dc) <$> districts_copy demo_gdf demo_districts = Ok [3; 0; 0]%Z.
Proof. vm_compute. reflexivity. Qed.

Lemma district_key_is_name_only_witness :
  (well_formed demo_districts
   /\ DISTRITO ∈ columns demo_gdf
   /\ DISTRITO ∈ columns demo_districts
   /\ (geometry_lower ∈ columns demo_districts \/ GEOMETRY ∈ columns demo_districts)
   /\ N_HOSPITALS ∉ columns demo_districts)
  /\ (exists dc,
        districts_copy demo_gdf demo_districts = Ok dc
        /\ (forall r, r ∈ rows dc ->
              field N_HOSPITALS dc r.2
              = Num (Int (Z.of_nat (hospitals_in demo_gdf (field DISTRITO dc r.2)))))
        /\ (forall r1 r2, r1 ∈ rows dc -> r2 ∈ rows dc ->
              field DISTRITO dc r1.2 = field DISTRITO dc r2.2 ->
              field N_HOSPITALS dc r1.2 = field N_HOSPITALS dc r2.2))
  /\ (exists dc : DataFrame decimal (list nat),
        well_formed (@homonym_districts decimal (list nat))
        /\ districts_copy homonym_hospitals homonym_districts = Ok dc
        /\ field DEPARTAMEN dc <$> (rows dc).*2 = [Str (utf8 "LIMA"); Str (utf8 "PUNO")]
        /\ counts dc = [1; 1]%Z
        /\ (Z.of_nat (length (rows (@homonym_hospitals decimal (list nat))))
            < sum_Z (counts dc))%Z).
Proof.
  assert (H1 : well_formed demo_districts) by by_computation.
  assert (H2 : DISTRITO ∈ columns demo_gdf) by by_computation.
  assert (H3 : DISTRITO ∈ columns demo_districts) by by_computation.
  assert (H4 : geometry_lower ∈ columns demo_districts \/ GEOMETRY ∈ columns demo_districts)
    by (right; by_computation).
  assert (H5 : N_HOSPITALS ∉ columns demo_districts) by by_computation.
  split; [by split_and!|].
  exact (district_key_is_name_only demo_gdf demo_districts H1 H2 H3 H4 H5).
Defined.

(** C3 as the specification words it fails on a district table with a
    district whose department name is missing: the joined district rows add
    up to 3, the department summary to 0. *)
Lemma dissolve_total_counterexample :
  well_formed demo_districts_unnamed
  /\ exists out,
       tab2 demo_union demo_gdf demo_districts_unnamed = Ok out
       /\ counts (tab_districts out) = [3; 0]%Z
       /\ counts (tab_departments out) = [0]%Z
       /\ sum_Z (counts (tab_districts out)) <> sum_Z (counts (tab_departments out)).
Proof.
  split; [by_computation|].
  eexists. split; [vm_compute; reflexivity|]. by vm_compute.
Qed.

Lemma dissolve_preserves_named_total_witness :
  (well_formed demo_districts
   /\ DISTRITO ∈ columns demo_gdf
   /\ DISTRITO ∈ columns demo_districts
   /\ DEPARTAMEN ∈ columns demo_districts
   /\ PROVINCIA ∈ columns demo_districts
   /\ (geometry_lower ∈ columns demo_districts \/ GEOMETRY ∈ columns demo_districts)
   /\ N_HOSPITALS ∉ columns demo_districts)
  /\ exists out,
       tab2 demo_union demo_gdf demo_districts = Ok out
       /\ sum_Z (counts (tab_departments out))
          = sum_Z ((fun r => count_of (field N_HOSPITALS (tab_districts out) r.2))
                     <$> filter (fun r => field DEPARTAMEN (tab_districts out) r.2 <> NaN)
                           (rows (tab_districts out)))
       /\ (Forall (fun d => field DEPARTAMEN demo_districts d.2 <> NaN)
             (rows demo_districts) ->
           sum_Z (counts (tab_departments out)) = sum_Z (counts (tab_districts out))).
Proof.
  assert (H1 : well_formed demo_districts) by by_computation.
  assert (H2 : DISTRITO ∈ columns demo_gdf) by by_computation.
  assert (H3 : DISTRITO ∈ columns demo_districts) by by_computation.
  assert (H4 : DEPARTAMEN ∈ columns demo_districts) by by_computation.
  assert (H5 : PROVINCIA ∈ columns demo_districts) by by_computation.
  assert (H6 : geometry_lower ∈ columns demo_districts \/ GEOMETRY ∈ columns demo_districts)
    by (right; by_computation).
  assert (H7 : N_HOSPITALS ∉ columns demo_districts) by by_computation.
  split; [by split_and!|].
  exact (dissolve_preserves_named_total demo_union demo_gdf demo_districts
           H1 H2 H3 H4 H5 H6 H7).
Defined.

Lemma every_department_once_witness :
  (well_formed demo_districts
   /\ DISTRITO ∈ columns demo_gdf
   /\ DISTRITO ∈ columns demo_districts
   /\ DEPARTAMEN ∈ columns demo_districts
   /\ PROVINCIA ∈ columns demo_districts
   /\ (geometry_lower ∈ columns demo_districts \/ GEOMETRY ∈ columns demo_districts)
   /\ N_HOSPITALS ∉ columns demo_districts)
  /\ exists out,
       tab2 demo_union demo_gdf demo_districts = Ok out
       /\ (forall d name,
             d ∈ rows demo_districts ->
             field DEPARTAMEN demo_districts d.2 = name ->
             name <> NaN ->
             exists geo,
               filter (fun r => r.1 = name) (rows (tab_departments out))
               = [(name, [geo; Num (Int (department_total (tab_districts out) name))])])
       /\ (forall name,
             (forall r, r ∈ rows (tab_districts out) ->
                field DEPARTAMEN (tab_districts out) r.2 = name ->
                field N_HOSPITALS (tab_districts out) r.2 = Num (Int 0)) ->
             department_total (tab_districts out) name = 0%Z).
Proof.
  assert (H1 : well_formed demo_districts) by by_computation.
  assert (H2 : DISTRITO ∈ columns demo_gdf) by by_computation.
  assert (H3 : DISTRITO ∈ columns demo_districts) by by_computation.
  assert (H4 : DEPARTAMEN ∈ columns demo_districts) by by_computation.
  assert (H5 : PROVINCIA ∈ columns demo_districts) by by_computation.
  assert (H6 : geometry_lower ∈ columns demo_districts \/ GEOMETRY ∈ columns demo_districts)
    by (right; by_computation).
  assert (H7 : N_HOSPITALS ∉ columns demo_districts) by by_computation.
  split; [by split_and!|].
  exact (every_department_once demo_union demo_gdf demo_districts
           H1 H2 H3 H4 H5 H6 H7).
Defined.

Example department_summary_scenario :
  (fun out => (rows (tab_departments out)).*1) <$> tab2 demo_union demo_gdf demo_districts
  = Ok [Str LIMA; Str TACNA]
  /\ (fun out => counts (tab_departments out)) <$> tab2 demo_union demo_gdf demo_districts
     = Ok [3; 0]%Z.
Proof. split; vm_compute; reflexivity. Qed.

Lemma load_data_memoized_witness :
  load_data id demo_session
  = (Ok (demo_raw_hospitals, demo_districts_file, demo_centers_file), demo_loaded)
  /\ load_data id demo_loaded
     = (Ok (demo_raw_hospitals, demo_districts_file, demo_centers_file), demo_loaded)
  /\ (forall fs n,
        Nat.iter n (fun st => (load_data id st).2)
          (mkSession fs (reads demo_loaded) (cache demo_loaded))
        = mkSession fs (reads demo_loaded) (cache demo_loaded)
        /\ (load_data id (mkSession fs (reads demo_loaded) (cache demo_loaded))).1
           = Ok (demo_raw_hospitals, demo_districts_file, demo_centers_file))
  /\ (cache demo_session = None ->
      reads demo_loaded = reads demo_session ++ [IPRESS_csv; DISTRITOS_shp; CCPP_shp])
  /\ (cache demo_session <> None -> demo_loaded = demo_session).
Proof.
  assert (H1 : load_data id demo_session
    = (Ok (demo_raw_hospitals, demo_districts_file, demo_centers_file), demo_loaded))
    by (vm_compute; reflexivity).
  split; [exact H1|].
  exact (load_data_memoized id demo_session demo_loaded _ H1).
Defined.

(** ** The further properties on the example tables *)

(** Two raw labels that normalise to DISTRITO pass the filter chain, and
    the preview of line 75 dies of them: the script does not reach the
    second tab. *)
Example preview_two_district_columns :
  (fun named => columns named.2)
    <$> enrich parse_decimal (normalize_columns py_isspace latin1_upper demo_two_distrito)
  = Ok [name_label; CONDICION; NORTE; ESTE; DISTRITO; DISTRITO; geometry_lower]
  /\ (named ← enrich parse_decimal
                (normalize_columns py_isspace latin1_upper demo_two_distrito);
      tab1 named.1 named.2)
     = Raise ValueError
  /\ prepare py_isspace latin1_upper parse_decimal demo_union
       demo_two_distrito demo_districts_file demo_centers_file
     = Raise ValueError.
Proof. split_and!; vm_compute; reflexivity. Qed.

Lemma latin1_upper_no_g c : 103 ∉ latin1_upper c.
Proof.
  destruct (N.lt_ge_cases c 256) as [Hc|Hc].
  - assert (Hall : forallb (fun c => bool_decide (103 ∉ latin1_upper c))
                     (map N.of_nat (seq 0 256)) = true)
      by (vm_compute; reflexivity).
    apply (bool_decide_eq_true_1 _).
    apply (proj1 (forallb_forall (fun c => bool_decide (103 ∉ latin1_upper c)) _) Hall).
    apply in_map_iff. exists (N.to_nat c). split; [apply N2Nat.id|].
    apply in_seq. lia.
  - rewrite (latin1_upper_high c Hc). rewrite list_elem_of_singleton. lia.
Qed.

Lemma enrich_changes_only_coordinates_witness :
  (well_formed demo_hospitals
   /\ enrich parse_decimal demo_hospitals = Ok (name_label, demo_gdf))
  /\ well_formed demo_gdf
  /\ columns demo_gdf
     = (if decide (geometry_lower ∈ columns demo_hospitals) then columns demo_hospitals
        else columns demo_hospitals ++ [geometry_lower])
  /\ name_label ∈ columns demo_hospitals
  /\ name_label ∈ columns demo_gdf
  /\ (forall i r',
        (i, r') ∈ rows demo_gdf ->
        exists r, (i, r) ∈ rows demo_hospitals
          /\ forall c, c ∈ columns demo_hospitals ->
               c <> NORTE -> c <> ESTE -> c <> geometry_lower ->
               field c demo_gdf r' = field c demo_hospitals r).
Proof.
  assert (H1 : well_formed demo_hospitals) by by_computation.
  assert (H2 : enrich parse_decimal demo_hospitals = Ok (name_label, demo_gdf))
    by (vm_compute; reflexivity).
  split; [by split|].
  exact (enrich_changes_only_coordinates parse_decimal _ _ _ H1 H2).
Defined.

Lemma markers_follow_coordinates_witness :
  (well_formed demo_hospitals
   /\ enrich parse_decimal demo_hospitals = Ok (name_label, demo_gdf))
  /\ exists ms,
       markers demo_str name_label demo_gdf = Ok ms
       /\ Forall2 (fun r m =>
            exists x y,
              field ESTE demo_gdf r.2 = Num x
              /\ field NORTE demo_gdf r.2 = Num y
              /\ location m = (y, x)
              /\ popup m = demo_str (field name_label demo_gdf r.2))
          (rows demo_gdf) ms.
Proof.
  assert (H1 : well_formed demo_hospitals) by by_computation.
  assert (H2 : enrich parse_decimal demo_hospitals = Ok (name_label, demo_gdf))
    by (vm_compute; reflexivity).
  split; [by split|].
  exact (markers_follow_coordinates parse_decimal demo_str _ _ _ H1 H2).
Defined.

Example markers_scenario :
  markers demo_str name_label demo_gdf
  = Ok [mkMarker (Float (mkDecimal (-1205) 2), Float (mkDecimal (-7703) 2)) (utf8 "H0");
        mkMarker (Float (mkDecimal (-1209) 2), Int (-77)) (utf8 "H3");
        mkMarker (Float (mkDecimal (-1210) 2), Float (mkDecimal (-7704) 2)) (utf8 "H5")].
Proof. vm_compute. reflexivity. Qed.

Lemma hospital_counts_partition_witness :
  DISTRITO ∈ columns demo_gdf
  /\ exists hosp_count,
       groupby_size DISTRITO N_HOSPITALS demo_gdf = Ok hosp_count
       /\ columns hosp_count = [DISTRITO; N_HOSPITALS]
       /\ NoDup ((fun r => field DISTRITO hosp_count r.2) <$> rows hosp_count)
       /\ Forall (fun r =>
            field DISTRITO hosp_count r.2 <> NaN
            /\ field N_HOSPITALS hosp_count r.2
               = Num (Int (Z.of_nat (hospitals_in demo_gdf (field DISTRITO hosp_count r.2))))
            /\ (0 < hospitals_in demo_gdf (field DISTRITO hosp_count r.2))%nat)
          (rows hosp_count)
       /\ (forall name,
             name <> NaN -> (0 < hospitals_in demo_gdf name)%nat ->
             name ∈ (fun r => field DISTRITO hosp_count r.2) <$> rows hosp_count)
       /\ sum_Z (counts hosp_count)
          = Z.of_nat (length (filter (fun r => field DISTRITO demo_gdf r.2 <> NaN)
                                (rows demo_gdf))).
Proof.
  assert (H1 : DISTRITO ∈ columns demo_gdf) by by_computation.
  split; [exact H1|].
  exact (hospital_counts_partition demo_gdf H1).
Defined.

Lemma district_counts_add_up_witness :
  (well_formed demo_districts
   /\ DISTRITO ∈ columns demo_gdf
   /\ DISTRITO ∈ columns demo_districts
   /\ (geometry_lower ∈ columns demo_districts \/ GEOMETRY ∈ columns demo_districts)
   /\ (N_HOSPITALS ∉ columns demo_districts)
   /\ NoDup (district_names demo_districts))
  /\ exists dc,
       districts_copy demo_gdf demo_districts = Ok dc
       /\ sum_Z (counts dc)
          = Z.of_nat (length (filter (fun h =>
              field DISTRITO demo_gdf h.2 <> NaN
              /\ field DISTRITO demo_gdf h.2 ∈ district_names demo_districts)
              (rows demo_gdf)))
       /\ (sum_Z (counts dc) <= Z.of_nat (length (rows demo_gdf)))%Z.
Proof.
  assert (H1 : well_formed demo_districts) by by_computation.
  assert (H2 : DISTRITO ∈ columns demo_gdf) by by_computation.
  assert (H3 : DISTRITO ∈ columns demo_districts) by by_computation.
  assert (H4 : geometry_lower ∈ columns demo_districts \/ GEOMETRY ∈ columns demo_districts)
    by (right; by_computation).
  assert (H5 : N_HOSPITALS ∉ columns demo_districts) by by_computation.
  assert (H6 : NoDup (district_names demo_districts)) by by_computation.
  split; [by split_and!|].
  exact (district_counts_add_up demo_gdf demo_districts H1 H2 H3 H4 H5 H6).
Defined.

Lemma tab2_needs_and_failures_witness :
  well_formed demo_districts_counted
  /\ (forall out, tab2 demo_union demo_gdf demo_districts_counted = Ok out ->
        DISTRITO ∈ columns demo_gdf
        /\ (geometry_lower ∈ columns demo_districts_counted
            \/ GEOMETRY ∈ columns demo_districts_counted)
        /\ DISTRITO ∈ columns demo_districts_counted
        /\ (N_HOSPITALS ∉ columns demo_districts_counted)
        /\ DEPARTAMEN ∈ columns demo_districts_counted
        /\ PROVINCIA ∈ columns demo_districts_counted)
  /\ (DISTRITO ∉ columns demo_gdf ->
      tab2 demo_union demo_gdf demo_districts_counted = Raise (KeyError [DISTRITO]))
  /\ (DISTRITO ∈ columns demo_gdf -> ~ repeated DISTRITO (columns demo_gdf) ->
      ~ (geometry_lower ∈ columns demo_districts_counted
         \/ GEOMETRY ∈ columns demo_districts_counted) ->
      tab2 demo_union demo_gdf demo_districts_counted = Raise StopScript)
  /\ (DISTRITO ∈ columns demo_gdf -> ~ repeated DISTRITO (columns demo_gdf) ->
      geometry_lower ∈ columns demo_districts_counted
      \/ GEOMETRY ∈ columns demo_districts_counted ->
      DISTRITO ∉ columns demo_districts_counted ->
      tab2 demo_union demo_gdf demo_districts_counted = Raise (KeyError [DISTRITO]))
  /\ (DISTRITO ∈ columns demo_gdf -> ~ repeated DISTRITO (columns demo_gdf) ->
      geometry_lower ∈ columns demo_districts_counted
      \/ GEOMETRY ∈ columns demo_districts_counted ->
      DISTRITO ∈ columns demo_districts_counted ->
      N_HOSPITALS ∈ columns demo_districts_counted ->
      N_HOSPITALS ++ suffix_x ∉ columns demo_districts_counted ->
      N_HOSPITALS ++ suffix_y ∉ columns demo_districts_counted ->
      text_or_missing_column DISTRITO demo_gdf ->
      text_column DISTRITO demo_districts_counted ->
      tab2 demo_union demo_gdf demo_districts_counted = Raise (KeyError [N_HOSPITALS])).
Proof.
  assert (H1 : well_formed demo_districts_counted) by by_computation.
  split; [exact H1|].
  exact (tab2_needs_and_failures demo_union demo_gdf demo_districts_counted H1).
Defined.

(** A district table that comes with a count column of its own: the
    premises of the last case hold, and line 99 raises. *)
Example tab2_count_column_clash :
  DISTRITO ∈ columns demo_gdf
  /\ ~ repeated DISTRITO (columns demo_gdf)
  /\ GEOMETRY ∈ columns demo_districts_counted
  /\ DISTRITO ∈ columns demo_districts_counted
  /\ N_HOSPITALS ∈ columns demo_districts_counted
  /\ (N_HOSPITALS ++ suffix_x ∉ columns demo_districts_counted)
  /\ (N_HOSPITALS ++ suffix_y ∉ columns demo_districts_counted)
  /\ text_or_missing_column DISTRITO demo_gdf
  /\ text_column DISTRITO demo_districts_counted
  /\ tab2 demo_union demo_gdf demo_districts_counted = Raise (KeyError [N_HOSPITALS]).
Proof. split_and!; try by_computation. vm_compute. reflexivity. Qed.

(** The failures of the second tab, one table for each. *)
Example tab2_failures :
  tab2 demo_union demo_no_este demo_districts = Raise (KeyError [DISTRITO])
  /\ tab2 demo_union demo_gdf
       (mkDataFrame [DEPARTAMEN; PROVINCIA; DISTRITO] []) = Raise StopScript
  /\ tab2 demo_union demo_gdf
       (mkDataFrame [DEPARTAMEN; PROVINCIA; GEOMETRY] []) = Raise (KeyError [DISTRITO])
  /\ tab2 demo_union demo_gdf
       (mkDataFrame [DEPARTAMEN; PROVINCIA; DISTRITO; GEOMETRY; N_HOSPITALS] [])
     = Raise (KeyError [N_HOSPITALS])
  /\ tab2 demo_union demo_gdf
       (mkDataFrame [DISTRITO; GEOMETRY] []) = Raise (KeyError [DEPARTAMEN; PROVINCIA])
  /\ tab2 demo_union demo_gdf
       (mkDataFrame [DEPARTAMEN; DISTRITO; GEOMETRY] []) = Raise (KeyError [PROVINCIA]).
Proof. split_and!; vm_compute; reflexivity. Qed.

Lemma zero_table_first_ten_witness :
  (well_formed demo_districts
   /\ DISTRITO ∈ columns demo_gdf
   /\ DISTRITO ∈ columns demo_districts
   /\ DEPARTAMEN ∈ columns demo_districts
   /\ PROVINCIA ∈ columns demo_districts
   /\ (geometry_lower ∈ columns demo_districts \/ GEOMETRY ∈ columns demo_districts)
   /\ N_HOSPITALS ∉ columns demo_districts)
  /\ exists out,
       tab2 demo_union demo_gdf demo_districts = Ok out
       /\ columns (tab_zero out) = [DEPARTAMEN; PROVINCIA; DISTRITO]
       /\ Forall2 (fun d z =>
            same_fields [DEPARTAMEN; PROVINCIA; DISTRITO] demo_districts (tab_zero out)
              d.2 z.2)
          (take 10 (filter (fun d =>
                      hospitals_in demo_gdf (field DISTRITO demo_districts d.2) = 0%nat)
                      (rows demo_districts)))
          (rows (tab_zero out)).
Proof.
  assert (H1 : well_formed demo_districts) by by_computation.
  assert (H2 : DISTRITO ∈ columns demo_gdf) by by_computation.
  assert (H3 : DISTRITO ∈ columns demo_districts) by by_computation.
  assert (H4 : DEPARTAMEN ∈ columns demo_districts) by by_computation.
  assert (H5 : PROVINCIA ∈ columns demo_districts) by by_computation.
  assert (H6 : geometry_lower ∈ columns demo_districts \/ GEOMETRY ∈ columns demo_districts)
    by (right; by_computation).
  assert (H7 : N_HOSPITALS ∉ columns demo_districts) by by_computation.
  split; [by split_and!|].
  exact (zero_table_first_ten demo_union demo_gdf demo_districts H1 H2 H3 H4 H5 H6 H7).
Defined.

Example zero_table_scenario :
  (fun out => (rows (tab_zero out)).*2) <$> tab2 demo_union demo_gdf demo_districts
  = Ok [[Str LIMA; Str LIMA; Str XYZ]; [Str TACNA; Str TACNA; Str TACNA]].
Proof. vm_compute. reflexivity. Qed.

Lemma department_summary_sorted_witness :
  (well_formed demo_districts
   /\ DISTRITO ∈ columns demo_gdf
   /\ DISTRITO ∈ columns demo_districts
   /\ DEPARTAMEN ∈ columns demo_districts
   /\ PROVINCIA ∈ columns demo_districts
   /\ (geometry_lower ∈ columns demo_districts \/ GEOMETRY ∈ columns demo_districts)
   /\ N_HOSPITALS ∉ columns demo_districts)
  /\ exists out,
       tab2 demo_union demo_gdf demo_districts = Ok out
       /\ descending (counts (tab_departments out))
       /\ (fun r => r.1) <$> rows (tab_departments out) ≡ₚ department_keys demo_districts
       /\ NoDup (department_keys demo_districts)
       /\ NaN ∉ department_keys demo_districts.
Proof.
  assert (H1 : well_formed demo_districts) by by_computation.
  assert (H2 : DISTRITO ∈ columns demo_gdf) by by_computation.
  assert (H3 : DISTRITO ∈ columns demo_districts) by by_computation.
  assert (H4 : DEPARTAMEN ∈ columns demo_districts) by by_computation.
  assert (H5 : PROVINCIA ∈ columns demo_districts) by by_computation.
  assert (H6 : geometry_lower ∈ columns demo_districts \/ GEOMETRY ∈ columns demo_districts)
    by (right; by_computation).
  assert (H7 : N_HOSPITALS ∉ columns demo_districts) by by_computation.
  split; [by split_and!|].
  exact (department_summary_sorted demo_union demo_gdf demo_districts
           H1 H2 H3 H4 H5 H6 H7).
Defined.

Lemma top10_largest_counts_witness :
  (well_formed demo_districts
   /\ DISTRITO ∈ columns demo_gdf
   /\ DISTRITO ∈ columns demo_districts
   /\ DEPARTAMEN ∈ columns demo_districts
   /\ PROVINCIA ∈ columns demo_districts
   /\ (geometry_lower ∈ columns demo_districts \/ GEOMETRY ∈ columns demo_districts)
   /\ N_HOSPITALS ∉ columns demo_districts)
  /\ exists out shown rest,
       tab2 demo_union demo_gdf demo_districts = Ok out
       /\ columns (tab_top10 out) = [DEPARTAMEN; PROVINCIA; DISTRITO; N_HOSPITALS]
       /\ shown ++ rest ≡ₚ rows (tab_districts out)
       /\ length shown = min 10 (length (rows demo_districts))
       /\ Forall2 (fun r t =>
            t.1 = r.1
            /\ same_fields [DEPARTAMEN; PROVINCIA; DISTRITO; N_HOSPITALS]
                 (tab_districts out) (tab_top10 out) r.2 t.2)
          shown (rows (tab_top10 out))
       /\ descending (counts (tab_top10 out))
       /\ Forall (fun r =>
            Forall (fun r' =>
              (count_of (field N_HOSPITALS (tab_districts out) r'.2)
               <= count_of (field N_HOSPITALS (tab_districts out) r.2))%Z) rest) shown.
Proof.
  assert (H1 : well_formed demo_districts) by by_computation.
  assert (H2 : DISTRITO ∈ columns demo_gdf) by by_computation.
  assert (H3 : DISTRITO ∈ columns demo_districts) by by_computation.
  assert (H4 : DEPARTAMEN ∈ columns demo_districts) by by_computation.
  assert (H5 : PROVINCIA ∈ columns demo_districts) by by_computation.
  assert (H6 : geometry_lower ∈ columns demo_districts \/ GEOMETRY ∈ columns demo_districts)
    by (right; by_computation).
  assert (H7 : N_HOSPITALS ∉ columns demo_districts) by by_computation.
  split; [by split_and!|].
  exact (top10_largest_counts demo_union demo_gdf demo_districts H1 H2 H3 H4 H5 H6 H7).
Defined.

Lemma stop_is_unreachable_witness :
  normalize_label py_isspace latin1_upper geometry_lower = GEOMETRY
  /\ prepare py_isspace latin1_upper parse_decimal demo_union
       demo_raw_hospitals demo_districts_file demo_centers_file
     <> Raise StopScript.
Proof.
  assert (H1 : normalize_label py_isspace latin1_upper geometry_lower = GEOMETRY)
    by reflexivity.
  split; [exact H1|].
  exact (stop_is_unreachable py_isspace latin1_upper parse_decimal demo_union
           demo_raw_hospitals demo_districts_file demo_centers_file H1).
Defined.

Lemma lowercase_geometry_never_found_witness :
  (forall c, 103 ∉ latin1_upper c)
  /\ (geometry_lower ∉ columns (normalize_columns py_isspace latin1_upper demo_districts_file))
  /\ geom_col_of (normalize_columns py_isspace latin1_upper demo_districts_file) = GEOMETRY.
Proof.
  split; [exact latin1_upper_no_g|].
  exact (lowercase_geometry_never_found py_isspace latin1_upper demo_districts_file
           latin1_upper_no_g).
Defined.

Lemma districts_without_geometry_dropped_witness :
  well_formed (normalize_columns py_isspace latin1_upper demo_districts_gap)
  /\ exists dash,
       prepare py_isspace latin1_upper parse_decimal demo_union
         demo_raw_hospitals demo_districts_gap demo_centers_file = Ok dash
       /\ exists g,
            index_of geometry_lower (columns demo_districts_gap) = Some g
            /\ Forall2 (fun d r =>
                 r.2 = d.2 ++ [Num (Int (Z.of_nat
                         (hospitals_in (dash_hospitals dash)
                            (field DISTRITO
                               (normalize_columns py_isspace latin1_upper
                                  demo_districts_gap) d.2))))])
               (filter (fun d => cell_at g d.2 <> NaN) (rows demo_districts_gap))
               (rows (tab_districts (dash_tab2 dash))).
Proof.
  assert (H1 : well_formed (normalize_columns py_isspace latin1_upper demo_districts_gap))
    by by_computation.
  assert (H2 : { dash | prepare py_isspace latin1_upper parse_decimal demo_union
                          demo_raw_hospitals demo_districts_gap demo_centers_file
                        = Ok dash })
    by (eexists; vm_compute; reflexivity).
  destruct H2 as [dash H2].
  split; [exact H1|]. exists dash. split; [exact H2|].
  exact (districts_without_geometry_dropped py_isspace latin1_upper parse_decimal
           demo_union demo_raw_hospitals demo_districts_gap demo_centers_file dash H1 H2).
Defined.

Example districts_gap_scenario :
  (fun d => (length (rows (tab_districts (dash_tab2 d))),
             counts (tab_districts (dash_tab2 d))))
    <$> prepare py_isspace latin1_upper parse_decimal demo_union
          demo_raw_hospitals demo_districts_gap demo_centers_file
  = Ok (3%nat, [3; 0; 0]%Z).
Proof. vm_compute. reflexivity. Qed.

(** Every file is there, the district shapefile without its coordinate
    reference system: the load dies in [to_crs] after two reads. *)
Lemma failed_load_not_cached_witness :
  load_data id demo_session_naive
  = (Raise ValueError, mkSession demo_files_naive [IPRESS_csv; DISTRITOS_shp] None)
  /\ cache demo_session_naive = None
  /\ (exists k, (1 <= k <= 3)%nat
        /\ [IPRESS_csv; DISTRITOS_shp]
           = reads demo_session_naive ++ take k [IPRESS_csv; DISTRITOS_shp; CCPP_shp])
  /\ (forall fs : storage decimal (list nat), exists more,
        reads (load_data id (mkSession fs [IPRESS_csv; DISTRITOS_shp] None)).2
        = [IPRESS_csv; DISTRITOS_shp] ++ IPRESS_csv :: more)
  /\ (forall (fs : storage decimal (list nat)) v s2,
        load_data id (mkSession fs [IPRESS_csv; DISTRITOS_shp] None) = (Ok v, s2) ->
        cache s2 = Some v
        /\ exists f1 f2 f3,
             fs IPRESS_csv = Ok f1 /\ fs DISTRITOS_shp = Ok f2 /\ fs CCPP_shp = Ok f3
             /\ v = (table f1, reprojected id (table f2), reprojected id (table f3))).
Proof.
  assert (H1 : load_data id demo_session_naive
    = (Raise ValueError, mkSession demo_files_naive [IPRESS_csv; DISTRITOS_shp] None))
    by (vm_compute; reflexivity).
  destruct (failed_load_not_cached id demo_session_naive _ _ H1)
    as (Hc & _ & _ & Hreads & Hagain & Hretry).
  split_and!; [exact H1|exact Hc|exact Hreads|exact Hagain|exact Hretry].
Defined.

Example load_after_repair :
  load_data id (mkSession demo_files [IPRESS_csv; DISTRITOS_shp] None)
  = (Ok (demo_raw_hospitals, demo_districts_file, demo_centers_file),
     mkSession demo_files
       [IPRESS_csv; DISTRITOS_shp; IPRESS_csv; DISTRITOS_shp; CCPP_shp]
       (Some (demo_raw_hospitals, demo_districts_file, demo_centers_file))).
Proof. vm_compute. reflexivity. Qed.

(** ** Scenarios of the specification *)

Example CONDICION_code_points :
  CONDICION = [67; 79; 78; 68; 73; 67; 73; 211; 78].
Proof. reflexivity. Qed.

Example parse_decimal_na : parse_decimal (utf8 "N/A") = None.
Proof. reflexivity. Qed.

Example enrich_demo : enrich parse_decimal demo_hospitals = Ok (name_label, demo_gdf).
Proof. vm_compute. reflexivity. Qed.

Example run_demo_script :
  (fun d => counts (tab_districts (dash_tab2 d)))
    <$> (run_script py_isspace latin1_upper parse_decimal demo_union id demo_session).1
  = Ok [3; 0; 0]%Z.
Proof. vm_compute. reflexivity. Qed.
